(** * A model of [validate_markdown.py]

    The markdown cheatsheet validator of [src/utilities/validate_markdown.py]
    as Rocq functions, and the properties of its checks.

    Conventions of the model.
    - A Python [str] is a [string]; a character is an [ascii], that is a code
      point below 256.  On that range [str.isspace] and the regular-expression
      class [\s] coincide, [\d] is [0-9] and case folding is the ASCII one.
    - A Python [int] is a [Z] where it can be negative ([code_block_start]),
      and a [nat] for indices, lengths and counters.
    - A [MarkdownValidator] object is the record [validator]; a method is a
      function from the object before the call to the object after it
      (paired with the returned value when there is one).
    - [open(...).read()] either returns the text or raises; [read_file]
      catches what it raises, as the [try]/[except] does. *)

From Stdlib Require Import String Ascii List Bool Arith ZArith Lia.
From Stdlib Require Import Permutation.
From Stdlib Require Import DecimalString DecimalZ.
Import ListNotations.
Open Scope list_scope.
Open Scope string_scope.

(* ================================================================== *)
(** ** Python strings *)

Module PyStr.

Definition nl : ascii := "010"%char.

(** [str.isspace] on one character (and the class [\s]). *)
Definition isspace (c : ascii) : bool :=
  let n := nat_of_ascii c in
  ((9 <=? n)%nat && (n <=? 13)%nat) || ((28 <=? n)%nat && (n <=? 32)%nat)
  || (n =? 133)%nat || (n =? 160)%nat.

Fixpoint all_chars (p : ascii -> bool) (s : string) : bool :=
  match s with
  | EmptyString => true
  | String c s' => p c && all_chars p s'
  end.

(** [s.lstrip()] *)
Fixpoint lstrip (s : string) : string :=
  match s with
  | EmptyString => EmptyString
  | String c s' => if isspace c then lstrip s' else s
  end.

(** [s.rstrip()] *)
Fixpoint rstrip (s : string) : string :=
  match s with
  | EmptyString => EmptyString
  | String c s' =>
      match rstrip s' with
      | EmptyString => if isspace c then EmptyString else String c EmptyString
      | r => String c r
      end
  end.

(** [s.strip()] *)
Definition strip (s : string) : string := rstrip (lstrip s).

(** Truth value of a string: non-empty. *)
Definition truthy (s : string) : bool :=
  match s with EmptyString => false | String _ _ => true end.

(** [s.startswith(p)] *)
Fixpoint startswith (p s : string) : bool :=
  match p, s with
  | EmptyString, _ => true
  | String a p', String b s' => Ascii.eqb a b && startswith p' s'
  | String _ _, EmptyString => false
  end.

(** [s.split('\n')] *)
Fixpoint split_lines (s : string) : list string :=
  match s with
  | EmptyString => [EmptyString]
  | String c s' =>
      if Ascii.eqb c nl then EmptyString :: split_lines s'
      else match split_lines s' with
           | h :: t => String c h :: t
           | [] => [String c EmptyString]
           end
  end.

(** [sep.join(l)] *)
Fixpoint join (sep : string) (l : list string) : string :=
  match l with
  | [] => EmptyString
  | [x] => x
  | x :: t => x ++ sep ++ join sep t
  end.

(** [c * n] for a one-character string [c]. *)
Fixpoint repeat_char (c : ascii) (n : nat) : string :=
  match n with
  | O => EmptyString
  | S n' => String c (repeat_char c n')
  end.

Fixpoint take (n : nat) (s : string) : string :=
  match n, s with
  | S n', String c s' => String c (take n' s')
  | _, _ => EmptyString
  end.

Fixpoint drop (n : nat) (s : string) : string :=
  match n, s with
  | S n', String _ s' => drop n' s'
  | _, _ => s
  end.

(** [f"{z}"] for an integer. *)
Definition str_int (z : Z) : string := NilEmpty.string_of_int (Z.to_int z).

(** [enumerate(l)] *)
Fixpoint enumerate_from {A : Type} (i : nat) (l : list A) : list (nat * A) :=
  match l with
  | [] => []
  | x :: t => (i, x) :: enumerate_from (S i) t
  end.

Definition enumerate {A : Type} (l : list A) : list (nat * A) :=
  enumerate_from 0 l.

End PyStr.
Import PyStr.

(* ================================================================== *)
(** ** The regular expressions of the validator

    Every pattern of the source is a sequence of greedy repetitions of a
    character class (a literal character is such a repetition with bounds
    [{1,1}]), possibly ended by [$]; every group whose text is read spans
    one repetition.  [re_match] is the backtracking matcher on that
    fragment: it returns the text consumed by each node and the unread
    rest. The leading [^] of a pattern used through [pattern.match] is
    left out, [match] being anchored at the start already. *)

Module Re.

Inductive node : Type :=
| Rep (cls : ascii -> bool) (lo : nat) (hi : option nat)
| Eos.

Definition pattern := list node.

Fixpoint span (cls : ascii -> bool) (s : string) : nat :=
  match s with
  | EmptyString => 0
  | String c s' => if cls c then S (span cls s') else 0
  end.

Definition rep_max (cls : ascii -> bool) (hi : option nat) (s : string) : nat :=
  match hi with
  | None => span cls s
  | Some h => Nat.min h (span cls s)
  end.

(** Greedy choice: the longest count first, then shorter ones down to [lo]. *)
Fixpoint backtrack {A : Type} (try : nat -> option A) (lo n : nat) : option A :=
  if (n <? lo)%nat then None
  else match try n with
       | Some r => Some r
       | None => match n with
                 | O => None
                 | S n' => backtrack try lo n'
                 end
       end.

(** [$]: at the end of the string, or just before a newline that ends it. *)
Definition at_end (s : string) : bool :=
  match s with
  | EmptyString => true
  | String c EmptyString => Ascii.eqb c nl
  | _ => false
  end.

Fixpoint re_match (p : pattern) (s : string) : option (list string * string) :=
  match p with
  | [] => Some ([], s)
  | Rep cls lo hi :: p' =>
      backtrack
        (fun k => match re_match p' (drop k s) with
                  | Some (caps, rest) => Some (take k s :: caps, rest)
                  | None => None
                  end)
        lo (rep_max cls hi s)
  | Eos :: p' =>
      if at_end s then
        match re_match p' s with
        | Some (caps, rest) => Some (EmptyString :: caps, rest)
        | None => None
        end
      else None
  end.

(** [pattern.match(s)]: the captures when the pattern matches at the start. *)
Definition pmatch (p : pattern) (s : string) : option (list string) :=
  match re_match p s with
  | Some (caps, _) => Some caps
  | None => None
  end.

(** [pattern.finditer(s)], for patterns that match no empty text: the
    leftmost match, then the search resumes where it ended.  [skip] is the
    number of characters of the last match still to step over. *)
Fixpoint finditer_from (p : pattern) (s : string) (skip : nat) : list (list string) :=
  match s with
  | EmptyString =>
      match skip with
      | S _ => []
      | O => match re_match p EmptyString with
             | Some (caps, _) => [caps]
             | None => []
             end
      end
  | String _ s' =>
      match skip with
      | S k => finditer_from p s' k
      | O => match re_match p s with
             | Some (caps, rest) =>
                 caps :: finditer_from p s' (Nat.pred (String.length s - String.length rest))
             | None => finditer_from p s' 0
             end
      end
  end.

Definition finditer (p : pattern) (s : string) : list (list string) :=
  finditer_from p s 0.

(** The text consumed by the [k]-th node of the pattern, [k >= 1]; a group
    of the source that spans that node is read through it. *)
Definition node_text (k : nat) (caps : list string) : string :=
  nth (Nat.pred k) caps EmptyString.

(** A literal character, and a literal text. *)
Definition lit (c : ascii) : node := Rep (Ascii.eqb c) 1 (Some 1).

Fixpoint lits (s : string) : pattern :=
  match s with
  | EmptyString => []
  | String c s' => lit c :: lits s'
  end.

(** ASCII lower case, for [re.IGNORECASE]. *)
Definition lower (c : ascii) : ascii :=
  let n := nat_of_ascii c in
  if (65 <=? n)%nat && (n <=? 90)%nat then ascii_of_nat (n + 32) else c.

Definition lit_nocase (c : ascii) : node :=
  Rep (fun x => Ascii.eqb (lower x) (lower c)) 1 (Some 1).

Fixpoint lits_nocase (s : string) : pattern :=
  match s with
  | EmptyString => []
  | String c s' => lit_nocase c :: lits_nocase s'
  end.

Definition is_hash (c : ascii) : bool := Ascii.eqb c "#"%char.
Definition any_char (c : ascii) : bool := negb (Ascii.eqb c nl).
Definition is_digit (c : ascii) : bool :=
  let n := nat_of_ascii c in (48 <=? n)%nat && (n <=? 57)%nat.

End Re.
Import Re.

(* ================================================================== *)
(** ** The validator object *)

(** What the validator reads of a [pathlib.Path]: [str(path)] and
    [path.name]. *)
Record Path : Type := mkPath { path_str : string; path_name : string }.

(** What [open(path).read()] can raise, with [str(e)]. [Exception] stands
    for every exception class other than [FileNotFoundError]. *)
Inductive exn : Type :=
| FileNotFoundError (msg : string)
| Exception (msg : string).

Inductive outcome (A : Type) : Type :=
| Returns (a : A)
| Raises (e : exn).
Arguments Returns {A} a.
Arguments Raises {A} e.

(** The files the run can see: the result of opening and reading a path. *)
Definition filesystem : Type := Path -> outcome string.

Record validator : Type := mkValidator {
  file_path : Path;
  content : string;
  lines : list string;
  errors : list string;
  warnings : list string
}.

(** [MarkdownValidator(file_path)] *)
Definition init (p : Path) : validator :=
  mkValidator p "" [] [] [].

(** [l.append(x)] *)
Definition list_append {A : Type} (l : list A) (x : A) : list A := (l ++ [x])%list.

(** [self.errors.append(msg)] *)
Definition append_error (msg : string) (self : validator) : validator :=
  mkValidator (file_path self) (content self) (lines self)
              (list_append (errors self) msg) (warnings self).

(** [self.warnings.append(msg)] *)
Definition append_warning (msg : string) (self : validator) : validator :=
  mkValidator (file_path self) (content self) (lines self)
              (errors self) (list_append (warnings self) msg).

(** The line number in a message: [{i + 1}]. *)
Definition lineno (i : nat) : string := str_int (Z.of_nat i + 1).

Definition read_file (fs : filesystem) (self : validator) : bool * validator :=
  match fs (file_path self) with
  | Returns text =>
      (true, mkValidator (file_path self) text (split_lines text)
                         (errors self) (warnings self))
  | Raises (FileNotFoundError _) =>
      (false, append_error ("File not found: " ++ path_str (file_path self)) self)
  | Raises (Exception msg) =>
      (false, append_error ("Error reading file: " ++ msg) self)
  end.

(** The [if]/[elif] of [validate_h1_title], run on the first line whose
    [strip()] is not empty. *)
Definition h1_title_check (i : nat) (line : string) (self : validator) : validator :=
  if negb (startswith "# " line) then
    append_error
      ("Line " ++ lineno i ++ ": File should start with H1 title (# Title)") self
  else if String.eqb (strip line) "#" then
    append_error ("Line " ++ lineno i ++ ": H1 title is empty") self
  else self.

(** The loop of [validate_h1_title]; it ends at the first line whose
    [strip()] is not empty (the [break]). *)
Fixpoint h1_title_loop (items : list (nat * string)) (self : validator) : validator :=
  match items with
  | [] => self
  | (i, line) :: rest =>
      if truthy (strip line) then h1_title_check i line self
      else h1_title_loop rest self
  end.

Definition validate_h1_title (self : validator) : validator :=
  h1_title_loop (enumerate (lines self)) self.

(** The text "## Table of Contents", matched with [re.IGNORECASE]. *)
Definition toc_pattern : pattern := lits_nocase "## Table of Contents".

Definition validate_table_of_contents (self : validator) : validator :=
  let has_toc :=
    existsb (fun line => match pmatch toc_pattern line with
                         | Some _ => true
                         | None => false
                         end)
            (firstn 20 (lines self)) in
  if negb has_toc then
    append_warning "No 'Table of Contents' section found in first 20 lines" self
  else self.

(** The pattern of [validate_headings_hierarchy]: one to six "#"
    (group 1), one or more [\s], one or more of any character (group 2). *)
Definition heading_pattern : pattern :=
  [Rep is_hash 1 (Some 6); Rep isspace 1 None; Rep any_char 1 None].

(** One iteration of the loop of [validate_headings_hierarchy], on the
    local [previous_level] and the object. *)
Definition hierarchy_step (st : nat * validator) (item : nat * string)
  : nat * validator :=
  let '(previous_level, self) := st in
  let '(i, line) := item in
  match pmatch heading_pattern line with
  | Some caps =>
      (* match.group(1) *)
      let current_level := String.length (node_text 1 caps) in
      let self :=
        if (previous_level + 1 <? current_level)%nat && (0 <? previous_level)%nat then
          append_warning
            ("Line " ++ lineno i ++ ": Heading level skipped "
             ++ "(H" ++ str_int (Z.of_nat previous_level)
             ++ " -> H" ++ str_int (Z.of_nat current_level) ++ ")") self
        else self in
      (current_level, self)
  | None => (previous_level, self)
  end.

Definition validate_headings_hierarchy (self : validator) : validator :=
  snd (fold_left hierarchy_step (enumerate (lines self)) (0, self)).

(** The locals of [validate_code_blocks]. *)
Record fence_state : Type := mkFence {
  in_code_block : bool;
  code_block_start : Z;
  fence_self : validator
}.

Definition code_blocks_step (st : fence_state) (item : nat * string) : fence_state :=
  let '(i, line) := item in
  if startswith "```" line then
    if negb (in_code_block st) then
      mkFence true (Z.of_nat i)
        (if String.eqb (strip line) "```" then
           append_warning
             ("Line " ++ lineno i ++ ": Code block without language identifier")
             (fence_self st)
         else fence_self st)
    else mkFence false (code_block_start st) (fence_self st)
  else st.

Definition validate_code_blocks (self : validator) : validator :=
  let st := fold_left code_blocks_step (enumerate (lines self))
                      (mkFence false (-1) self) in
  if in_code_block st then
    append_error
      ("Line " ++ str_int (code_block_start st + 1) ++ ": Unclosed code block")
      (fence_self st)
  else fence_self st.

(** The link pattern of [validate_links]: a literal "[", one or more
    characters other than "]" (group 1), the literals "]" and "(", any
    number of characters other than ")" (group 2), a literal ")".  The two
    groups are nodes 2 and 5. *)
Definition link_pattern : pattern :=
  [lit "["%char;
   Rep (fun c => negb (Ascii.eqb c "]"%char)) 1 None;
   lit "]"%char; lit "("%char;
   Rep (fun c => negb (Ascii.eqb c ")"%char)) 0 None;
   lit ")"%char].

(** The body of the inner loop of [validate_links], for one match. *)
Definition links_match_step (i : nat) (self : validator) (caps : list string)
  : validator :=
  (* match.group(1) and match.group(2) *)
  let link_text := node_text 2 caps in
  let link_url := node_text 5 caps in
  let self :=
    if negb (truthy link_text) then
      append_error ("Line " ++ lineno i ++ ": Empty link text") self
    else self in
  if negb (truthy link_url) then
    append_error ("Line " ++ lineno i ++ ": Empty link URL") self
  else self.

Definition links_step (self : validator) (item : nat * string) : validator :=
  let '(i, line) := item in
  fold_left (links_match_step i) (finditer link_pattern line) self.

Definition validate_links (self : validator) : validator :=
  fold_left links_step (enumerate (lines self)) self.

(** The pattern of [validate_empty_headings]: one to six "#" (group 1),
    any number of [\s], then [$]. *)
Definition empty_heading_pattern : pattern :=
  [Rep is_hash 1 (Some 6); Rep isspace 0 None; Eos].

Definition empty_headings_step (self : validator) (item : nat * string) : validator :=
  let '(i, line) := item in
  match pmatch empty_heading_pattern line with
  | Some _ => append_error ("Line " ++ lineno i ++ ": Empty heading found") self
  | None => self
  end.

Definition validate_empty_headings (self : validator) : validator :=
  fold_left empty_headings_step (enumerate (lines self)) self.

Definition trailing_whitespace_step (self : validator) (item : nat * string)
  : validator :=
  let '(i, line) := item in
  if negb (String.eqb line (rstrip line)) then
    append_warning ("Line " ++ lineno i ++ ": Trailing whitespace detected") self
  else self.

Definition validate_trailing_whitespace (self : validator) : validator :=
  fold_left trailing_whitespace_step (enumerate (lines self)) self.

(** One iteration of the loop of [validate_consecutive_blank_lines], on the
    local [blank_count] and the object. *)
Definition blank_lines_step (st : nat * validator) (item : nat * string)
  : nat * validator :=
  let '(blank_count, self) := st in
  let '(i, line) := item in
  if negb (truthy (strip line)) then
    let blank_count := blank_count + 1 in
    if (2 <? blank_count)%nat then
      (blank_count,
       append_warning
         ("Line " ++ lineno i ++ ": More than 2 consecutive blank lines") self)
    else (blank_count, self)
  else (0, self).

Definition validate_consecutive_blank_lines (self : validator) : validator :=
  snd (fold_left blank_lines_step (enumerate (lines self)) (0, self)).

(** The unordered-list pattern: any number of [\s] (group 1), one of
    "-", "*", "+", one or more [\s], one or more of any character. *)
Definition unordered_pattern : pattern :=
  [Rep isspace 0 None;
   Rep (fun c => Ascii.eqb c "-"%char || Ascii.eqb c "*"%char
                 || Ascii.eqb c "+"%char) 1 (Some 1);
   Rep isspace 1 None; Rep any_char 1 None].

(** The ordered-list pattern: any number of [\s] (group 1), one or more
    [\d], a literal ".", one or more [\s], one or more of any character. *)
Definition ordered_pattern : pattern :=
  [Rep isspace 0 None; Rep is_digit 1 None; lit "."%char;
   Rep isspace 1 None; Rep any_char 1 None].

Definition list_indent_warning (i : nat) : string :=
  "Line " ++ lineno i ++ ": Inconsistent list indentation "
  ++ "(should be multiples of 2 spaces)".

Definition list_formatting_step (self : validator) (item : nat * string)
  : validator :=
  let '(i, line) := item in
  let unordered_match := pmatch unordered_pattern line in
  let ordered_match := pmatch ordered_pattern line in
  let self :=
    match unordered_match with
    | Some caps =>
        (* unordered_match.group(1) *)
        let indent := node_text 1 caps in
        if negb (String.length indent mod 2 =? 0)%nat then
          append_warning (list_indent_warning i) self
        else self
    | None => self
    end in
  match ordered_match with
  | Some caps =>
      (* ordered_match.group(1) *)
      let indent := node_text 1 caps in
      if negb (String.length indent mod 2 =? 0)%nat then
        append_warning (list_indent_warning i) self
      else self
  | None => self
  end.

Definition validate_list_formatting (self : validator) : validator :=
  fold_left list_formatting_step (enumerate (lines self)) self.

Definition validate (fs : filesystem) (self : validator) : bool * validator :=
  let '(ok, self) := read_file fs self in
  if negb ok then (false, self)
  else
    let self := validate_h1_title self in
    let self := validate_table_of_contents self in
    let self := validate_headings_hierarchy self in
    let self := validate_code_blocks self in
    let self := validate_links self in
    let self := validate_empty_headings self in
    let self := validate_trailing_whitespace self in
    let self := validate_consecutive_blank_lines self in
    let self := validate_list_formatting self in
    ((List.length (errors self) =? 0)%nat, self).

(** The string of one newline, and the rule ["=" * 70]. *)
Definition nls : string := String nl "".

Definition report_rule : string := repeat_char "="%char 70.

(** The list [report_lines] that [get_report] builds. *)
Definition get_report_lines (self : validator) : list string :=
  let report_lines := [] in
  let report_lines :=
    list_append report_lines
      (nls ++ "Validation Report: " ++ path_name (file_path self)) in
  let report_lines := list_append report_lines report_rule in
  let report_lines :=
    match errors self, warnings self with
    | [], [] =>
        let report_lines := list_append report_lines "Status: PASSED" in
        list_append report_lines "No issues found."
    | _, _ =>
        let report_lines :=
          match errors self with
          | _ :: _ =>
              fold_left (fun rl error => list_append rl ("  - " ++ error))
                (errors self)
                (list_append report_lines
                   (nls ++ "ERRORS ("
                    ++ str_int (Z.of_nat (List.length (errors self))) ++ "):"))
          | [] => report_lines
          end in
        let report_lines :=
          match warnings self with
          | _ :: _ =>
              fold_left (fun rl warning => list_append rl ("  - " ++ warning))
                (warnings self)
                (list_append report_lines
                   (nls ++ "WARNINGS ("
                    ++ str_int (Z.of_nat (List.length (warnings self))) ++ "):"))
          | [] => report_lines
          end in
        let status :=
          match errors self with
          | _ :: _ => "FAILED"
          | [] => "PASSED (with warnings)"
          end in
        list_append report_lines (nls ++ "Status: " ++ status)
    end in
  list_append report_lines report_rule.

Definition get_report (self : validator) : string :=
  join nls (get_report_lines self).

(** ** The command line

    [print(s)] is modelled by the list of the strings printed so far; what
    the script takes from [pathlib] and [argparse] is the record
    [environment]. *)

Definition stdout : Type := list string.

(** [print(s)] *)
Definition print (s : string) (out : stdout) : stdout := list_append out s.

Definition validate_single_file (fs : filesystem) (file_path : Path)
           (out : stdout) : bool * stdout :=
  let validator := init file_path in
  let '(is_valid, validator) := validate fs validator in
  let out := print (get_report validator) out in
  (is_valid, out).

(** The check mark (U+2713) and the ballot cross (U+2717), as the bytes of
    their UTF-8 encoding. *)
Definition check_mark : string :=
  String "226"%char (String "156"%char (String "147"%char "")).
Definition cross_mark : string :=
  String "226"%char (String "156"%char (String "151"%char "")).

(** What the script asks of its surroundings:
    - [glob_md d] is [list(d.glob("*.md"))];
    - [sorted l] is [sorted(l)] on a list of paths;
    - [path_exists p] is [p.exists()], [path_suffix p] is [p.suffix];
    - [path_of s] is [Path(s)];
    - [cheatsheets] is [Path(__file__).parent.parent / 'cheatsheets'];
    - [help_text] is what [parser.print_help()] prints. *)
Record environment : Type := mkEnvironment {
  glob_md : Path -> list Path;
  sorted : list Path -> list Path;
  path_exists : Path -> bool;
  path_suffix : Path -> string;
  path_of : string -> Path;
  cheatsheets : Path;
  help_text : string
}.

(** The counters and the output of the loop of [validate_all_files]. *)
Record batch_state : Type := mkBatch {
  passed_files : nat;
  failed_files : nat;
  printed : stdout
}.

(** One turn of the loop of [validate_all_files]. *)
Definition all_files_step (fs : filesystem) (st : batch_state) (md_file : Path)
  : batch_state :=
  let validator := init md_file in
  let '(is_valid, validator) := validate fs validator in
  if is_valid then
    mkBatch (passed_files st + 1) (failed_files st)
            (print (check_mark ++ " " ++ path_name md_file ++ ": PASSED")
                   (printed st))
  else
    let out := print (cross_mark ++ " " ++ path_name md_file ++ ": FAILED")
                     (printed st) in
    mkBatch (passed_files st) (failed_files st + 1)
            (print (get_report validator) out).

Definition validate_all_files (fs : filesystem) (env : environment)
           (cheatsheets_dir : Path) (out : stdout)
  : (nat * nat * nat) * stdout :=
  let md_files := glob_md env cheatsheets_dir in
  match md_files with
  | [] =>
      ((0, 0, 0),
       print ("No markdown files found in " ++ path_str cheatsheets_dir) out)
  | _ :: _ =>
      let total_files := List.length md_files in
      let out :=
        print (nls ++ "Validating " ++ str_int (Z.of_nat total_files)
               ++ " markdown files..." ++ nls) out in
      let st :=
        fold_left (all_files_step fs) (sorted env md_files) (mkBatch 0 0 out) in
      let out := print (nls ++ report_rule) (printed st) in
      let out :=
        print ("Summary: " ++ str_int (Z.of_nat (passed_files st)) ++ "/"
               ++ str_int (Z.of_nat total_files) ++ " files passed validation")
              out in
      let out :=
        print ("Failed: " ++ str_int (Z.of_nat (failed_files st))) out in
      let out := print report_rule out in
      ((total_files, passed_files st, failed_files st), out)
  end.

(** The result of [parser.parse_args()]: the optional positional [file] and
    the flag [--all]. *)
Record arguments : Type := mkArguments {
  args_file : option string;
  args_all : bool
}.

(** [main()] from the parsed arguments on: the status passed to [sys.exit]
    and what was printed.  (The exits of [parse_args] itself, on [--help] or
    on a malformed command line, come before.) *)
Definition main (fs : filesystem) (env : environment) (args : arguments)
           (out : stdout) : Z * stdout :=
  if args_all args then
    let cheatsheets_dir := cheatsheets env in
    if negb (path_exists env cheatsheets_dir) then
      (1%Z,
       print ("Error: Cheatsheets directory not found: "
              ++ path_str cheatsheets_dir) out)
    else
      let '((total, passed, failed), out) :=
        validate_all_files fs env cheatsheets_dir out in
      ((if (failed =? 0)%nat then 0 else 1)%Z, out)
  else
    match args_file args with
    | Some file =>
        if truthy file then
          let file_path := path_of env file in
          if negb (path_exists env file_path) then
            (1%Z, print ("Error: File not found: " ++ path_str file_path) out)
          else if negb (String.eqb (path_suffix env file_path) ".md") then
            (1%Z,
             print ("Error: File is not a markdown file: "
                    ++ path_str file_path) out)
          else
            let '(is_valid, out) := validate_single_file fs file_path out in
            ((if is_valid then 0 else 1)%Z, out)
        else (1%Z, print (help_text env) out)
    | None => (1%Z, print (help_text env) out)
    end.

(* ================================================================== *)
(** ** Vocabulary of the properties *)

(** The object after a successful [read_file] of a document with the
    given text. *)
Definition doc_path : Path := mkPath "doc.md" "doc.md".

Definition loaded (text : string) : validator :=
  snd (read_file (fun _ => Returns text) (init doc_path)).

(** What a check appends to the error list, and to the warning list. *)
Definition new_errors (check : validator -> validator) (self : validator)
  : list string :=
  skipn (List.length (errors self)) (errors (check self)).

Definition new_warnings (check : validator -> validator) (self : validator)
  : list string :=
  skipn (List.length (warnings self)) (warnings (check self)).

(** A finding of the list is reported at the line of index [i]. *)
Definition finding_at (i : nat) (findings : list string) : Prop :=
  exists text, In ("Line " ++ lineno i ++ ": " ++ text) findings.

(** [not line.strip()] *)
Definition is_blank (line : string) : bool := negb (truthy (strip line)).

(** The line of index [i] is the first one that is not blank. *)
Definition first_nonblank_at (ls : list string) (i : nat) (line : string) : Prop :=
  nth_error ls i = Some line /\ is_blank line = false /\
  forall j l, j < i -> nth_error ls j = Some l -> is_blank l = true.

(** A line starting with three backticks. *)
Definition is_fence (line : string) : bool := startswith "```" line.

Definition count_fences (ls : list string) : nat :=
  List.length (filter is_fence ls).

(** The line of index [i] is a fence, an even number of fences precede it
    (it opens a block) and none follows it (the block stays open). *)
Definition opens_unclosed_block (ls : list string) (i : nat) : Prop :=
  (exists line, nth_error ls i = Some line /\ is_fence line = true) /\
  Nat.even (count_fences (firstn i ls)) = true /\
  count_fences (skipn (S i) ls) = 0.

(** The lines of index [i], [i-1] and [i-2] are all blank: line [i] is the
    third or a later one of a run of blank lines. *)
Definition blank_at (ls : list string) (i : nat) : bool :=
  match nth_error ls i with
  | Some l => is_blank l
  | None => false
  end.

Definition third_blank (ls : list string) (i : nat) : bool :=
  (2 <=? i)%nat && blank_at ls i && blank_at ls (i - 1) && blank_at ls (i - 2).

Definition blank_lines_warning (i : nat) : string :=
  "Line " ++ lineno i ++ ": More than 2 consecutive blank lines".

(** What the counter [blank_count] records before the line of index [k]
    is read: whether the line before is blank, and whether the two lines
    before are. *)
Definition blank_count_ok (ls : list string) (k n : nat) : Prop :=
  (1 <=? n)%nat = (1 <=? k)%nat && blank_at ls (k - 1)
  /\ (2 <=? n)%nat = (2 <=? k)%nat && blank_at ls (k - 1) && blank_at ls (k - 2).

(** Two objects that differ at most in their warnings. *)
Definition same_but_warnings (a b : validator) : Prop :=
  file_path a = file_path b /\ content a = content b
  /\ lines a = lines b /\ errors a = errors b.

(** The lines of the report other than the findings themselves. *)
Definition report_header (self : validator) : string :=
  nls ++ "Validation Report: " ++ path_name (file_path self).

Definition errors_header (n : nat) : string :=
  nls ++ "ERRORS (" ++ str_int (Z.of_nat n) ++ "):".

Definition warnings_header (n : nat) : string :=
  nls ++ "WARNINGS (" ++ str_int (Z.of_nat n) ++ "):".

Definition bullet (finding : string) : string := "  - " ++ finding.

(** The errors the link check appends for one match on line [i]. *)
Definition links_emitted (i : nat) (caps : list string) : list string :=
  List.app
    (if negb (truthy (node_text 2 caps))
     then ["Line " ++ lineno i ++ ": Empty link text"] else [])
    (if negb (truthy (node_text 5 caps))
     then ["Line " ++ lineno i ++ ": Empty link URL"] else []).

(** The error the empty-headings check appends for one line, and the
    warning the trailing-whitespace check appends for one line. *)
Definition empty_headings_emitted (item : nat * string) : list string :=
  match pmatch empty_heading_pattern (snd item) with
  | Some _ => ["Line " ++ lineno (fst item) ++ ": Empty heading found"]
  | None => []
  end.

Definition trailing_whitespace_emitted (item : nat * string) : list string :=
  if negb (String.eqb (snd item) (rstrip (snd item)))
  then ["Line " ++ lineno (fst item) ++ ": Trailing whitespace detected"]
  else [].

(** A line made of hash characters and whitespace only. *)
Definition hashes_and_spaces (line : string) : bool :=
  all_chars (fun c => is_hash c || isspace c) line.

(* ================================================================== *)
(** ** Vocabulary of the further properties *)

(** The number of newline characters of a text. *)
Fixpoint count_newlines (s : string) : nat :=
  match s with
  | EmptyString => 0
  | String c s' =>
      if Ascii.eqb c nl then S (count_newlines s') else count_newlines s'
  end.

(** A string without newline character. *)
Definition no_newline (s : string) : bool := all_chars any_char s.

(** The object with findings added at the end of its two lists. *)
Definition add_findings (E W : list string) (x : validator) : validator :=
  mkValidator (file_path x) (content x) (lines x)
              (List.app (errors x) E) (List.app (warnings x) W).

(** The nine checks, in the order [validate] runs them. *)
Definition checks : list (validator -> validator) :=
  [validate_h1_title; validate_table_of_contents; validate_headings_hierarchy;
   validate_code_blocks; validate_links; validate_empty_headings;
   validate_trailing_whitespace; validate_consecutive_blank_lines;
   validate_list_formatting].

(** Kinds of lists of findings: any list, and the empty list only. *)
Definition any_findings (l : list string) : Prop := True.
Definition no_findings (l : list string) : Prop := l = [].

(** A check that only appends findings, of the kinds [PE] (errors) and
    [PW] (warnings), and whose findings depend on the lines alone. *)
Definition line_check (PE PW : list string -> Prop)
           (check : validator -> validator) : Prop :=
  forall ls : list string,
  exists E W,
    PE E /\ PW W
    /\ forall x, lines x = ls -> check x = add_findings E W x.

(** The text in lower case, and [line] starting with the text [t], letter
    case apart. *)
Fixpoint lower_string (s : string) : string :=
  match s with
  | EmptyString => EmptyString
  | String c s' => String (lower c) (lower_string s')
  end.

Definition startswith_nocase (t line : string) : bool :=
  startswith (lower_string t) (lower_string line).

(** The last character of the string is a whitespace character. *)
Fixpoint ends_with_space (s : string) : bool :=
  match s with
  | EmptyString => false
  | String c EmptyString => isspace c
  | String _ s' => ends_with_space s'
  end.

(** The shape of an empty heading: one to six hashes, then whitespace
    only up to the end of the line. *)
Definition empty_heading_line (line : string) : Prop :=
  1 <= span is_hash line <= 6
  /\ all_chars isspace (drop (span is_hash line) line) = true.

(** The level of a line that the hierarchy check takes for a heading. *)
Definition heading_level (line : string) : option nat :=
  match pmatch heading_pattern line with
  | Some caps => Some (String.length (node_text 1 caps))
  | None => None
  end.

(** The shape of such a heading: one to six hashes, a whitespace
    character, and one character more at least. *)
Definition heading_line (line : string) : Prop :=
  1 <= span is_hash line <= 6
  /\ exists a b rest,
       drop (span is_hash line) line = String a (String b rest)
       /\ isspace a = true.

(** The level of the nearest heading above the line of index [i], 0 when
    there is none. *)
Definition previous_heading_level (ls : list string) (i : nat) : nat :=
  match find (fun l => match heading_level l with
                       | Some _ => true
                       | None => false
                       end) (rev (firstn i ls)) with
  | Some l => match heading_level l with
              | Some k => k
              | None => 0
              end
  | None => 0
  end.

(** The warning of the hierarchy check for the line of index [i], if it
    has one. *)
Definition hierarchy_warning (ls : list string) (i : nat) : list string :=
  match nth_error ls i with
  | Some line =>
      match heading_level line with
      | Some c =>
          let p := previous_heading_level ls i in
          if (p + 1 <? c)%nat && (0 <? p)%nat then
            ["Line " ++ lineno i ++ ": Heading level skipped (H"
             ++ str_int (Z.of_nat p) ++ " -> H" ++ str_int (Z.of_nat c) ++ ")"]
          else []
      | None => []
      end
  | None => []
  end.

(** The line of index [i] opens a code block (a fence with an even number
    of fences before it) and is, trimmed, the three backticks alone. *)
Definition bare_opening_fence (ls : list string) (i : nat) : bool :=
  match nth_error ls i with
  | Some l =>
      is_fence l && Nat.even (count_fences (firstn i ls))
      && String.eqb (strip l) "```"
  | None => false
  end.

Definition code_block_warning (i : nat) : string :=
  "Line " ++ lineno i ++ ": Code block without language identifier".

(** A line that matches the unordered or the ordered list pattern. *)
Definition is_list_item (line : string) : bool :=
  match pmatch unordered_pattern line, pmatch ordered_pattern line with
  | None, None => false
  | _, _ => true
  end.

(** The warning of the list-formatting check for one line: the line is a
    list item and starts with an odd number of whitespace characters. *)
Definition list_formatting_emitted (item : nat * string) : list string :=
  if is_list_item (snd item)
     && negb (span isspace (snd item) mod 2 =? 0)%nat
  then [list_indent_warning (fst item)]
  else [].

(** The title the title check accepts: no line but blank ones, or a first
    non-blank line that starts with a hash and a space and is not, trimmed,
    the single hash. *)
Definition title_ok (ls : list string) : Prop :=
  (forall l, In l ls -> is_blank l = true)
  \/ exists i line,
       first_nonblank_at ls i line
       /\ startswith "# " line = true /\ strip line <> "#".

(** No link that the link check finds on a line has an empty URL. *)
Definition no_empty_url (ls : list string) : Prop :=
  forall line caps,
    In line ls -> In caps (finditer link_pattern line) ->
    node_text 5 caps <> "".

(** No line has the shape of an empty heading. *)
Definition no_empty_heading (ls : list string) : Prop :=
  forall line, In line ls -> ~ empty_heading_line line.

(** The verdict of a new validator on a path. *)
Definition valid (fs : filesystem) (p : Path) : bool :=
  fst (validate fs (init p)).

(** A path whose file reads and whose text meets the four conditions of a
    pass. *)
Definition passes (fs : filesystem) (p : Path) : Prop :=
  exists text,
    fs p = Returns text
    /\ title_ok (split_lines text)
    /\ Nat.even (count_fences (split_lines text)) = true
    /\ no_empty_url (split_lines text)
    /\ no_empty_heading (split_lines text).

(** How many paths of a list get a given verdict. *)
Definition count_verdict (fs : filesystem) (b : bool) (l : list Path) : nat :=
  List.length (filter (fun p => Bool.eqb (valid fs p) b) l).

(** What the batch run prints for one file: a line with a mark, and the
    report when the file fails. *)
Definition file_output (fs : filesystem) (p : Path) : list string :=
  if valid fs p then [check_mark ++ " " ++ path_name p ++ ": PASSED"]
  else [cross_mark ++ " " ++ path_name p ++ ": FAILED";
        get_report (snd (validate fs (init p)))].

(** What the batch run prints after the files. *)
Definition batch_summary (total passed failed : nat) : list string :=
  [nls ++ report_rule;
   "Summary: " ++ str_int (Z.of_nat passed) ++ "/" ++ str_int (Z.of_nat total)
   ++ " files passed validation";
   "Failed: " ++ str_int (Z.of_nat failed);
   report_rule].

(** The strings a command appends to the output. *)
Definition new_output {A : Type} (run : stdout -> A * stdout) (out : stdout)
  : list string :=
  skipn (List.length out) (snd (run out)).

(** A file argument that [main] takes up: given, not empty, of an existing
    path with the suffix [.md]. *)
Definition file_argument (env : environment) (args : arguments) (p : Path)
  : Prop :=
  exists file,
    args_file args = Some file /\ file <> ""
    /\ p = path_of env file
    /\ path_exists env p = true
    /\ path_suffix env p = ".md".

(** An example of surroundings: a directory of two files, listed out of
    order, of which the first reads and the second does not; paths sorted by
    insertion on their strings. *)
Fixpoint insert_path (p : Path) (l : list Path) : list Path :=
  match l with
  | [] => [p]
  | q :: l' =>
      if String.leb (path_str p) (path_str q) then p :: q :: l'
      else q :: insert_path p l'
  end.

Definition sort_paths (l : list Path) : list Path :=
  fold_right insert_path [] l.

(** The name of a relative path given as a string: what follows its last
    slash.  [cur] is the component read so far. *)
Fixpoint name_from (s cur : string) : string :=
  match s with
  | EmptyString => cur
  | String c s' =>
      if Ascii.eqb c "/"%char then name_from s' ""
      else name_from s' (cur ++ String c "")
  end.

Definition example_dir : Path := mkPath "cheatsheets" "cheatsheets".
Definition example_a : Path := mkPath "cheatsheets/a.md" "a.md".
Definition example_b : Path := mkPath "cheatsheets/b.md" "b.md".

Definition example_fs : filesystem :=
  fun p =>
    if String.eqb (path_str p) "cheatsheets/a.md" then Returns "# A"
    else Raises (FileNotFoundError "No such file or directory").

Definition example_env : environment :=
  mkEnvironment (fun _ => [example_b; example_a]) sort_paths
                (fun _ => true) (fun _ => ".md")
                (fun s => mkPath s (name_from s ""))
                example_dir "usage: validate_markdown.py [-h] [--all] [file]".

(** The text of a sequence of lines, each followed by a newline. *)
Fixpoint lines_text (l : list string) : string :=
  match l with
  | [] => ""
  | x :: t => x ++ nls ++ lines_text t
  end.

(** The start of the text of every report: the header line and the rule. *)
Definition report_top (self : validator) : string :=
  report_header self ++ nls ++ report_rule ++ nls.

(** The block of the errors and the block of the warnings in the text of a
    report: nothing for an empty list, else the count line and a bullet
    line for each finding. *)
Definition errors_block (es : list string) : string :=
  match es with
  | [] => ""
  | _ :: _ => errors_header (List.length es) ++ nls ++ lines_text (map bullet es)
  end.

Definition warnings_block (ws : list string) : string :=
  match ws with
  | [] => ""
  | _ :: _ => warnings_header (List.length ws) ++ nls ++ lines_text (map bullet ws)
  end.

(** [s.endswith(suffix)] *)
Definition endswith (suffix s : string) : Prop :=
  exists pre, s = pre ++ suffix.

(* ================================================================== *)
(** * Properties *)

(** ** Lists and strings *)

Lemma skipn_length_app {A : Type} (l x : list A) :
  skipn (List.length l) (l ++ x)%list = x.
Proof.
  induction l as [| a l IH]; simpl; auto.
Qed.

Lemma string_length_append (a b : string) :
  String.length (a ++ b) = String.length a + String.length b.
Proof.
  induction a as [| c a IH]; simpl; auto.
Qed.

Lemma string_append_assoc (a b c : string) : (a ++ b) ++ c = a ++ (b ++ c).
Proof.
  induction a as [| x a IH]; simpl; [reflexivity | now rewrite IH].
Qed.

Lemma string_append_inv_head (a b c : string) : a ++ b = a ++ c -> b = c.
Proof.
  induction a as [| x a IH]; simpl; intros H; [exact H |].
  injection H as H. auto.
Qed.

Lemma take_length (k : nat) (s : string) :
  k <= String.length s -> String.length (take k s) = k.
Proof.
  revert s. induction k as [| k IH]; intros [| c s] H; simpl in *; auto; try lia.
  rewrite IH; lia.
Qed.

Lemma drop_length (k : nat) (s : string) :
  String.length (drop k s) = String.length s - k.
Proof.
  revert s. induction k as [| k IH]; intros [| c s]; simpl; auto.
Qed.

Lemma take_drop (k : nat) (s : string) : take k s ++ drop k s = s.
Proof.
  revert s. induction k as [| k IH]; intros [| c s]; simpl; auto.
  now rewrite IH.
Qed.

Lemma truthy_length (s : string) : truthy s = true <-> 1 <= String.length s.
Proof.
  destruct s; simpl; split; intros; try lia; auto; discriminate.
Qed.

(** ** Line numbers in messages *)

Lemma string_of_uint_digits (d : Decimal.uint) :
  all_chars is_digit (NilEmpty.string_of_uint d) = true.
Proof.
  induction d; simpl; auto.
Qed.

Lemma lineno_digits (i : nat) : all_chars is_digit (lineno i) = true.
Proof.
  unfold lineno, str_int.
  destruct (Z.of_nat i + 1)%Z eqn:E; try lia; simpl;
    apply string_of_uint_digits.
Qed.

Lemma lineno_inj (i j : nat) : lineno i = lineno j -> i = j.
Proof.
  unfold lineno, str_int. intros H.
  assert (Hd : Z.to_int (Z.of_nat i + 1) = Z.to_int (Z.of_nat j + 1)).
  { pose proof (NilEmpty.isi (Z.to_int (Z.of_nat i + 1))) as H1.
    pose proof (NilEmpty.isi (Z.to_int (Z.of_nat j + 1))) as H2.
    rewrite H in H1. rewrite H1 in H2. now injection H2. }
  apply DecimalZ.to_int_inj in Hd. lia.
Qed.

Lemma digits_then_colon (a b r1 r2 : string) :
  all_chars is_digit a = true -> all_chars is_digit b = true ->
  a ++ String ":" r1 = b ++ String ":" r2 -> a = b.
Proof.
  revert b. induction a as [| x a IH]; intros [| y b] Ha Hb H; simpl in *.
  - reflexivity.
  - injection H as Hc _. subst y. discriminate.
  - injection H as Hc _. subst x. discriminate.
  - injection H as Hc H. subst y.
    apply andb_prop in Ha as [_ Ha]. apply andb_prop in Hb as [_ Hb].
    f_equal. eauto.
Qed.

(** The line number of a message can be read back from it. *)
Lemma line_message_inj (i j : nat) (t1 t2 : string) :
  "Line " ++ lineno i ++ ": " ++ t1 = "Line " ++ lineno j ++ ": " ++ t2 ->
  i = j /\ t1 = t2.
Proof.
  intros H. apply string_append_inv_head in H.
  assert (E : lineno i = lineno j).
  { eapply digits_then_colon; eauto using lineno_digits. }
  split; [now apply lineno_inj |].
  rewrite E in H. apply string_append_inv_head in H. now injection H.
Qed.

(** ** The findings a loop appends *)

Lemma enumerate_from_In {A : Type} (l : list A) (k i : nat) (x : A) :
  In (i, x) (enumerate_from k l) <-> k <= i /\ nth_error l (i - k) = Some x.
Proof.
  revert k. induction l as [| a l IH]; intros k; simpl.
  - split; [tauto | intros [_ H]; destruct (i - k); discriminate].
  - rewrite IH. split.
    + intros [H | [H1 H2]].
      * injection H as -> ->. rewrite Nat.sub_diag. auto.
      * split; [lia |]. replace (i - k) with (S (i - S k)) by lia. exact H2.
    + intros [H1 H2]. destruct (i - k) as [| n] eqn:E.
      * left. injection H2 as ->. f_equal. lia.
      * right. split; [lia |]. replace (i - S k) with n by lia. exact H2.
Qed.

Lemma enumerate_In {A : Type} (l : list A) (i : nat) (x : A) :
  In (i, x) (enumerate l) <-> nth_error l i = Some x.
Proof.
  unfold enumerate. rewrite enumerate_from_In, Nat.sub_0_r.
  split; [tauto | split; [lia | assumption]].
Qed.

Section Appending.

Variable Item : Type.
Variable step : validator -> Item -> validator.
Variables emit_e emit_w : Item -> list string.
Hypothesis step_lines : forall self item, lines (step self item) = lines self.
Hypothesis step_errors :
  forall self item, errors (step self item) = (errors self ++ emit_e item)%list.
Hypothesis step_warnings :
  forall self item, warnings (step self item) = (warnings self ++ emit_w item)%list.

Lemma fold_lines items self : lines (fold_left step items self) = lines self.
Proof.
  revert self. induction items as [| it items IH]; intros self; simpl; auto.
  now rewrite IH, step_lines.
Qed.

Lemma fold_errors items self :
  errors (fold_left step items self)
  = (errors self ++ flat_map emit_e items)%list.
Proof.
  revert self. induction items as [| it items IH]; intros self; simpl.
  - now rewrite List.app_nil_r.
  - now rewrite IH, step_errors, <- List.app_assoc.
Qed.

Lemma fold_warnings items self :
  warnings (fold_left step items self)
  = (warnings self ++ flat_map emit_w items)%list.
Proof.
  revert self. induction items as [| it items IH]; intros self; simpl.
  - now rewrite List.app_nil_r.
  - now rewrite IH, step_warnings, <- List.app_assoc.
Qed.

End Appending.

(** ** The title check *)

Lemma h1_title_check_errors (i : nat) (line : string) (self : validator) :
  errors (h1_title_check i line self)
  = List.app (errors self)
      (if negb (startswith "# " line) then
         ["Line " ++ lineno i ++ ": File should start with H1 title (# Title)"]
       else if String.eqb (strip line) "#" then
         ["Line " ++ lineno i ++ ": H1 title is empty"]
       else []).
Proof.
  unfold h1_title_check.
  destruct (negb (startswith "# " line)); [reflexivity |].
  destruct (String.eqb (strip line) "#"); [reflexivity |].
  now rewrite List.app_nil_r.
Qed.

Lemma h1_title_check_warnings (i : nat) (line : string) (self : validator) :
  warnings (h1_title_check i line self) = warnings self.
Proof.
  unfold h1_title_check.
  destruct (negb (startswith "# " line)); [reflexivity |].
  destruct (String.eqb (strip line) "#"); reflexivity.
Qed.

(** The loop either finds only blank lines, or examines the first
    non-blank one. *)
Lemma h1_title_loop_cases (ls : list string) (k : nat) (self : validator) :
  ((forall l, In l ls -> is_blank l = true)
   /\ h1_title_loop (enumerate_from k ls) self = self)
  \/ exists i line,
       first_nonblank_at ls i line
       /\ h1_title_loop (enumerate_from k ls) self = h1_title_check (k + i) line self.
Proof.
  revert k. induction ls as [| l ls IH]; intros k; simpl.
  - left. split; [intros l [] | reflexivity].
  - destruct (truthy (strip l)) eqn:E.
    + right. exists 0, l. rewrite Nat.add_0_r. split; [| reflexivity].
      split; [reflexivity |]. split; [unfold is_blank; now rewrite E |].
      intros j ? Hj. lia.
    + destruct (IH (S k)) as [[Hall H] | (i & line & (Hn & Hb & Hlt) & H)].
      * left. split; [| exact H].
        intros x [<- | Hx]; [unfold is_blank; now rewrite E | auto].
      * right. exists (S i), line. split.
        -- split; [exact Hn |]. split; [exact Hb |].
           intros [| j] x Hj Hx; simpl in Hx.
           ++ injection Hx as <-. unfold is_blank. now rewrite E.
           ++ apply (Hlt j); [lia | exact Hx].
        -- rewrite H. f_equal. lia.
Qed.

Lemma first_nonblank_unique (ls : list string) (i j : nat) (a b : string) :
  first_nonblank_at ls i a -> first_nonblank_at ls j b -> i = j /\ a = b.
Proof.
  intros (Ha & Hna & Hla) (Hb & Hnb & Hlb).
  assert (i = j).
  { destruct (Nat.lt_trichotomy i j) as [H | [H | H]]; [| exact H |].
    - rewrite (Hlb i a H Ha) in Hna. discriminate.
    - rewrite (Hla j b H Hb) in Hnb. discriminate. }
  subst j. split; [reflexivity | congruence].
Qed.

Lemma h1_title_at_first_nonblank (self : validator) (i : nat) (line : string) :
  first_nonblank_at (lines self) i line ->
  validate_h1_title self = h1_title_check i line self.
Proof.
  intros H. unfold validate_h1_title, enumerate.
  destruct (h1_title_loop_cases (lines self) 0 self)
    as [[Hall _] | (j & l & Hf & E)].
  - destruct H as (Hn & Hb & _). apply nth_error_In in Hn.
    rewrite (Hall _ Hn) in Hb. discriminate.
  - destruct (first_nonblank_unique _ _ _ _ _ H Hf) as [-> ->].
    exact E.
Qed.

Lemma new_errors_frame (check : validator -> validator) (self : validator)
      (added : list string) :
  errors (check self) = List.app (errors self) added ->
  new_errors check self = added.
Proof.
  unfold new_errors. intros ->. apply skipn_length_app.
Qed.

Lemma new_warnings_frame (check : validator -> validator) (self : validator)
      (added : list string) :
  warnings (check self) = List.app (warnings self) added ->
  new_warnings check self = added.
Proof.
  unfold new_warnings. intros ->. apply skipn_length_app.
Qed.

(** C2, as stated, fails: the document whose only text is a bare [#] has
    that line as its first non-blank line, trimmed it is exactly [#], and
    the title check reports "File should start with H1 title", not
    "H1 title is empty". *)
Lemma C2_bare_hash_counterexample :
  ~ (forall (self : validator) (i : nat) (line : string),
        first_nonblank_at (lines self) i line ->
        strip line = "#" ->
        new_errors validate_h1_title self
        = ["Line " ++ lineno i ++ ": H1 title is empty"]).
Proof.
  intros H.
  specialize (H (loaded ("#" ++ nls)) 0 "#").
  assert (F : first_nonblank_at (lines (loaded ("#" ++ nls))) 0 "#").
  { split; [reflexivity |]. split; [reflexivity |]. intros j l Hj. lia. }
  specialize (H F eq_refl). vm_compute in H. discriminate H.
Qed.

(** C2, amended: when the first non-blank line, trimmed, is exactly [#],
    the title check appends exactly one error at that line and no
    warning; the error is "H1 title is empty" when the line starts with
    a hash and a space, and "File should start with H1 title" otherwise. *)
Theorem C2_empty_title (self : validator) (i : nat) (line : string) :
  first_nonblank_at (lines self) i line ->
  strip line = "#" ->
  new_errors validate_h1_title self
  = [if startswith "# " line
     then "Line " ++ lineno i ++ ": H1 title is empty"
     else "Line " ++ lineno i ++ ": File should start with H1 title (# Title)"]
  /\ new_warnings validate_h1_title self = [].
Proof.
  intros Hf Hs.
  rewrite (new_errors_frame _ _ _
             (eq_trans (f_equal errors (h1_title_at_first_nonblank _ _ _ Hf))
                       (h1_title_check_errors i line self))).
  split.
  - rewrite Hs. destruct (startswith "# " line); reflexivity.
  - apply new_warnings_frame.
    rewrite (h1_title_at_first_nonblank _ _ _ Hf), h1_title_check_warnings.
    now rewrite List.app_nil_r.
Qed.

Lemma C2_empty_title_witness :
  first_nonblank_at (lines (loaded (nls ++ "#  "))) 1 "#  "
  /\ strip "#  " = "#"
  /\ new_errors validate_h1_title (loaded (nls ++ "#  "))
     = ["Line 2: H1 title is empty"].
Proof.
  assert (F : first_nonblank_at (lines (loaded (nls ++ "#  "))) 1 "#  ").
  { split; [reflexivity |]. split; [reflexivity |].
    intros [| j] l Hj Hl; [now injection Hl as <- | lia]. }
  split; [exact F |]. split; [reflexivity |].
  exact (proj1 (C2_empty_title (loaded (nls ++ "#  ")) 1 "#  " F eq_refl)).
Defined.

(** ** The matcher *)

Lemma backtrack_some {A : Type} (try : nat -> option A) (lo n : nat) (r : A) :
  backtrack try lo n = Some r ->
  exists k, lo <= k <= n /\ try k = Some r.
Proof.
  induction n as [| n IH]; simpl.
  - destruct (0 <? lo)%nat eqn:E; [discriminate |].
    apply Nat.ltb_ge in E. destruct (try 0) eqn:T; [| discriminate].
    intros [= ->]. exists 0. split; [lia | exact T].
  - destruct (S n <? lo)%nat eqn:E; [discriminate |].
    apply Nat.ltb_ge in E. destruct (try (S n)) eqn:T.
    + intros [= ->]. exists (S n). split; [lia | exact T].
    + intros H. destruct (IH H) as (k & Hk & Hr).
      exists k. split; [lia | exact Hr].
Qed.

Lemma backtrack_none {A : Type} (try : nat -> option A) (lo n : nat) :
  backtrack try lo n = None ->
  forall k, lo <= k <= n -> try k = None.
Proof.
  induction n as [| n IH]; simpl.
  - destruct (0 <? lo)%nat eqn:E.
    + apply Nat.ltb_lt in E. intros _ k Hk. lia.
    + destruct (try 0) eqn:T; [discriminate |].
      intros _ k Hk. now replace k with 0 by lia.
  - destruct (S n <? lo)%nat eqn:E.
    + apply Nat.ltb_lt in E. intros _ k Hk. lia.
    + destruct (try (S n)) eqn:T; [discriminate |].
      intros H k Hk. destruct (Nat.eq_dec k (S n)) as [-> | Hne]; [exact T |].
      apply IH; [exact H | lia].
Qed.

Lemma re_match_rep (cls : ascii -> bool) (lo : nat) (hi : option nat)
      (p : pattern) (s rest : string) (caps : list string) :
  re_match (Rep cls lo hi :: p) s = Some (caps, rest) ->
  exists k caps',
    lo <= k <= rep_max cls hi s
    /\ re_match p (drop k s) = Some (caps', rest)
    /\ caps = take k s :: caps'.
Proof.
  simpl. intros H. apply backtrack_some in H as (k & Hk & H).
  destruct (re_match p (drop k s)) as [[caps' rest'] |] eqn:E; [| discriminate].
  injection H as <- <-. now exists k, caps'.
Qed.

Lemma re_match_rep_none (cls : ascii -> bool) (lo : nat) (hi : option nat)
      (p : pattern) (s : string) :
  re_match (Rep cls lo hi :: p) s = None ->
  forall k, lo <= k <= rep_max cls hi s -> re_match p (drop k s) = None.
Proof.
  simpl. intros H k Hk. pose proof (backtrack_none _ _ _ H k Hk) as T.
  simpl in T. destruct (re_match p (drop k s)) as [[? ?] |];
    [discriminate | reflexivity].
Qed.

Lemma re_match_eos (p : pattern) (s rest : string) (caps : list string) :
  re_match (Eos :: p) s = Some (caps, rest) ->
  at_end s = true
  /\ exists caps', re_match p s = Some (caps', rest) /\ caps = EmptyString :: caps'.
Proof.
  simpl. destruct (at_end s); [| discriminate].
  destruct (re_match p s) as [[caps' rest'] |] eqn:E; [| discriminate].
  intros [= <- <-]. split; [reflexivity | now exists caps'].
Qed.

Lemma span_le_length (cls : ascii -> bool) (s : string) :
  span cls s <= String.length s.
Proof.
  induction s as [| c s IH]; simpl; [lia |]. destruct (cls c); lia.
Qed.

Lemma rep_max_le_span (cls : ascii -> bool) (hi : option nat) (s : string) :
  rep_max cls hi s <= span cls s.
Proof.
  destruct hi; simpl; lia.
Qed.

Lemma take_span (cls : ascii -> bool) (k : nat) (s : string) :
  k <= span cls s -> all_chars cls (take k s) = true.
Proof.
  revert s. induction k as [| k IH]; intros [| c s] H; simpl in *;
    try reflexivity; try lia.
  destruct (cls c) eqn:E; [| lia]. simpl. apply IH. lia.
Qed.

Lemma drop_below_span (cls : ascii -> bool) (k : nat) (s : string) :
  k < span cls s -> exists c s', drop k s = String c s' /\ cls c = true.
Proof.
  revert s. induction k as [| k IH]; intros [| c s] H; simpl in *; try lia.
  - destruct (cls c) eqn:E; [| lia]. now exists c, s.
  - destruct (cls c) eqn:E; [| lia]. apply IH. lia.
Qed.

Lemma all_chars_append (p : ascii -> bool) (a b : string) :
  all_chars p (a ++ b) = all_chars p a && all_chars p b.
Proof.
  induction a as [| c a IH]; simpl; [reflexivity |].
  now rewrite IH, andb_assoc.
Qed.

Lemma all_chars_weaken (p q : ascii -> bool) (s : string) :
  (forall c, p c = true -> q c = true) ->
  all_chars p s = true -> all_chars q s = true.
Proof.
  intros Hpq. induction s as [| c s IH]; simpl; [reflexivity |].
  intros H. apply andb_prop in H as [H1 H2]. rewrite (Hpq _ H1). auto.
Qed.

Lemma at_end_spaces (s : string) : at_end s = true -> all_chars isspace s = true.
Proof.
  destruct s as [| c [| d s]]; simpl; try reflexivity; try discriminate.
  intros H. apply Ascii.eqb_eq in H. now subst c.
Qed.

Lemma is_hash_not_space (c : ascii) : is_hash c = true -> isspace c = false.
Proof.
  unfold is_hash. intros H. apply Ascii.eqb_eq in H. now subst c.
Qed.

(** After fewer hashes than the line starts with, no whitespace follows. *)
Lemma no_space_inside_hashes (k : nat) (s : string) :
  k < span is_hash s -> span isspace (drop k s) = 0.
Proof.
  intros H. destruct (drop_below_span _ _ _ H) as (c & s' & -> & Hc).
  simpl. now rewrite (is_hash_not_space _ Hc).
Qed.

(** What a match of the empty-heading pattern says of the line: group 1
    is its whole run of hashes, one to six of them, and only whitespace
    follows. *)
Lemma empty_heading_shape (line : string) (caps : list string) :
  pmatch empty_heading_pattern line = Some caps ->
  let k := span is_hash line in
  1 <= k <= 6
  /\ node_text 1 caps = take k line
  /\ all_chars isspace (drop k line) = true.
Proof.
  unfold pmatch, empty_heading_pattern.
  destruct (re_match _ line) as [[caps0 rest] |] eqn:M; [| discriminate].
  intros [= <-].
  apply re_match_rep in M as (k & c1 & Hk & M & ->).
  apply re_match_rep in M as (j & c2 & Hj & M & ->).
  apply re_match_eos in M as (He & c3 & M & ->).
  unfold rep_max in Hk, Hj.
  assert (Ek : k = span is_hash line).
  { destruct (Nat.eq_dec k (span is_hash line)) as [E | N]; [exact E |].
    exfalso. assert (L : k < span is_hash line) by lia.
    rewrite (no_space_inside_hashes _ _ L) in Hj.
    assert (j = 0) by lia. subst j.
    destruct (drop_below_span _ _ _ L) as (c & s' & E & Hc).
    simpl in He. rewrite E in He.
    apply Ascii.eqb_eq in Hc. subst c. destruct s'; discriminate. }
  subst k. cbv zeta. split; [lia |]. split; [reflexivity |].
  rewrite <- (take_drop j (drop (span is_hash line) line)), all_chars_append.
  rewrite (take_span _ _ _ (proj2 Hj)). simpl. now apply at_end_spaces.
Qed.

Lemma empty_heading_hashes_and_spaces (line : string) (caps : list string) :
  pmatch empty_heading_pattern line = Some caps ->
  hashes_and_spaces line = true.
Proof.
  intros H. destruct (empty_heading_shape _ _ H) as (Hk & _ & Hs).
  unfold hashes_and_spaces.
  rewrite <- (take_drop (span is_hash line) line), all_chars_append.
  apply andb_true_intro. split.
  - apply all_chars_weaken with (p := is_hash);
      [intros c Hc; now rewrite Hc | now apply take_span].
  - apply all_chars_weaken with (p := isspace); [| exact Hs].
    intros c Hc. rewrite Hc. apply orb_true_r.
Qed.

(** C10, as stated, fails: a hash followed by two spaces matches the
    empty-heading pattern and the heading pattern of the hierarchy check
    (whose last group then holds the second space), and processing it
    sets [previous_level]. *)
Lemma C10_two_spaces_counterexample :
  ~ (forall line : string,
        pmatch empty_heading_pattern line <> None ->
        pmatch heading_pattern line = None
        /\ forall (previous_level i : nat) (self : validator),
             hierarchy_step (previous_level, self) (i, line)
             = (previous_level, self)).
Proof.
  intros H. destruct (H "#  ") as [H1 _]; [discriminate |].
  vm_compute in H1. discriminate H1.
Qed.

(** C10, amended: a line that matches the empty-heading pattern and is at
    most one character longer than its hashes (group 1) does not match the
    heading pattern of the hierarchy check, and processing it changes
    neither [previous_level] nor the findings. *)
Theorem C10_short_empty_heading (line : string) (caps : list string) :
  pmatch empty_heading_pattern line = Some caps ->
  String.length line <= String.length (node_text 1 caps) + 1 ->
  pmatch heading_pattern line = None
  /\ forall (previous_level i : nat) (self : validator),
       hierarchy_step (previous_level, self) (i, line) = (previous_level, self).
Proof.
  intros Hm Hlen.
  destruct (empty_heading_shape _ _ Hm) as (Hk & Hg & _).
  rewrite Hg, take_length in Hlen by apply span_le_length.
  assert (N : pmatch heading_pattern line = None).
  { unfold pmatch, heading_pattern.
    destruct (re_match _ line) as [[c r] |] eqn:M; [exfalso | reflexivity].
    apply re_match_rep in M as (k1 & c1 & Hk1 & M & _).
    apply re_match_rep in M as (k2 & c2 & Hk2 & M & _).
    apply re_match_rep in M as (k3 & c3 & Hk3 & _).
    unfold rep_max in Hk1, Hk2, Hk3.
    destruct (Nat.eq_dec k1 (span is_hash line)) as [E | NE].
    - subst k1.
      pose proof (span_le_length isspace (drop (span is_hash line) line)) as L2.
      pose proof (span_le_length any_char
                    (drop k2 (drop (span is_hash line) line))) as L3.
      rewrite !drop_length in L3. rewrite drop_length in L2. lia.
    - rewrite no_space_inside_hashes in Hk2 by lia. lia. }
  split; [exact N |].
  intros previous_level i self. unfold hierarchy_step. now rewrite N.
Qed.

Lemma C10_short_empty_heading_witness :
  pmatch empty_heading_pattern "## " = Some ["##"; " "; ""]
  /\ String.length "## " <= String.length (node_text 1 ["##"; " "; ""]) + 1
  /\ pmatch heading_pattern "## " = None.
Proof.
  split; [reflexivity |]. split; [simpl; lia |].
  refine (proj1 (C10_short_empty_heading "## " ["##"; " "; ""] eq_refl _)).
  simpl; lia.
Defined.

(** An empty heading with two trailing spaces also makes the hierarchy
    check warn. *)
Example hierarchy_warns_on_empty_heading :
  new_warnings validate_headings_hierarchy (loaded ("# T" ++ nls ++ "###  "))
  = ["Line 2: Heading level skipped (H1 -> H3)"]
  /\ new_errors validate_empty_headings (loaded ("# T" ++ nls ++ "###  "))
     = ["Line 2: Empty heading found"].
Proof.
  split; reflexivity.
Qed.

(** ** The link check *)

(** Group 1 of a match of the link pattern is never empty: the pattern
    asks for one character at least between the brackets. *)
Lemma link_text_not_empty (s rest : string) (caps : list string) :
  re_match link_pattern s = Some (caps, rest) ->
  truthy (node_text 2 caps) = true.
Proof.
  unfold link_pattern, lit. intros M.
  apply re_match_rep in M as (k1 & c1 & Hk1 & M & ->).
  apply re_match_rep in M as (k2 & c2 & Hk2 & M & ->).
  unfold node_text. cbn [Nat.pred nth]. apply truthy_length.
  rewrite take_length; [lia |].
  etransitivity; [apply Hk2 |].
  etransitivity; [apply rep_max_le_span | apply span_le_length].
Qed.

Lemma finditer_from_In (p : pattern) (s : string) (skip : nat) (caps : list string) :
  In caps (finditer_from p s skip) ->
  exists s' rest, re_match p s' = Some (caps, rest).
Proof.
  revert skip. induction s as [| c s IH]; intros skip; simpl.
  - destruct skip; [| intros []].
    destruct (re_match p "") as [[c0 r0] |] eqn:M; [| intros []].
    intros [<- | []]. now exists "", r0.
  - destruct skip as [| k]; [| apply IH].
    destruct (re_match p (String c s)) as [[c0 r0] |] eqn:M; [| apply IH].
    intros [<- | H]; [now exists (String c s), r0 | eapply IH; eauto].
Qed.

Lemma links_match_step_errors (i : nat) (self : validator) (caps : list string) :
  errors (links_match_step i self caps)
  = List.app (errors self) (links_emitted i caps).
Proof.
  unfold links_match_step, links_emitted.
  destruct (negb (truthy (node_text 2 caps))), (negb (truthy (node_text 5 caps)));
    simpl; unfold list_append; rewrite <- ?List.app_assoc, ?List.app_nil_r;
    reflexivity.
Qed.

Lemma links_step_errors (self : validator) (item : nat * string) :
  errors (links_step self item)
  = List.app (errors self)
      (flat_map (links_emitted (fst item)) (finditer link_pattern (snd item))).
Proof.
  destruct item as [i line]. unfold links_step. simpl.
  apply fold_errors. intros s caps. apply links_match_step_errors.
Qed.

Lemma validate_links_errors (self : validator) :
  new_errors validate_links self
  = flat_map (fun item => flat_map (links_emitted (fst item))
                            (finditer link_pattern (snd item)))
             (enumerate (lines self)).
Proof.
  apply new_errors_frame. unfold validate_links.
  apply fold_errors. apply links_step_errors.
Qed.

(** C1 on the code: the three inputs of the scenario, and the reason of
    what they give.  The text [[](url)] and the text [[]()] are not matches
    of the link pattern, so neither yields a finding; [[text]()] yields the
    empty-URL error; and on no document at all does the check report
    "Empty link text". *)
Theorem C1_links_on_code :
  new_errors validate_links (loaded ("[](url)" ++ nls)) = []
  /\ new_errors validate_links (loaded ("[text]()" ++ nls))
     = ["Line 1: Empty link URL"]
  /\ new_errors validate_links (loaded ("[]()" ++ nls)) = []
  /\ forall (self : validator) (i : nat),
       ~ In ("Line " ++ lineno i ++ ": Empty link text")
            (new_errors validate_links self).
Proof.
  split; [reflexivity |]. split; [reflexivity |]. split; [reflexivity |].
  intros self i. rewrite validate_links_errors.
  intros H. apply in_flat_map in H as ([j line] & _ & H).
  apply in_flat_map in H as (caps & Hc & H). simpl in Hc, H.
  apply finditer_from_In in Hc as (s' & rest & M).
  unfold links_emitted in H. rewrite (link_text_not_empty _ _ _ M) in H.
  simpl in H. destruct (negb (truthy (node_text 5 caps))); [| exact H].
  destruct H as [H | []].
  apply (line_message_inj j i "Empty link URL" "Empty link text") in H.
  destruct H as [_ H]. discriminate H.
Qed.

(** ** The empty-headings check and the title check *)

Lemma validate_empty_headings_errors (self : validator) :
  new_errors validate_empty_headings self
  = flat_map empty_headings_emitted (enumerate (lines self)).
Proof.
  apply new_errors_frame. unfold validate_empty_headings.
  apply fold_errors. intros s [i line].
  unfold empty_headings_step, empty_headings_emitted. simpl.
  destruct (pmatch empty_heading_pattern line);
    [reflexivity | now rewrite List.app_nil_r].
Qed.

(** An error of the empty-headings check at line [i] comes from a line
    that matches the pattern. *)
Lemma empty_heading_finding (self : validator) (i : nat) :
  finding_at i (new_errors validate_empty_headings self) ->
  exists line caps,
    nth_error (lines self) i = Some line
    /\ pmatch empty_heading_pattern line = Some caps.
Proof.
  intros (text & H). rewrite validate_empty_headings_errors in H.
  apply in_flat_map in H as ([j line] & Hj & H).
  apply enumerate_In in Hj. unfold empty_headings_emitted in H. simpl in H.
  destruct (pmatch empty_heading_pattern line) as [caps |] eqn:M; [| destruct H].
  destruct H as [H | []].
  apply (line_message_inj j i "Empty heading found" text) in H as [-> _].
  now exists line, caps.
Qed.

(** An error of the title check at line [i]: line [i] is the first
    non-blank one. *)
Lemma h1_title_finding (self : validator) (i : nat) :
  finding_at i (new_errors validate_h1_title self) ->
  exists line, first_nonblank_at (lines self) i line.
Proof.
  intros (text & H).
  destruct (h1_title_loop_cases (lines self) 0 self)
    as [[_ E] | (j & line & Hf & E)].
  - unfold new_errors, validate_h1_title, enumerate in H.
    rewrite E, skipn_all in H. destruct H.
  - rewrite (new_errors_frame validate_h1_title self _
               (eq_trans (f_equal errors E) (h1_title_check_errors _ _ _))) in H.
    destruct (negb (startswith "# " line)).
    + cbn [In] in H. destruct H as [H | []].
      apply (line_message_inj j i
               "File should start with H1 title (# Title)" text) in H as [-> _].
      now exists line.
    + destruct (String.eqb (strip line) "#"); cbn [In] in H; [| destruct H].
      destruct H as [H | []].
      apply (line_message_inj j i "H1 title is empty" text) in H as [-> _].
      now exists line.
Qed.

(** C7: when the title check and the empty-headings check both report a
    finding at the same line, that line is the first non-blank line of the
    document and is made of hash characters and whitespace only. *)
Theorem C7_double_finding (self : validator) (i : nat) :
  finding_at i (new_errors validate_h1_title self) ->
  finding_at i (new_errors validate_empty_headings self) ->
  exists line,
    first_nonblank_at (lines self) i line
    /\ hashes_and_spaces line = true.
Proof.
  intros Ht He.
  destruct (h1_title_finding _ _ Ht) as (line & Hf).
  destruct (empty_heading_finding _ _ He) as (l & caps & Hn & Hm).
  exists line. split; [exact Hf |].
  destruct Hf as (Hn' & _). rewrite Hn in Hn'. injection Hn' as ->.
  eapply empty_heading_hashes_and_spaces; eauto.
Qed.

Lemma C7_double_finding_witness :
  finding_at 1 (new_errors validate_h1_title (loaded (nls ++ "##")))
  /\ finding_at 1 (new_errors validate_empty_headings (loaded (nls ++ "##")))
  /\ exists line,
       first_nonblank_at (lines (loaded (nls ++ "##"))) 1 line
       /\ hashes_and_spaces line = true.
Proof.
  assert (T : finding_at 1 (new_errors validate_h1_title (loaded (nls ++ "##")))).
  { exists "File should start with H1 title (# Title)". simpl. now left. }
  assert (E : finding_at 1 (new_errors validate_empty_headings
                              (loaded (nls ++ "##")))).
  { exists "Empty heading found". simpl. now left. }
  split; [exact T |]. split; [exact E |].
  exact (C7_double_finding (loaded (nls ++ "##")) 1 T E).
Defined.

(** ** The code-block check *)

Lemma count_fences_cons (l : string) (ls : list string) :
  count_fences (l :: ls)
  = if is_fence l then S (count_fences ls) else count_fences ls.
Proof.
  unfold count_fences. simpl. now destruct (is_fence l).
Qed.

Lemma code_blocks_step_fence (st : fence_state) (k : nat) (l : string) :
  is_fence l = true ->
  in_code_block (code_blocks_step st (k, l)) = negb (in_code_block st)
  /\ errors (fence_self (code_blocks_step st (k, l))) = errors (fence_self st)
  /\ (in_code_block st = false ->
      code_block_start (code_blocks_step st (k, l)) = Z.of_nat k).
Proof.
  unfold is_fence, code_blocks_step. intros ->.
  destruct (in_code_block st); simpl.
  - repeat split. discriminate.
  - repeat split. now destruct (String.eqb (strip l) "```").
Qed.

Lemma code_blocks_step_other (st : fence_state) (k : nat) (l : string) :
  is_fence l = false -> code_blocks_step st (k, l) = st.
Proof.
  unfold is_fence, code_blocks_step. now intros ->.
Qed.

(** The loop of [validate_code_blocks] from any state: the flag is
    toggled once per fence, the errors are left alone, and when the loop
    ends inside a block, either it met no fence or the block was opened by
    the last fence. *)
Lemma code_blocks_fold (ls : list string) :
  forall (k : nat) (st : fence_state),
    let st' := fold_left code_blocks_step (enumerate_from k ls) st in
    in_code_block st' = xorb (in_code_block st) (Nat.odd (count_fences ls))
    /\ errors (fence_self st') = errors (fence_self st)
    /\ (in_code_block st' = true ->
        (count_fences ls = 0 /\ code_block_start st' = code_block_start st)
        \/ exists i,
             (exists line, nth_error ls i = Some line /\ is_fence line = true)
             /\ xorb (in_code_block st)
                     (Nat.odd (count_fences (firstn i ls))) = false
             /\ count_fences (skipn (S i) ls) = 0
             /\ code_block_start st' = Z.of_nat (k + i)).
Proof.
  induction ls as [| l ls IH]; intros k st; cbv zeta.
  - simpl. split; [now rewrite xorb_false_r |]. split; [reflexivity |].
    intros _. now left.
  - cbn [enumerate_from fold_left].
    destruct (IH (S k) (code_blocks_step st (k, l))) as (Hflag & Herr & Hopen).
    rewrite count_fences_cons.
    destruct (is_fence l) eqn:F.
    + destruct (code_blocks_step_fence st k l F) as (S1 & S2 & S3).
      rewrite S1 in Hflag. rewrite S2 in Herr.
      split.
      { rewrite Hflag, Nat.odd_succ, <- Nat.negb_odd.
        now destruct (in_code_block st), (Nat.odd (count_fences ls)). }
      split; [exact Herr |].
      intros Hin. right. destruct (Hopen Hin) as [[Hz Hs] | (i & Hl & Hp & Hz & Hs)].
      * exists 0. rewrite Hz in Hflag. rewrite Hflag in Hin. simpl in Hin.
        rewrite xorb_false_r in Hin. apply negb_true_iff in Hin.
        split; [now exists l |]. split; [now rewrite Hin |].
        split; [exact Hz |]. rewrite Hs, (S3 Hin). f_equal. lia.
      * exists (S i). split; [exact Hl |]. split.
        { cbn [firstn]. rewrite count_fences_cons, F, Nat.odd_succ, <- Nat.negb_odd.
          rewrite S1 in Hp.
          now destruct (in_code_block st), (Nat.odd (count_fences (firstn i ls))). }
        split; [exact Hz |]. rewrite Hs. f_equal. lia.
    + rewrite (code_blocks_step_other st k l F) in *.
      split; [exact Hflag |]. split; [exact Herr |].
      intros Hin. destruct (Hopen Hin) as [[Hz Hs] | (i & Hl & Hp & Hz & Hs)].
      * left. now split.
      * right. exists (S i). split; [exact Hl |]. split.
        { cbn [firstn]. now rewrite count_fences_cons, F. }
        split; [exact Hz |]. rewrite Hs. f_equal. lia.
Qed.

(** C4: the code-block check appends the error "Unclosed code block"
    exactly when the number of lines that start with three backticks is
    odd; the error then carries the line number of the fence that opened
    the block left open: an even number of fences precede it and none
    follows it. *)
Theorem C4_unclosed_code_block (self : validator) :
  if Nat.odd (count_fences (lines self))
  then exists i,
         opens_unclosed_block (lines self) i
         /\ new_errors validate_code_blocks self
            = ["Line " ++ lineno i ++ ": Unclosed code block"]
  else new_errors validate_code_blocks self = [].
Proof.
  pose proof (code_blocks_fold (lines self) 0 (mkFence false (-1) self))
    as (Hflag & Herr & Hopen).
  cbv zeta in *. cbn [in_code_block fence_self code_block_start] in *.
  rewrite xorb_false_l in Hflag.
  unfold new_errors, validate_code_blocks, enumerate.
  destruct (Nat.odd (count_fences (lines self))) eqn:O; rewrite Hflag.
  - destruct (Hopen Hflag) as [[Hz _] | (i & Hl & Hp & Hz & Hs)].
    + rewrite Hz in O. discriminate.
    + exists i. split.
      * split; [exact Hl |]. split; [| exact Hz].
        rewrite xorb_false_l in Hp. now rewrite <- Nat.negb_odd, Hp.
      * cbn [errors append_error]. rewrite Herr, Hs. unfold list_append.
        now rewrite skipn_length_app.
  - rewrite Herr. apply skipn_all.
Qed.

(** ** The consecutive-blank-lines check *)

Lemma blank_at_middle (pre ls : list string) (l : string) :
  blank_at (pre ++ l :: ls)%list (List.length pre) = is_blank l.
Proof.
  unfold blank_at. rewrite nth_error_app2 by lia. now rewrite Nat.sub_diag.
Qed.

Lemma blank_lines_step_eq (n k : nat) (l : string) (self : validator) :
  blank_lines_step (n, self) (k, l)
  = if is_blank l then
      if (2 <? n + 1)%nat
      then (n + 1, append_warning (blank_lines_warning k) self)
      else (n + 1, self)
    else (0, self).
Proof.
  reflexivity.
Qed.

(** The loop of [validate_consecutive_blank_lines], started after the
    lines [pre] with a counter that agrees with them. *)
Lemma blank_lines_fold (ls : list string) :
  forall (pre : list string) (n : nat) (self : validator),
    blank_count_ok (pre ++ ls)%list (List.length pre) n ->
    let out := snd (fold_left blank_lines_step
                      (enumerate_from (List.length pre) ls) (n, self)) in
    warnings out
    = List.app (warnings self)
        (map blank_lines_warning
           (filter (third_blank (pre ++ ls)%list)
                   (seq (List.length pre) (List.length ls))))
    /\ errors out = errors self.
Proof.
  induction ls as [| l ls IH]; intros pre n self Hok; cbv zeta.
  - simpl. now rewrite List.app_nil_r.
  - cbn [enumerate_from fold_left List.length seq filter].
    destruct Hok as [H1 H2].
    pose proof (blank_at_middle pre ls l) as Hb.
    set (L := (pre ++ l :: ls)%list) in *.
    set (k := List.length pre) in *.
    assert (EL : ((pre ++ [l]) ++ ls)%list = L)
      by (unfold L; now rewrite <- List.app_assoc).
    assert (Ek : List.length (pre ++ [l])%list = S k)
      by (rewrite List.length_app; simpl; unfold k; lia).
    rewrite blank_lines_step_eq.
    destruct (is_blank l) eqn:B.
    + (* a blank line *)
      assert (T : third_blank L k = (2 <? n + 1)%nat).
      { unfold third_blank. rewrite Hb, andb_true_r, <- H2.
        rewrite Nat.add_1_r. reflexivity. }
      assert (Hok' : blank_count_ok ((pre ++ [l]) ++ ls)%list
                       (List.length (pre ++ [l])%list) (n + 1)).
      { rewrite EL, Ek. split.
        - cbn [Nat.sub]. rewrite Nat.sub_0_r, Hb, Nat.add_1_r. reflexivity.
        - replace (S k - 2) with (k - 1) by lia.
          cbn [Nat.sub]. rewrite Nat.sub_0_r, Hb, andb_true_r, Nat.add_1_r.
          exact H1. }
      rewrite T. destruct (2 <? n + 1)%nat.
      * specialize (IH (pre ++ [l])%list (n + 1)
                       (append_warning (blank_lines_warning k) self) Hok').
        cbv zeta in IH. rewrite EL, Ek in IH. destruct IH as [IHw IHe].
        split; [| exact IHe].
        rewrite IHw. cbn [warnings append_warning map]. unfold list_append.
        now rewrite <- List.app_assoc.
      * specialize (IH (pre ++ [l])%list (n + 1) self Hok').
        cbv zeta in IH. rewrite EL, Ek in IH. exact IH.
    + (* a line with text *)
      assert (T : third_blank L k = false).
      { unfold third_blank. rewrite Hb. now rewrite andb_false_r. }
      assert (Hok' : blank_count_ok ((pre ++ [l]) ++ ls)%list
                       (List.length (pre ++ [l])%list) 0).
      { rewrite EL, Ek. split.
        - cbn [Nat.sub]. now rewrite Nat.sub_0_r, Hb.
        - cbn [Nat.sub]. now rewrite Nat.sub_0_r, Hb, andb_false_r. }
      rewrite T.
      specialize (IH (pre ++ [l])%list 0 self Hok').
      cbv zeta in IH. rewrite EL, Ek in IH. exact IH.
Qed.

(** The warnings of the check, for every document: one for each line
    that is blank as the two lines before it are, in the order of the
    lines. *)
Lemma blank_lines_warnings (self : validator) :
  new_warnings validate_consecutive_blank_lines self
  = map blank_lines_warning
      (filter (third_blank (lines self)) (seq 0 (List.length (lines self)))).
Proof.
  apply new_warnings_frame.
  assert (Hok : blank_count_ok ([] ++ lines self)%list (List.length (@nil string)) 0)
    by (split; reflexivity).
  exact (proj1 (blank_lines_fold (lines self) [] 0 self Hok)).
Qed.

Lemma third_blank_in_range (ls : list string) (i : nat) :
  third_blank ls i = true -> i < List.length ls.
Proof.
  unfold third_blank, blank_at. intros H.
  destruct (nth_error ls i) eqn:E.
  - apply nth_error_Some. congruence.
  - rewrite andb_false_r in H. discriminate.
Qed.

(** C5: the consecutive-blank-lines check appends one warning for each
    line that is blank as the two lines before it are (the third or a later
    line of a run of blank lines), in the order of the lines, and nothing
    else; its counter goes up by one on a blank line and back to 0 on any
    other line.  Hence three blank lines and then a line with text give
    one warning, at line 3, and two blank lines give none. *)
Theorem C5_consecutive_blank_lines (self : validator) :
  new_warnings validate_consecutive_blank_lines self
  = map blank_lines_warning
      (filter (third_blank (lines self)) (seq 0 (List.length (lines self))))
  /\ (forall i : nat,
        In (blank_lines_warning i)
           (new_warnings validate_consecutive_blank_lines self)
        <-> third_blank (lines self) i = true)
  /\ (forall (blank_count i : nat) (line : string) (s : validator),
        fst (blank_lines_step (blank_count, s) (i, line))
        = if is_blank line then blank_count + 1 else 0)
  /\ (forall b1 b2 b3 c : string,
        is_blank b1 = true -> is_blank b2 = true -> is_blank b3 = true ->
        is_blank c = false ->
        lines self = [b1; b2; b3; c] ->
        new_warnings validate_consecutive_blank_lines self
        = ["Line 3: More than 2 consecutive blank lines"])
  /\ (forall b1 b2 : string,
        is_blank b1 = true -> is_blank b2 = true ->
        lines self = [b1; b2] ->
        new_warnings validate_consecutive_blank_lines self = []).
Proof.
  split; [apply blank_lines_warnings |].
  split.
  { intros i. rewrite blank_lines_warnings, in_map_iff. split.
    - intros (j & Hj & Hin). apply filter_In in Hin as [_ Hb].
      apply (line_message_inj j i "More than 2 consecutive blank lines"
               "More than 2 consecutive blank lines") in Hj as [-> _].
      exact Hb.
    - intros Hb. exists i. split; [reflexivity |].
      apply filter_In. split; [| exact Hb].
      apply in_seq. pose proof (third_blank_in_range _ _ Hb). lia. }
  split.
  { intros n i line s. rewrite blank_lines_step_eq.
    destruct (is_blank line); [| reflexivity].
    now destruct (2 <? n + 1)%nat. }
  split.
  - intros b1 b2 b3 c H1 H2 H3 Hc Hl. rewrite blank_lines_warnings, Hl.
    unfold third_blank, blank_at. cbn -[is_blank].
    rewrite H1, H2, H3, Hc. reflexivity.
  - intros b1 b2 H1 H2 Hl. rewrite blank_lines_warnings, Hl.
    unfold third_blank, blank_at. now cbn -[is_blank].
Qed.

(** ** The trailing-whitespace check *)

Lemma rstrip_spaces (s : string) : all_chars isspace s = true -> rstrip s = "".
Proof.
  induction s as [| c s IH]; simpl; [reflexivity |].
  intros H. apply andb_prop in H as [Hc Hs]. now rewrite (IH Hs), Hc.
Qed.

Lemma lstrip_spaces (s : string) : all_chars isspace s = true -> lstrip s = "".
Proof.
  induction s as [| c s IH]; simpl; [reflexivity |].
  intros H. apply andb_prop in H as [Hc Hs]. now rewrite Hc, (IH Hs).
Qed.

Lemma spaces_blank (s : string) : all_chars isspace s = true -> is_blank s = true.
Proof.
  intros H. unfold is_blank, strip. now rewrite (lstrip_spaces _ H).
Qed.

Lemma validate_trailing_whitespace_warnings (self : validator) :
  new_warnings validate_trailing_whitespace self
  = flat_map trailing_whitespace_emitted (enumerate (lines self)).
Proof.
  apply new_warnings_frame. unfold validate_trailing_whitespace.
  apply fold_warnings. intros s [i line].
  unfold trailing_whitespace_step, trailing_whitespace_emitted. simpl.
  destruct (negb (String.eqb line (rstrip line)));
    [reflexivity | now rewrite List.app_nil_r].
Qed.

(** C9: a line made of one or more whitespace characters gets the
    trailing-whitespace warning, and the consecutive-blank-lines check
    counts it as blank; when the two lines before it are blank too, it gets
    the consecutive-blank-lines warning as well. *)
Theorem C9_whitespace_only_line (self : validator) (i : nat) (line : string) :
  nth_error (lines self) i = Some line ->
  line <> "" ->
  all_chars isspace line = true ->
  In ("Line " ++ lineno i ++ ": Trailing whitespace detected")
     (new_warnings validate_trailing_whitespace self)
  /\ (forall (blank_count : nat) (s : validator),
        fst (blank_lines_step (blank_count, s) (i, line)) = blank_count + 1)
  /\ (2 <= i ->
      blank_at (lines self) (i - 1) = true ->
      blank_at (lines self) (i - 2) = true ->
      In ("Line " ++ lineno i ++ ": More than 2 consecutive blank lines")
         (new_warnings validate_consecutive_blank_lines self)).
Proof.
  intros Hn Hne Hs.
  pose proof (spaces_blank _ Hs) as Hb.
  split.
  { rewrite validate_trailing_whitespace_warnings.
    apply in_flat_map. exists (i, line). split; [now apply enumerate_In |].
    unfold trailing_whitespace_emitted. cbn [fst snd].
    rewrite (rstrip_spaces _ Hs).
    destruct (String.eqb_spec line ""); [contradiction | now left]. }
  split.
  { intros n s. rewrite blank_lines_step_eq, Hb.
    now destruct (2 <? n + 1)%nat. }
  intros Hi H1 H2.
  rewrite blank_lines_warnings. apply in_map_iff. exists i.
  split; [reflexivity |].
  assert (T : third_blank (lines self) i = true).
  { unfold third_blank. rewrite H1, H2. unfold blank_at. rewrite Hn, Hb.
    apply Nat.leb_le in Hi. now rewrite Hi. }
  apply filter_In. split; [| exact T].
  apply in_seq. pose proof (third_blank_in_range _ _ T). lia.
Qed.

Lemma C9_whitespace_only_line_witness :
  nth_error (lines (loaded (nls ++ nls ++ " "))) 2 = Some " "
  /\ " " <> ""
  /\ all_chars isspace " " = true
  /\ In "Line 3: Trailing whitespace detected"
        (new_warnings validate_trailing_whitespace (loaded (nls ++ nls ++ " ")))
  /\ In "Line 3: More than 2 consecutive blank lines"
        (new_warnings validate_consecutive_blank_lines
           (loaded (nls ++ nls ++ " "))).
Proof.
  assert (N : " " <> "") by discriminate.
  pose proof (C9_whitespace_only_line (loaded (nls ++ nls ++ " ")) 2 " "
                eq_refl N eq_refl) as (W & _ & B).
  split; [reflexivity |]. split; [exact N |]. split; [reflexivity |].
  split; [exact W |].
  apply B; [lia | reflexivity | reflexivity].
Defined.

(** ** The validation pass *)

Lemma read_file_failure (fs : filesystem) (self : validator) (e : exn) :
  fs (file_path self) = Raises e ->
  read_file fs self
  = (false,
     append_error
       (match e with
        | FileNotFoundError _ => "File not found: " ++ path_str (file_path self)
        | Exception msg => "Error reading file: " ++ msg
        end) self).
Proof.
  unfold read_file. intros ->. now destruct e.
Qed.

Lemma read_file_false_errors (fs : filesystem) (self out : validator) :
  read_file fs self = (false, out) -> errors out <> [].
Proof.
  unfold read_file.
  destruct (fs (file_path self)) as [text | [m | m]]; intros [= <-];
    simpl; unfold list_append; now destruct (errors self).
Qed.

Lemma validate_passed_iff (fs : filesystem) (self : validator) :
  fst (validate fs self) = true <-> errors (snd (validate fs self)) = [].
Proof.
  unfold validate. destruct (read_file fs self) as [[|] s1] eqn:R;
    cbv beta iota zeta delta [negb fst snd].
  - match goal with
    | |- context [errors ?x] => destruct (errors x)
    end; cbn [List.length Nat.eqb]; split; intros; congruence.
  - pose proof (read_file_false_errors _ _ _ R). split; intros; congruence.
Qed.

(** The warnings an object holds have no effect on what a check does to
    the rest of it. *)
Lemma sbw_refl (a : validator) : same_but_warnings a a.
Proof.
  now repeat split.
Qed.

Lemma sbw_append_error (m : string) (a b : validator) :
  same_but_warnings a b ->
  same_but_warnings (append_error m a) (append_error m b).
Proof.
  intros (Hp & Hc & Hl & He). repeat split; simpl; congruence.
Qed.

Lemma sbw_append_warning_l (m : string) (a b : validator) :
  same_but_warnings a b -> same_but_warnings (append_warning m a) b.
Proof.
  intros (Hp & Hc & Hl & He). repeat split; simpl; congruence.
Qed.

Lemma sbw_append_warning_r (m : string) (a b : validator) :
  same_but_warnings a b -> same_but_warnings a (append_warning m b).
Proof.
  intros (Hp & Hc & Hl & He). repeat split; simpl; congruence.
Qed.

Create HintDb sbw.

#[local] Hint Resolve sbw_refl sbw_append_error sbw_append_warning_l
  sbw_append_warning_r : sbw.

Ltac sbw_branches :=
  repeat match goal with
         | |- context [if ?c then _ else _] => destruct c
         | |- context [match ?c with Some _ => _ | None => _ end] => destruct c
         end;
  auto 6 with sbw.

Lemma fold_left_related {S Item : Type} (R : S -> S -> Prop)
      (step : S -> Item -> S) :
  (forall a b it, R a b -> R (step a it) (step b it)) ->
  forall items a b, R a b ->
    R (fold_left step items a) (fold_left step items b).
Proof.
  intros Hstep. induction items as [| it items IH]; intros a b H; simpl; auto.
Qed.

Lemma sbw_h1_title (a b : validator) :
  same_but_warnings a b ->
  same_but_warnings (validate_h1_title a) (validate_h1_title b).
Proof.
  intros H. unfold validate_h1_title.
  replace (lines b) with (lines a) by apply H.
  induction (enumerate (lines a)) as [| [i line] items IH]; simpl; [exact H |].
  destruct (truthy (strip line)); [| exact IH].
  unfold h1_title_check. sbw_branches.
Qed.

Lemma sbw_table_of_contents (a b : validator) :
  same_but_warnings a b ->
  same_but_warnings (validate_table_of_contents a) (validate_table_of_contents b).
Proof.
  intros H. unfold validate_table_of_contents.
  replace (lines b) with (lines a) by apply H. sbw_branches.
Qed.

Lemma sbw_headings_hierarchy (a b : validator) :
  same_but_warnings a b ->
  same_but_warnings (validate_headings_hierarchy a)
                    (validate_headings_hierarchy b).
Proof.
  intros H. unfold validate_headings_hierarchy.
  replace (lines b) with (lines a) by apply H.
  apply (fold_left_related
           (fun x y => fst x = fst y /\ same_but_warnings (snd x) (snd y)));
    [| now split].
  intros [n x] [m y] [i line] [Hn Hxy]. simpl in Hn, Hxy. subst m.
  unfold hierarchy_step.
  destruct (pmatch heading_pattern line); simpl; split; auto.
  sbw_branches.
Qed.

Lemma sbw_code_blocks (a b : validator) :
  same_but_warnings a b ->
  same_but_warnings (validate_code_blocks a) (validate_code_blocks b).
Proof.
  intros H. unfold validate_code_blocks.
  replace (lines b) with (lines a) by apply H.
  assert (F : forall items x y,
             in_code_block x = in_code_block y
             /\ code_block_start x = code_block_start y
             /\ same_but_warnings (fence_self x) (fence_self y) ->
             let x' := fold_left code_blocks_step items x in
             let y' := fold_left code_blocks_step items y in
             in_code_block x' = in_code_block y'
             /\ code_block_start x' = code_block_start y'
             /\ same_but_warnings (fence_self x') (fence_self y')).
  { apply (fold_left_related
             (fun x y => in_code_block x = in_code_block y
                         /\ code_block_start x = code_block_start y
                         /\ same_but_warnings (fence_self x) (fence_self y))).
    intros x y [i line] (Hi & Hs & Hxy). unfold code_blocks_step.
    destruct (startswith "```" line); [| now split; [| split]].
    rewrite <- Hi, <- Hs. destruct (in_code_block x); simpl.
    - now split; [| split].
    - split; [reflexivity |]. split; [reflexivity |]. sbw_branches. }
  destruct (F (enumerate (lines a)) (mkFence false (-1) a)
              (mkFence false (-1) b)) as (Hi & Hs & Hxy);
    [now split; [| split] |].
  rewrite <- Hi, <- Hs. sbw_branches.
Qed.

Lemma sbw_links (a b : validator) :
  same_but_warnings a b ->
  same_but_warnings (validate_links a) (validate_links b).
Proof.
  intros H. unfold validate_links.
  replace (lines b) with (lines a) by apply H.
  apply fold_left_related; [| exact H].
  intros x y [i line] Hxy. unfold links_step.
  apply fold_left_related; [| exact Hxy].
  intros x' y' caps Hxy'. unfold links_match_step. sbw_branches.
Qed.

Lemma sbw_empty_headings (a b : validator) :
  same_but_warnings a b ->
  same_but_warnings (validate_empty_headings a) (validate_empty_headings b).
Proof.
  intros H. unfold validate_empty_headings.
  replace (lines b) with (lines a) by apply H.
  apply fold_left_related; [| exact H].
  intros x y [i line] Hxy. unfold empty_headings_step. sbw_branches.
Qed.

Lemma sbw_trailing_whitespace (a b : validator) :
  same_but_warnings a b ->
  same_but_warnings (validate_trailing_whitespace a)
                    (validate_trailing_whitespace b).
Proof.
  intros H. unfold validate_trailing_whitespace.
  replace (lines b) with (lines a) by apply H.
  apply fold_left_related; [| exact H].
  intros x y [i line] Hxy. unfold trailing_whitespace_step. sbw_branches.
Qed.

Lemma sbw_consecutive_blank_lines (a b : validator) :
  same_but_warnings a b ->
  same_but_warnings (validate_consecutive_blank_lines a)
                    (validate_consecutive_blank_lines b).
Proof.
  intros H. unfold validate_consecutive_blank_lines.
  replace (lines b) with (lines a) by apply H.
  apply (fold_left_related
           (fun x y => fst x = fst y /\ same_but_warnings (snd x) (snd y)));
    [| now split].
  intros [n x] [m y] [i line] [Hn Hxy]. simpl in Hn, Hxy. subst m.
  rewrite !blank_lines_step_eq.
  destruct (is_blank line); [| now split].
  destruct (2 <? n + 1)%nat; split; simpl; auto with sbw.
Qed.

Lemma sbw_list_formatting (a b : validator) :
  same_but_warnings a b ->
  same_but_warnings (validate_list_formatting a) (validate_list_formatting b).
Proof.
  intros H. unfold validate_list_formatting.
  replace (lines b) with (lines a) by apply H.
  apply fold_left_related; [| exact H].
  intros x y [i line] Hxy. unfold list_formatting_step.
  destruct (pmatch unordered_pattern line), (pmatch ordered_pattern line);
    sbw_branches.
Qed.

Lemma validate_ignores_warnings (fs : filesystem) (a b : validator) :
  same_but_warnings a b ->
  fst (validate fs a) = fst (validate fs b)
  /\ same_but_warnings (snd (validate fs a)) (snd (validate fs b)).
Proof.
  intros H. unfold validate, read_file.
  replace (file_path b) with (file_path a) by apply H.
  destruct (fs (file_path a)) as [text | [m | m]];
    cbv beta iota zeta delta [negb fst snd].
  - set (a0 := mkValidator (file_path a) text (split_lines text)
                           (errors a) (warnings a)).
    set (b0 := mkValidator (file_path a) text (split_lines text)
                           (errors b) (warnings b)).
    assert (H0 : same_but_warnings a0 b0)
      by (unfold a0, b0; repeat split; simpl; apply H).
    pose proof (sbw_list_formatting _ _
                 (sbw_consecutive_blank_lines _ _
                   (sbw_trailing_whitespace _ _
                     (sbw_empty_headings _ _
                       (sbw_links _ _
                         (sbw_code_blocks _ _
                           (sbw_headings_hierarchy _ _
                             (sbw_table_of_contents _ _
                               (sbw_h1_title _ _ H0))))))))) as R.
    split; [| exact R].
    destruct R as (_ & _ & _ & ->). reflexivity.
  - split; [reflexivity | auto with sbw].
  - split; [reflexivity | auto with sbw].
Qed.

(** C3: the validation pass returns [True] exactly when the error list it
    leaves is empty, whatever the object was before the call; so two
    passes that leave the same errors agree on the outcome, whatever their
    warnings, and the warnings the object holds before the pass change
    neither the outcome nor the errors.  A document with warnings and no
    error passes. *)
Theorem C3_passed_iff_no_errors (fs : filesystem) (self : validator) :
  (fst (validate fs self) = true <-> errors (snd (validate fs self)) = [])
  /\ (forall (fs' : filesystem) (self' : validator),
        errors (snd (validate fs' self')) = errors (snd (validate fs self)) ->
        fst (validate fs' self') = fst (validate fs self))
  /\ (forall self' : validator,
        same_but_warnings self' self ->
        fst (validate fs self') = fst (validate fs self)
        /\ errors (snd (validate fs self')) = errors (snd (validate fs self)))
  /\ (let out := validate (fun _ => Returns ("# Title" ++ nls ++ nls
                                             ++ "some text" ++ nls))
                          (init doc_path) in
      fst out = true
      /\ errors (snd out) = []
      /\ warnings (snd out)
         = ["No 'Table of Contents' section found in first 20 lines"]).
Proof.
  split; [apply validate_passed_iff |]. split.
  - intros fs' self' E.
    pose proof (validate_passed_iff fs self) as H.
    pose proof (validate_passed_iff fs' self') as H'.
    rewrite E in H'.
    destruct (fst (validate fs self)), (fst (validate fs' self'));
      try reflexivity.
    + apply (proj2 H'), (proj1 H). reflexivity.
    + symmetry. apply (proj2 H), (proj1 H'). reflexivity.
  - split.
    + intros self' R.
      destruct (validate_ignores_warnings fs _ _ R) as (Hp & _ & _ & _ & He).
      now split.
    + cbv zeta. repeat split; vm_compute; reflexivity.
Qed.

(** C6: when opening or reading the file raises, the validation pass
    returns [False] and leaves the object as it was but for one error
    appended: no warning, no line read, no check run.  On a new validator
    the error list then holds that one error. *)
Theorem C6_read_failure (fs : filesystem) (self : validator) (e : exn) :
  fs (file_path self) = Raises e ->
  exists msg : string,
    validate fs self = (false, append_error msg self)
    /\ (self = init (file_path self) ->
        snd (validate fs self) = mkValidator (file_path self) "" [] [msg] []).
Proof.
  intros H.
  eexists. unfold validate. rewrite (read_file_failure _ _ _ H).
  cbv beta iota zeta delta [negb fst snd].
  split; [reflexivity |].
  intros ->. reflexivity.
Qed.

Lemma C6_read_failure_witness :
  (fun _ : Path => @Raises string (FileNotFoundError "No such file or directory"))
    (file_path (init doc_path))
  = Raises (FileNotFoundError "No such file or directory")
  /\ exists msg : string,
       validate (fun _ => Raises (FileNotFoundError "No such file or directory"))
                (init doc_path)
       = (false, mkValidator doc_path "" [] [msg] []).
Proof.
  split; [reflexivity |].
  destruct (C6_read_failure
              (fun _ => Raises (FileNotFoundError "No such file or directory"))
              (init doc_path)
              (FileNotFoundError "No such file or directory") eq_refl)
    as (msg & H & _).
  exists msg. exact H.
Defined.

(** ** The report *)

Lemma fold_bullets (findings init : list string) :
  fold_left (fun rl finding => list_append rl ("  - " ++ finding)) findings init
  = List.app init (map bullet findings).
Proof.
  revert init. induction findings as [| f fs IH]; intros init; simpl.
  - now rewrite List.app_nil_r.
  - rewrite IH. unfold list_append. now rewrite <- List.app_assoc.
Qed.

(** The lines of the report, block by block. *)
Lemma get_report_lines_shape (self : validator) :
  get_report_lines self
  = match errors self, warnings self with
    | [], [] =>
        [report_header self; report_rule; "Status: PASSED"; "No issues found.";
         report_rule]
    | es, ws =>
        List.app [report_header self; report_rule]
          (List.app
             (match es with
              | [] => []
              | _ :: _ => errors_header (List.length es) :: map bullet es
              end)
             (List.app
                (match ws with
                 | [] => []
                 | _ :: _ => warnings_header (List.length ws) :: map bullet ws
                 end)
                [nls ++ "Status: "
                 ++ match es with
                    | [] => "PASSED (with warnings)"
                    | _ :: _ => "FAILED"
                    end;
                 report_rule]))
    end.
Proof.
  unfold get_report_lines.
  destruct (errors self) as [| e es], (warnings self) as [| w ws];
    rewrite ?fold_bullets; unfold list_append;
    cbn [List.app]; rewrite <- ?List.app_assoc; reflexivity.
Qed.

Lemma in_bullets (x : string) (findings : list string) :
  In x (map bullet findings) -> exists f, x = "  - " ++ f.
Proof.
  intros H. apply in_map_iff in H as (f & <- & _). now exists f.
Qed.

(** Case analysis of a membership in the lines of a report: the lines of
    the different kinds differ in their first two characters. *)
Ltac report_line_cases H :=
  repeat (cbn [In List.app map] in H;
          match type of H with
          | _ \/ _ => destruct H as [H | H]
          | In _ (List.app _ _) => apply in_app_or in H
          | In _ (map bullet _) => apply in_bullets in H as [? H]
          | False => destruct H
          | _ = _ =>
              unfold report_header, errors_header, warnings_header,
                report_rule, bullet, nls in H;
              simpl in H; discriminate H
          end).

(** Search of a line in a report, from its first line on. *)
Ltac report_line_found :=
  repeat (cbn [In List.app map];
          first [ left; reflexivity | right | apply in_or_app; right ]).

Ltac report_line_iff self H :=
  rewrite get_report_lines_shape;
  destruct (errors self) as [| e es], (warnings self) as [| w ws];
  split; intros H;
  first [ now (split; congruence)
        | now (destruct H; congruence)
        | congruence
        | discriminate
        | now (eexists; report_line_found)
        | now report_line_found
        | (exfalso; try destruct H as [? H]; report_line_cases H) ].

Section Report.

Variable self : validator.


Lemma report_no_issues_line :
  In "No issues found." (get_report_lines self)
  <-> errors self = [] /\ warnings self = [].
Proof. report_line_iff self H. Qed.

Lemma report_errors_block :
  (exists n, In (errors_header n) (get_report_lines self))
  <-> errors self <> [].
Proof. report_line_iff self H. Qed.

Lemma report_warnings_block :
  (exists n, In (warnings_header n) (get_report_lines self))
  <-> warnings self <> [].
Proof. report_line_iff self H. Qed.



End Report.

Lemma report_errors_listed (self : validator) (e : string) :
  In e (errors self) ->
  In (errors_header (List.length (errors self))) (get_report_lines self)
  /\ In (bullet e) (get_report_lines self).
Proof.
  rewrite get_report_lines_shape. intros H.
  destruct (errors self) as [| e0 es]; [destruct H |].
  split.
  - destruct (warnings self); now report_line_found.
  - assert (B : In (bullet e) (map bullet (e0 :: es))) by now apply in_map.
    destruct (warnings self);
      apply in_cons, in_cons, in_or_app; left; now apply in_cons.
Qed.

Lemma report_warnings_listed (self : validator) (w : string) :
  In w (warnings self) ->
  In (warnings_header (List.length (warnings self))) (get_report_lines self)
  /\ In (bullet w) (get_report_lines self).
Proof.
  rewrite get_report_lines_shape. intros H.
  destruct (warnings self) as [| w0 ws]; [destruct H |].
  assert (B : In (bullet w) (map bullet (w0 :: ws))) by now apply in_map.
  split.
  - destruct (errors self); [now report_line_found |].
    apply in_cons, in_cons, in_or_app. right. now left.
  - destruct (errors self).
    + apply in_cons, in_cons, in_or_app. right.
      apply in_or_app. left. now apply in_cons.
    + apply in_cons, in_cons, in_or_app. right.
      apply in_or_app. left. now apply in_cons.
Qed.

(** *** The text of the report *)

Lemma lines_text_app (l1 l2 : list string) :
  lines_text (List.app l1 l2) = lines_text l1 ++ lines_text l2.
Proof.
  induction l1 as [| x l1 IH]; [reflexivity |].
  cbn [List.app lines_text]. now rewrite IH, !string_append_assoc.
Qed.

Lemma join_lines_text (l : list string) (x : string) :
  join nls (List.app l [x]) = lines_text l ++ x.
Proof.
  induction l as [| a l IH]; [reflexivity |].
  cbn [List.app lines_text]. rewrite !string_append_assoc, <- IH.
  now destruct l.
Qed.

(** The text of a report with a finding: the top, the two blocks, the
    status line and the rule. *)
Lemma get_report_findings (self : validator) :
  errors self <> [] \/ warnings self <> [] ->
  get_report self
  = (report_top self ++ errors_block (errors self)
     ++ warnings_block (warnings self))
    ++ (nls ++ "Status: "
        ++ match errors self with
           | [] => "PASSED (with warnings)"
           | _ :: _ => "FAILED"
           end)
       ++ nls ++ report_rule.
Proof.
  intros H. unfold get_report. rewrite get_report_lines_shape.
  assert (L : forall a b c (s r : string),
             List.app a (List.app b (List.app c [s; r]))
             = List.app (List.app a (List.app b (List.app c [s]))) [r]).
  { intros. now rewrite <- !List.app_assoc. }
  unfold report_top, errors_block, warnings_block.
  destruct (errors self) as [| e es], (warnings self) as [| w ws];
    [destruct H; congruence | | |];
    rewrite L, join_lines_text, !lines_text_app;
    cbn [lines_text List.app];
    rewrite !string_append_assoc; cbn [append];
    rewrite ?string_append_assoc; reflexivity.
Qed.

Lemma get_report_no_finding (self : validator) :
  errors self = [] -> warnings self = [] ->
  get_report self
  = report_top self
    ++ "Status: PASSED" ++ nls ++ "No issues found." ++ nls ++ report_rule.
Proof.
  intros He Hw. unfold get_report. rewrite get_report_lines_shape, He, Hw.
  unfold report_top. cbn [join]. now rewrite !string_append_assoc.
Qed.

Lemma startswith_app (p a b : string) :
  startswith (p ++ a) (p ++ b) = startswith a b.
Proof.
  induction p as [| c p IH]; [reflexivity |].
  cbn [append startswith]. now rewrite Ascii.eqb_refl.
Qed.

Lemma append_inv_l (p a b : string) : p ++ a = p ++ b -> a = b.
Proof.
  induction p as [| c p IH]; [trivial |].
  cbn [append]. intros [= H]. auto.
Qed.

Lemma append_nil_inv_r (a b : string) : a ++ "" = b ++ "" -> a = b.
Proof.
  revert b. induction a as [| x a IH]; intros [| y b]; cbn [append]; intros H;
    try reflexivity; try discriminate H.
  injection H as -> H. f_equal. now apply IH.
Qed.

Lemma append_last (a b : string) (c d : ascii) :
  a ++ String c "" = b ++ String d "" -> a = b /\ c = d.
Proof.
  revert b. induction a as [| x a IH]; intros [| y b]; cbn [append].
  - intros [= ->]. now split.
  - intros [= _ H]. now destruct b.
  - intros [= _ H]. now destruct a.
  - intros [= -> H]. apply IH in H as [-> ->]. now split.
Qed.

Lemma append_inv_r (s a b : string) : a ++ s = b ++ s -> a = b.
Proof.
  revert a b. induction s as [| c s IH]; intros a b H.
  - now apply append_nil_inv_r.
  - assert (E : (a ++ String c "") ++ s = (b ++ String c "") ++ s)
      by (now rewrite !string_append_assoc).
    apply IH in E. now apply append_last in E.
Qed.

(** A text does not end with a suffix that differs from its own end in
    the character before a common tail. *)
Lemma endswith_mismatch (x a b t : string) (c d : ascii) :
  c <> d -> ~ endswith (b ++ String d t) (x ++ a ++ String c t).
Proof.
  intros N [pre E].
  assert (E' : ((x ++ a) ++ String c "") ++ t
               = ((pre ++ b) ++ String d "") ++ t).
  { rewrite !string_append_assoc. exact E. }
  apply append_inv_r, append_last in E' as [_ E']. contradiction.
Qed.

Lemma endswith_app (suffix x : string) : endswith suffix (x ++ suffix).
Proof.
  now exists x.
Qed.

(** The text after the top of a report with a finding starts with a
    newline. *)
Lemma report_blocks_head (es ws : list string) (rest : string) :
  es <> [] \/ ws <> [] ->
  exists s,
    (errors_block es ++ warnings_block ws) ++ String nl rest = String nl s.
Proof.
  intros H. destruct es as [| e es]; [destruct ws as [| w ws] |].
  - destruct H; congruence.
  - unfold errors_block, warnings_block, warnings_header, nls.
    cbn [append]. eexists. reflexivity.
  - unfold errors_block, errors_header, nls.
    cbn [append]. eexists. reflexivity.
Qed.

Lemma report_text_passed_iff (self : validator) :
  get_report self
  = report_top self
    ++ "Status: PASSED" ++ nls ++ "No issues found." ++ nls ++ report_rule
  <-> errors self = [] /\ warnings self = [].
Proof.
  split; [| intros [He Hw]; now apply get_report_no_finding].
  intros H.
  destruct (errors self) as [| e es] eqn:He, (warnings self) as [| w ws] eqn:Hw;
    [now split | exfalso .. ];
    rewrite get_report_findings in H by (rewrite He, Hw; (now left) || now right);
    rewrite He, Hw in H;
    rewrite !string_append_assoc in H; apply append_inv_l in H;
    unfold errors_block, warnings_block, errors_header, warnings_header, nls in H;
    cbn [append] in H; discriminate H.
Qed.

Lemma report_text_errors_start (self : validator) :
  startswith (report_top self ++ nls ++ "ERRORS (") (get_report self) = true
  <-> errors self <> [].
Proof.
  destruct (errors self) as [| e es] eqn:He.
  - split; [| congruence]. intros H. exfalso.
    destruct (warnings self) as [| w ws] eqn:Hw.
    + rewrite (get_report_no_finding self He Hw), startswith_app in H.
      discriminate H.
    + rewrite get_report_findings in H by (right; congruence).
      rewrite He, Hw, !string_append_assoc, startswith_app in H.
      unfold errors_block, warnings_block, warnings_header, nls in H.
      cbn [append] in H. discriminate H.
  - split; [discriminate |]. intros _.
    rewrite get_report_findings by (left; congruence).
    rewrite He, !string_append_assoc, startswith_app.
    unfold errors_block, errors_header, nls. cbn [append]. reflexivity.
Qed.

Lemma report_text_warnings_start (self : validator) :
  startswith (report_top self ++ errors_block (errors self)
              ++ nls ++ "WARNINGS (") (get_report self) = true
  <-> warnings self <> [].
Proof.
  destruct (warnings self) as [| w ws] eqn:Hw.
  - split; [| congruence]. intros H. exfalso.
    destruct (errors self) as [| e es] eqn:He.
    + rewrite (get_report_no_finding self He Hw) in H.
      cbn [errors_block append] in H. rewrite startswith_app in H.
      discriminate H.
    + rewrite get_report_findings in H by (left; congruence).
      rewrite He, Hw in H. cbn [warnings_block] in H.
      set (Eb := errors_block (e :: es)) in H.
      rewrite !string_append_assoc, startswith_app, startswith_app in H.
      discriminate H.
  - split; [discriminate |]. intros _.
    rewrite get_report_findings by (right; congruence).
    rewrite Hw. set (Eb := errors_block (errors self)).
    rewrite !string_append_assoc, startswith_app, startswith_app.
    unfold warnings_block, warnings_header, nls. cbn [append]. reflexivity.
Qed.

Lemma report_text_failed_end (self : validator) :
  endswith (nls ++ "Status: FAILED" ++ nls ++ report_rule) (get_report self)
  <-> errors self <> [].
Proof.
  destruct (errors self) as [| e es] eqn:He.
  - split; [| congruence]. intros H. exfalso. revert H.
    change (nls ++ "Status: FAILED" ++ nls ++ report_rule)
      with ((nls ++ "Status: FAILE") ++ String "D" (nls ++ report_rule)).
    destruct (warnings self) as [| w ws] eqn:Hw.
    + rewrite (get_report_no_finding self He Hw).
      change ("Status: PASSED" ++ nls ++ "No issues found." ++ nls ++ report_rule)
        with (("Status: PASSED" ++ nls ++ "No issues found")
              ++ String "." (nls ++ report_rule)).
      apply endswith_mismatch. discriminate.
    + rewrite get_report_findings by (right; congruence). rewrite He.
      change ((nls ++ "Status: " ++ "PASSED (with warnings)") ++ nls ++ report_rule)
        with ((nls ++ "Status: PASSED (with warnings")
              ++ String ")" (nls ++ report_rule)).
      apply endswith_mismatch. discriminate.
  - split; [discriminate |]. intros _.
    rewrite get_report_findings by (left; congruence). rewrite He.
    apply endswith_app.
Qed.

Lemma report_text_with_warnings_end (self : validator) :
  endswith (nls ++ "Status: PASSED (with warnings)" ++ nls ++ report_rule)
           (get_report self)
  <-> errors self = [] /\ warnings self <> [].
Proof.
  destruct (errors self) as [| e es] eqn:He.
  - destruct (warnings self) as [| w ws] eqn:Hw.
    + split; [| intros [_ H]; congruence]. intros H. exfalso. revert H.
      change (nls ++ "Status: PASSED (with warnings)" ++ nls ++ report_rule)
        with ((nls ++ "Status: PASSED (with warnings")
              ++ String ")" (nls ++ report_rule)).
      rewrite (get_report_no_finding self He Hw).
      change ("Status: PASSED" ++ nls ++ "No issues found." ++ nls ++ report_rule)
        with (("Status: PASSED" ++ nls ++ "No issues found")
              ++ String "." (nls ++ report_rule)).
      apply endswith_mismatch. discriminate.
    + split; [intros _; split; [reflexivity | discriminate] |]. intros _.
      rewrite get_report_findings by (right; congruence). rewrite He.
      apply endswith_app.
  - split; [| intros [H _]; discriminate H]. intros H. exfalso. revert H.
    change (nls ++ "Status: PASSED (with warnings)" ++ nls ++ report_rule)
      with ((nls ++ "Status: PASSED (with warnings")
            ++ String ")" (nls ++ report_rule)).
    rewrite get_report_findings by (left; congruence). rewrite He.
    change ((nls ++ "Status: " ++ "FAILED") ++ nls ++ report_rule)
      with ((nls ++ "Status: FAILE") ++ String "D" (nls ++ report_rule)).
    apply endswith_mismatch. discriminate.
Qed.

(** C8: the text of the report.  It is the form "Status: PASSED", "No
    issues found." exactly when there is neither error nor warning.
    Otherwise it is the top, then an "ERRORS (n)" block with a bullet line
    for each error when there are errors and nothing in its place when
    there are none, then a "WARNINGS (n)" block likewise, then the status
    line, which reads "FAILED" when there is an error and "PASSED (with
    warnings)" when there is none, then the rule.  So the text goes on
    after the top with an errors block exactly when there are errors, it
    goes on after the errors block with a warnings block exactly when
    there are warnings, it ends with the "FAILED" status exactly when
    there is an error, and with the "PASSED (with warnings)" status
    exactly when there are warnings and no error. *)
Theorem C8_report_form (self : validator) :
  let es := errors self in
  let ws := warnings self in
  (get_report self
   = report_top self
     ++ "Status: PASSED" ++ nls ++ "No issues found." ++ nls ++ report_rule
   <-> es = [] /\ ws = [])
  /\ (es <> [] \/ ws <> [] ->
      get_report self
      = report_top self
        ++ errors_block es
        ++ warnings_block ws
        ++ nls ++ "Status: "
        ++ match es with
           | [] => "PASSED (with warnings)"
           | _ :: _ => "FAILED"
           end
        ++ nls ++ report_rule)
  /\ (startswith (report_top self ++ nls ++ "ERRORS (") (get_report self) = true
      <-> es <> [])
  /\ (startswith (report_top self ++ errors_block es ++ nls ++ "WARNINGS (")
                 (get_report self) = true
      <-> ws <> [])
  /\ (endswith (nls ++ "Status: FAILED" ++ nls ++ report_rule) (get_report self)
      <-> es <> [])
  /\ (endswith (nls ++ "Status: PASSED (with warnings)" ++ nls ++ report_rule)
               (get_report self)
      <-> es = [] /\ ws <> []).
Proof.
  cbv zeta.
  split; [apply report_text_passed_iff |].
  split.
  { intros H. rewrite (get_report_findings self H).
    now rewrite !string_append_assoc. }
  split; [apply report_text_errors_start |].
  split; [apply report_text_warnings_start |].
  split; [apply report_text_failed_end | apply report_text_with_warnings_end].
Qed.

(** ** Scenarios *)

(** A document without title: one error, at line 1, and the pass fails. *)
Example scenario_no_title :
  let out := validate (fun _ => Returns ("Title" ++ nls)) (init doc_path) in
  fst out = false
  /\ errors (snd out) = ["Line 1: File should start with H1 title (# Title)"].
Proof.
  cbv zeta. split; vm_compute; reflexivity.
Qed.

(** A single fence line that nothing closes. *)
Example scenario_unclosed_block :
  new_errors validate_code_blocks (loaded "```python")
  = ["Line 1: Unclosed code block"].
Proof.
  reflexivity.
Qed.

(** Blank lines in a text: [split] gives one line more than the text has
    newlines, so a text of two newlines only is three blank lines. *)
Example scenario_blank_lines :
  new_warnings validate_consecutive_blank_lines
    (loaded (nls ++ nls ++ nls ++ "content" ++ nls))
  = ["Line 3: More than 2 consecutive blank lines"]
  /\ new_warnings validate_consecutive_blank_lines (loaded (nls ++ "content"))
     = []
  /\ lines (loaded (nls ++ nls)) = [""; ""; ""].
Proof.
  repeat split; reflexivity.
Qed.

(* ================================================================== *)
(** * Further properties *)

(** ** Reading the file *)

Lemma split_lines_cons (s : string) : exists h t, split_lines s = h :: t.
Proof.
  destruct s as [| c s]; simpl; [now exists "", [] |].
  destruct (Ascii.eqb c nl); [now eexists; eexists |].
  destruct (split_lines s); now eexists; eexists.
Qed.

Lemma join_cons_cons (sep x y : string) (t : list string) :
  join sep (x :: y :: t) = x ++ sep ++ join sep (y :: t).
Proof.
  reflexivity.
Qed.

Lemma join_split_lines (s : string) : join nls (split_lines s) = s.
Proof.
  induction s as [| c s IH]; [reflexivity |].
  simpl. destruct (split_lines_cons s) as (h & t & E). rewrite E in *.
  destruct (Ascii.eqb c nl) eqn:C.
  - apply Ascii.eqb_eq in C. subst c.
    rewrite join_cons_cons, IH. reflexivity.
  - destruct t as [| y t].
    + simpl in *. now rewrite IH.
    + rewrite join_cons_cons. rewrite join_cons_cons in IH.
      rewrite <- IH. reflexivity.
Qed.

Lemma split_lines_no_newline (s l : string) :
  In l (split_lines s) -> no_newline l = true.
Proof.
  revert l. induction s as [| c s IH]; simpl; intros l H.
  - destruct H as [<- | []]. reflexivity.
  - destruct (Ascii.eqb c nl) eqn:C.
    + destruct H as [<- | H]; [reflexivity | auto].
    + destruct (split_lines s) as [| h t]; simpl in H.
      * destruct H as [<- | []]. unfold no_newline, any_char. simpl.
        now rewrite C.
      * destruct H as [<- | H].
        -- unfold no_newline, any_char in *. simpl. rewrite C. simpl.
           apply IH. now left.
        -- apply IH. now right.
Qed.

Lemma split_lines_length (s : string) :
  List.length (split_lines s) = S (count_newlines s).
Proof.
  induction s as [| c s IH]; simpl; [reflexivity |].
  destruct (Ascii.eqb c nl); simpl; [now rewrite IH |].
  destruct (split_lines s); simpl in *; lia.
Qed.

Lemma split_lines_join (ls : list string) :
  ls <> [] ->
  (forall l, In l ls -> no_newline l = true) ->
  split_lines (join nls ls) = ls.
Proof.
  induction ls as [| x ls IH]; [congruence |].
  intros _ H.
  assert (Hx : no_newline x = true) by (apply H; now left).
  assert (Hls : forall l, In l ls -> no_newline l = true)
    by (intros l Hl; apply H; now right).
  destruct ls as [| y t].
  - simpl. clear IH H Hls. induction x as [| c x IHx]; [reflexivity |].
    unfold no_newline, any_char in Hx. simpl in Hx.
    apply andb_prop in Hx as [Hc Hx]. apply negb_true_iff in Hc.
    simpl. rewrite Hc. now rewrite (IHx Hx).
  - rewrite join_cons_cons.
    assert (IH' : split_lines (join nls (y :: t)) = y :: t)
      by (apply IH; [discriminate | exact Hls]).
    clear IH H Hls. induction x as [| c x IHx].
    + change ("" ++ nls ++ join nls (y :: t))
        with (String nl (join nls (y :: t))).
      cbn [split_lines]. now rewrite Ascii.eqb_refl, IH'.
    + unfold no_newline, any_char in Hx. simpl in Hx.
      apply andb_prop in Hx as [Hc Hx]. apply negb_true_iff in Hc.
      cbn [String.append split_lines]. rewrite Hc.
      now rewrite (IHx Hx).
Qed.

(** X1: after a successful read, the object holds the text and its lines:
    joining the lines with newlines gives the text back, no line holds a
    newline, there is one line more than the text has newlines (so one line
    at least), and the findings are untouched. *)
Theorem X1_read_file_lines (fs : filesystem) (self : validator) (text : string) :
  fs (file_path self) = Returns text ->
  let out := snd (read_file fs self) in
  fst (read_file fs self) = true
  /\ content out = text
  /\ join nls (lines out) = text
  /\ (forall l, In l (lines out) -> no_newline l = true)
  /\ List.length (lines out) = S (count_newlines text)
  /\ file_path out = file_path self
  /\ errors out = errors self
  /\ warnings out = warnings self.
Proof.
  intros H. unfold read_file. rewrite H. cbn [fst snd content lines].
  split; [reflexivity |]. split; [reflexivity |].
  split; [apply join_split_lines |].
  split; [apply split_lines_no_newline |].
  split; [apply split_lines_length |].
  repeat split.
Qed.

Lemma X1_read_file_lines_witness :
  (fun _ : Path => Returns ("# T" ++ nls ++ "text")) (file_path (init doc_path))
  = Returns ("# T" ++ nls ++ "text")
  /\ List.length
       (lines (snd (read_file (fun _ => Returns ("# T" ++ nls ++ "text"))
                              (init doc_path))))
     = 2.
Proof.
  split; [reflexivity |].
  pose proof (X1_read_file_lines (fun _ => Returns ("# T" ++ nls ++ "text"))
                (init doc_path) ("# T" ++ nls ++ "text") eq_refl) as H.
  cbv zeta in H. destruct H as (_ & _ & _ & _ & H & _). exact H.
Defined.

(** X2: splitting is the inverse of joining: any sequence of lines, one at
    least and none with a newline, is the line sequence of the text that
    joins them with newlines. *)
Theorem X2_lines_of_joined_text (fs : filesystem) (self : validator)
        (ls : list string) :
  ls <> [] ->
  (forall l, In l ls -> no_newline l = true) ->
  fs (file_path self) = Returns (join nls ls) ->
  lines (snd (read_file fs self)) = ls.
Proof.
  intros Hne Hnl H. unfold read_file. rewrite H. cbn [snd lines].
  now apply split_lines_join.
Qed.

Lemma X2_lines_of_joined_text_witness :
  ["a"; ""; "b"] <> []
  /\ (forall l, In l ["a"; ""; "b"] -> no_newline l = true)
  /\ lines (snd (read_file (fun _ => Returns (join nls ["a"; ""; "b"]))
                           (init doc_path)))
     = ["a"; ""; "b"].
Proof.
  assert (N : ["a"; ""; "b"] <> []) by discriminate.
  assert (L : forall l, In l ["a"; ""; "b"] -> no_newline l = true).
  { intros l [<- | [<- | [<- | []]]]; reflexivity. }
  split; [exact N |]. split; [exact L |].
  exact (X2_lines_of_joined_text (fun _ => Returns (join nls ["a"; ""; "b"]))
           (init doc_path) ["a"; ""; "b"] N L eq_refl).
Defined.

(** ** What every check does to the object *)

Lemma add_findings_nil (x : validator) : add_findings [] [] x = x.
Proof.
  destruct x. unfold add_findings. simpl. now rewrite !List.app_nil_r.
Qed.

Lemma add_findings_add (E1 W1 E2 W2 : list string) (x : validator) :
  add_findings E2 W2 (add_findings E1 W1 x)
  = add_findings (List.app E1 E2) (List.app W1 W2) x.
Proof.
  unfold add_findings. simpl. now rewrite !List.app_assoc.
Qed.

Lemma append_error_add (m : string) (x : validator) :
  append_error m x = add_findings [m] [] x.
Proof.
  unfold append_error, add_findings, list_append. now rewrite List.app_nil_r.
Qed.

Lemma append_warning_add (m : string) (x : validator) :
  append_warning m x = add_findings [] [m] x.
Proof.
  unfold append_warning, add_findings, list_append. now rewrite List.app_nil_r.
Qed.

Lemma any_findings_app (a b : list string) :
  any_findings a -> any_findings b -> any_findings (List.app a b).
Proof.
  constructor.
Qed.

Lemma no_findings_app (a b : list string) :
  no_findings a -> no_findings b -> no_findings (List.app a b).
Proof.
  unfold no_findings. now intros -> ->.
Qed.

Create HintDb findings.

#[local] Hint Resolve any_findings_app no_findings_app : findings.
#[local] Hint Extern 1 (any_findings _) => exact I : findings.
#[local] Hint Extern 1 (no_findings _) => reflexivity : findings.

Section Loop.

Variables St L Item : Type.
Variable pack : L -> validator -> St.
Variable step : St -> Item -> St.
Variables PE PW : list string -> Prop.
Hypothesis PE_nil : PE [].
Hypothesis PW_nil : PW [].
Hypothesis PE_app : forall a b, PE a -> PE b -> PE (List.app a b).
Hypothesis PW_app : forall a b, PW a -> PW b -> PW (List.app a b).
Hypothesis step_adds :
  forall l item,
  exists l' E W,
    PE E /\ PW W
    /\ forall x, step (pack l x) item = pack l' (add_findings E W x).

Lemma loop_adds (items : list Item) :
  forall l,
  exists l' E W,
    PE E /\ PW W
    /\ forall x, fold_left step items (pack l x) = pack l' (add_findings E W x).
Proof.
  induction items as [| it items IH]; intros l.
  - exists l, [], []. split; [exact PE_nil |]. split; [exact PW_nil |].
    intros x. simpl. now rewrite add_findings_nil.
  - destruct (step_adds l it) as (l1 & E1 & W1 & HE1 & HW1 & H1).
    destruct (IH l1) as (l2 & E2 & W2 & HE2 & HW2 & H2).
    exists l2, (List.app E1 E2), (List.app W1 W2).
    split; [now apply PE_app |]. split; [now apply PW_app |].
    intros x. simpl. now rewrite H1, H2, add_findings_add.
Qed.

End Loop.

(** How the branches of a step are settled: one list of errors and one of
    warnings per branch. *)
Ltac step_adds_branches l :=
  repeat match goal with
         | |- context [if ?c then _ else _] => destruct c
         | |- context [match ?c with Some _ => _ | None => _ end] => destruct c
         end;
  eexists l, _, _;
  (split; [| split;
             [| intros x;
                rewrite ?append_error_add, ?append_warning_add,
                  ?add_findings_add;
                first [ reflexivity
                      | rewrite <- (add_findings_nil x) at 1; reflexivity ] ]]);
  cbn [List.app]; auto with findings.

Lemma h1_title_line_check : line_check any_findings no_findings validate_h1_title.
Proof.
  intros ls. unfold validate_h1_title.
  assert (G : forall items,
             exists E W, any_findings E /\ no_findings W
                         /\ forall x, h1_title_loop items x = add_findings E W x).
  { induction items as [| [i line] items IH]; simpl.
    - exists [], []. repeat split. intros x. now rewrite add_findings_nil.
    - destruct (truthy (strip line)); [| exact IH].
      unfold h1_title_check.
      destruct (negb (startswith "# " line));
        [| destruct (String.eqb (strip line) "#")].
      + exists ["Line " ++ lineno i
                ++ ": File should start with H1 title (# Title)"], [].
        repeat split. intros x. apply append_error_add.
      + exists ["Line " ++ lineno i ++ ": H1 title is empty"], [].
        repeat split. intros x. apply append_error_add.
      + exists [], []. repeat split. intros x. now rewrite add_findings_nil. }
  destruct (G (enumerate ls)) as (E & W & HE & HW & H).
  exists E, W. split; [exact HE |]. split; [exact HW |].
  intros x ->. apply H.
Qed.

Lemma table_of_contents_line_check :
  line_check no_findings any_findings validate_table_of_contents.
Proof.
  intros ls. unfold validate_table_of_contents.
  destruct (negb (existsb
                    (fun line => match pmatch toc_pattern line with
                                 | Some _ => true
                                 | None => false
                                 end) (firstn 20 ls))) eqn:T.
  - exists [], ["No 'Table of Contents' section found in first 20 lines"].
    repeat split. intros x ->. rewrite T. apply append_warning_add.
  - exists [], []. repeat split. intros x ->. rewrite T.
    now rewrite add_findings_nil.
Qed.

(** A loop over the lines whose only state is the object. *)
Lemma simple_loop_line_check (PE PW : list string -> Prop)
      (step : validator -> nat * string -> validator) :
  PE [] -> PW [] ->
  (forall a b, PE a -> PE b -> PE (List.app a b)) ->
  (forall a b, PW a -> PW b -> PW (List.app a b)) ->
  (forall item, exists E W,
      PE E /\ PW W /\ forall x, step x item = add_findings E W x) ->
  line_check PE PW (fun x => fold_left step (enumerate (lines x)) x).
Proof.
  intros HE HW HEa HWa Hstep ls.
  destruct (loop_adds validator unit (nat * string) (fun _ x => x) step PE PW
              HE HW HEa HWa
              (fun _ item =>
                 match Hstep item with
                 | ex_intro _ E (ex_intro _ W H) =>
                     ex_intro _ tt (ex_intro _ E (ex_intro _ W H))
                 end)
              (enumerate ls) tt) as (_ & E & W & HPE & HPW & H).
  exists E, W. split; [exact HPE |]. split; [exact HPW |].
  intros x ->. apply H.
Qed.

Lemma links_line_check : line_check any_findings no_findings validate_links.
Proof.
  apply simple_loop_line_check; auto with findings.
  intros [i line]. unfold links_step.
  destruct (loop_adds validator unit (list string) (fun _ x => x)
              (links_match_step i) any_findings no_findings
              I eq_refl any_findings_app no_findings_app) with
    (items := finditer link_pattern line) (l := tt)
    as (_ & E & W & HE & HW & H).
  - intros _ caps. unfold links_match_step.
    destruct (negb (truthy (node_text 2 caps))),
      (negb (truthy (node_text 5 caps)));
      eexists tt, _, []; (split; [exact I |]); (split; [reflexivity |]);
      intros x; rewrite ?append_error_add, ?add_findings_add;
      first [ reflexivity | symmetry; apply add_findings_nil ].
  - exists E, W. repeat split; auto.
Qed.

Lemma empty_headings_line_check :
  line_check any_findings no_findings validate_empty_headings.
Proof.
  apply simple_loop_line_check; auto with findings.
  intros [i line]. unfold empty_headings_step.
  destruct (pmatch empty_heading_pattern line).
  - eexists _, []. repeat split. intros x. apply append_error_add.
  - exists [], []. repeat split. intros x. symmetry. apply add_findings_nil.
Qed.

Lemma trailing_whitespace_line_check :
  line_check no_findings any_findings validate_trailing_whitespace.
Proof.
  apply simple_loop_line_check; auto with findings.
  intros [i line]. unfold trailing_whitespace_step.
  destruct (negb (String.eqb line (rstrip line))).
  - eexists [], _. repeat split. intros x. apply append_warning_add.
  - exists [], []. repeat split. intros x. symmetry. apply add_findings_nil.
Qed.

Lemma list_formatting_line_check :
  line_check no_findings any_findings validate_list_formatting.
Proof.
  apply simple_loop_line_check; auto with findings.
  intros [i line]. unfold list_formatting_step.
  destruct (pmatch unordered_pattern line) as [c1 |],
    (pmatch ordered_pattern line) as [c2 |];
    repeat match goal with
           | |- context [if ?c then _ else _] => destruct c
           end;
    eexists [], _; (split; [reflexivity |]); (split; [exact I |]);
    intros x; rewrite ?append_warning_add, ?add_findings_add;
    first [ reflexivity | symmetry; apply add_findings_nil ].
Qed.

Lemma headings_hierarchy_line_check :
  line_check no_findings any_findings validate_headings_hierarchy.
Proof.
  intros ls. unfold validate_headings_hierarchy.
  destruct (loop_adds (nat * validator) nat (nat * string) pair
              hierarchy_step no_findings any_findings
              eq_refl I no_findings_app any_findings_app) with
    (items := enumerate ls) (l := 0)
    as (n & E & W & HE & HW & H).
  - intros n [i line]. unfold hierarchy_step.
    destruct (pmatch heading_pattern line) as [caps |].
    + destruct ((n + 1 <? String.length (node_text 1 caps))%nat
                && (0 <? n)%nat).
      * eexists _, [], _. repeat split. intros x.
        now rewrite append_warning_add.
      * eexists _, [], []. repeat split. intros x.
        now rewrite add_findings_nil.
    + exists n, [], []. repeat split. intros x. now rewrite add_findings_nil.
  - exists E, W. split; [exact HE |]. split; [exact HW |].
    intros x ->. now rewrite H.
Qed.

Lemma consecutive_blank_lines_line_check :
  line_check no_findings any_findings validate_consecutive_blank_lines.
Proof.
  intros ls. unfold validate_consecutive_blank_lines.
  destruct (loop_adds (nat * validator) nat (nat * string) pair
              blank_lines_step no_findings any_findings
              eq_refl I no_findings_app any_findings_app) with
    (items := enumerate ls) (l := 0)
    as (n & E & W & HE & HW & H).
  - intros n [i line].
    destruct (is_blank line) eqn:B; [destruct (2 <? n + 1)%nat eqn:T |].
    + eexists (n + 1), [], [blank_lines_warning i]. repeat split. intros x.
      now rewrite blank_lines_step_eq, B, T, append_warning_add.
    + exists (n + 1), [], []. repeat split. intros x.
      now rewrite blank_lines_step_eq, B, T, add_findings_nil.
    + exists 0, [], []. repeat split. intros x.
      now rewrite blank_lines_step_eq, B, add_findings_nil.
  - exists E, W. split; [exact HE |]. split; [exact HW |].
    intros x ->. now rewrite H.
Qed.

Lemma code_blocks_line_check :
  line_check any_findings any_findings validate_code_blocks.
Proof.
  intros ls. unfold validate_code_blocks.
  destruct (loop_adds fence_state (bool * Z) (nat * string)
              (fun l x => mkFence (fst l) (snd l) x)
              code_blocks_step any_findings any_findings
              I I any_findings_app any_findings_app) with
    (items := enumerate ls) (l := (false, (-1)%Z))
    as ([b z] & E & W & HE & HW & H).
  - intros [b z] [i line]. unfold code_blocks_step. cbn [fst snd].
    destruct (startswith "```" line).
    + cbn [in_code_block code_block_start fence_self].
      destruct b; cbn [negb].
      * exists (false, z), [], []. repeat split. intros x.
        now rewrite add_findings_nil.
      * destruct (String.eqb (strip line) "```").
        -- eexists (true, Z.of_nat i), [], _. repeat split. intros x.
           cbn [fst snd]. now rewrite append_warning_add.
        -- exists (true, Z.of_nat i), [], []. repeat split. intros x.
           cbn [fst snd]. now rewrite add_findings_nil.
    + exists (b, z), [], []. repeat split. intros x.
      now rewrite add_findings_nil.
  - cbn [fst snd] in H.
    destruct b.
    + eexists _, W. split; [exact I |]. split; [exact I |].
      intros x ->. rewrite H. cbn [in_code_block code_block_start fence_self].
      rewrite append_error_add, add_findings_add. rewrite List.app_nil_r.
      reflexivity.
    + exists E, W. split; [exact I |]. split; [exact I |].
      intros x ->. rewrite H. reflexivity.
Qed.

Lemma new_findings_add (check : validator -> validator) (x : validator)
      (E W : list string) :
  check x = add_findings E W x ->
  new_errors check x = E /\ new_warnings check x = W.
Proof.
  intros H. unfold new_errors, new_warnings. rewrite H. simpl.
  now rewrite !skipn_length_app.
Qed.

(** A check of that kind, read through [new_errors] and [new_warnings]:
    on any object it appends what it appends on any other object with the
    same lines. *)
Lemma line_check_at (PE PW : list string -> Prop)
      (check : validator -> validator) :
  line_check PE PW check ->
  forall x d, lines x = lines d ->
    check x = add_findings (new_errors check d) (new_warnings check d) x
    /\ PE (new_errors check d) /\ PW (new_warnings check d).
Proof.
  intros Hc x d Hl. destruct (Hc (lines d)) as (E & W & HE & HW & H).
  destruct (new_findings_add check d E W (H d eq_refl)) as [-> ->].
  split; [now apply H |]. now split.
Qed.

Lemma line_check_any (PE PW : list string -> Prop)
      (check : validator -> validator) :
  line_check PE PW check -> line_check any_findings any_findings check.
Proof.
  intros Hc ls. destruct (Hc ls) as (E & W & _ & _ & H).
  exists E, W. now repeat split.
Qed.

Lemma checks_line_checks (check : validator -> validator) :
  In check checks -> line_check any_findings any_findings check.
Proof.
  unfold checks. intros H.
  repeat (destruct H as [<- | H]);
    eauto using line_check_any, h1_title_line_check,
      table_of_contents_line_check, headings_hierarchy_line_check,
      code_blocks_line_check, links_line_check, empty_headings_line_check,
      trailing_whitespace_line_check, consecutive_blank_lines_line_check,
      list_formatting_line_check.
  destruct H.
Qed.

Lemma line_check_after (PE PW : list string -> Prop)
      (check : validator -> validator) :
  line_check PE PW check ->
  forall x d E W, lines x = lines d ->
    check (add_findings E W x)
    = add_findings (List.app E (new_errors check d))
                   (List.app W (new_warnings check d)) x.
Proof.
  intros Hc x d E W Hl.
  destruct (line_check_at _ _ _ Hc (add_findings E W x) d Hl) as (-> & _).
  apply add_findings_add.
Qed.

Lemma severity_of_checks (x : validator) :
  new_errors validate_table_of_contents x = []
  /\ new_errors validate_headings_hierarchy x = []
  /\ new_errors validate_trailing_whitespace x = []
  /\ new_errors validate_consecutive_blank_lines x = []
  /\ new_errors validate_list_formatting x = []
  /\ new_warnings validate_h1_title x = []
  /\ new_warnings validate_links x = []
  /\ new_warnings validate_empty_headings x = [].
Proof.
  repeat split.
  - apply (line_check_at _ _ _ table_of_contents_line_check x x eq_refl).
  - apply (line_check_at _ _ _ headings_hierarchy_line_check x x eq_refl).
  - apply (line_check_at _ _ _ trailing_whitespace_line_check x x eq_refl).
  - apply (line_check_at _ _ _ consecutive_blank_lines_line_check x x eq_refl).
  - apply (line_check_at _ _ _ list_formatting_line_check x x eq_refl).
  - apply (line_check_at _ _ _ h1_title_line_check x x eq_refl).
  - apply (line_check_at _ _ _ links_line_check x x eq_refl).
  - apply (line_check_at _ _ _ empty_headings_line_check x x eq_refl).
Qed.

(** X3: five of the checks never add an error, whatever the document (the
    table-of-contents, heading-hierarchy, trailing-whitespace,
    consecutive-blank-lines and list-formatting checks), and three never
    add a warning (the title, link and empty-headings checks). *)
Theorem X3_severity_of_checks (x : validator) :
  new_errors validate_table_of_contents x = []
  /\ new_errors validate_headings_hierarchy x = []
  /\ new_errors validate_trailing_whitespace x = []
  /\ new_errors validate_consecutive_blank_lines x = []
  /\ new_errors validate_list_formatting x = []
  /\ new_warnings validate_h1_title x = []
  /\ new_warnings validate_links x = []
  /\ new_warnings validate_empty_headings x = [].
Proof.
  apply severity_of_checks.
Qed.

(** X4: each of the nine checks leaves the path, the content, the lines
    and the findings already there as they are, and appends findings that
    depend on the lines alone: on two objects with the same lines it
    appends the same errors and the same warnings. *)
Theorem X4_checks_append_by_lines (check : validator -> validator)
        (x y : validator) :
  In check checks ->
  lines y = lines x ->
  check x = add_findings (new_errors check x) (new_warnings check x) x
  /\ new_errors check y = new_errors check x
  /\ new_warnings check y = new_warnings check x.
Proof.
  intros Hin Hl. pose proof (checks_line_checks _ Hin) as Hc.
  split; [apply (line_check_at _ _ _ Hc x x eq_refl) |].
  apply new_findings_add. apply (line_check_at _ _ _ Hc y x Hl).
Qed.

Lemma X4_checks_append_by_lines_witness :
  In validate_links checks
  /\ lines (append_warning "w" (loaded "[a]()")) = lines (loaded "[a]()")
  /\ new_errors validate_links (append_warning "w" (loaded "[a]()"))
     = new_errors validate_links (loaded "[a]()").
Proof.
  assert (C : In validate_links checks) by (simpl; tauto).
  split; [exact C |]. split; [reflexivity |].
  exact (proj1 (proj2 (X4_checks_append_by_lines validate_links
                         (loaded "[a]()") (append_warning "w" (loaded "[a]()"))
                         C eq_refl))).
Defined.

(** The pass on a file that reads, check by check. *)
Lemma validate_on_text (fs : filesystem) (self : validator)
        (text : string) :
  fs (file_path self) = Returns text ->
  let d := loaded text in
  let E := List.app (new_errors validate_h1_title d)
             (List.app (new_errors validate_code_blocks d)
                (List.app (new_errors validate_links d)
                   (new_errors validate_empty_headings d))) in
  let W := List.app (new_warnings validate_table_of_contents d)
             (List.app (new_warnings validate_headings_hierarchy d)
                (List.app (new_warnings validate_code_blocks d)
                   (List.app (new_warnings validate_trailing_whitespace d)
                      (List.app (new_warnings validate_consecutive_blank_lines d)
                         (new_warnings validate_list_formatting d))))) in
  snd (validate fs self)
  = mkValidator (file_path self) text (split_lines text)
                (List.app (errors self) E) (List.app (warnings self) W)
  /\ (fst (validate fs self) = true <-> errors self = [] /\ E = []).
Proof.
  intros H d E W.
  assert (S : snd (validate fs self)
              = mkValidator (file_path self) text (split_lines text)
                            (List.app (errors self) E)
                            (List.app (warnings self) W)).
  { unfold validate, read_file. rewrite H.
    cbv beta iota zeta delta [negb snd].
    set (x0 := mkValidator (file_path self) text (split_lines text)
                           (errors self) (warnings self)).
    rewrite <- (add_findings_nil x0) at 1.
    erewrite (line_check_after _ _ _ h1_title_line_check x0 d) by reflexivity.
    erewrite (line_check_after _ _ _ table_of_contents_line_check x0 d)
      by reflexivity.
    erewrite (line_check_after _ _ _ headings_hierarchy_line_check x0 d)
      by reflexivity.
    erewrite (line_check_after _ _ _ code_blocks_line_check x0 d)
      by reflexivity.
    erewrite (line_check_after _ _ _ links_line_check x0 d) by reflexivity.
    erewrite (line_check_after _ _ _ empty_headings_line_check x0 d)
      by reflexivity.
    erewrite (line_check_after _ _ _ trailing_whitespace_line_check x0 d)
      by reflexivity.
    erewrite (line_check_after _ _ _ consecutive_blank_lines_line_check x0 d)
      by reflexivity.
    erewrite (line_check_after _ _ _ list_formatting_line_check x0 d)
      by reflexivity.
    destruct (severity_of_checks d)
      as (-> & -> & -> & -> & -> & -> & -> & ->).
    unfold add_findings, x0, E, W. cbn [file_path content lines errors warnings].
    rewrite ?List.app_nil_r. cbn [List.app].
    rewrite <- ?List.app_assoc. reflexivity. }
  split; [exact S |].
  rewrite validate_passed_iff, S. cbn [errors]. split.
  - intros A. apply app_eq_nil in A. exact A.
  - intros [-> ->]. reflexivity.
Qed.

(** X5: the pass on a file that reads: the object gets the text and its
    lines, and its error list grows by the errors of the title,
    code-block, link and empty-headings checks, in that order, its warning
    list by the warnings of the six other-than-title checks that can warn,
    in the order they run; each list of findings is the one the check
    gives on the lines alone.  The pass succeeds exactly when no error was
    there before and these four checks find none. *)
Theorem X5_validate_composition (fs : filesystem) (self : validator)
        (text : string) :
  fs (file_path self) = Returns text ->
  let d := loaded text in
  let E := List.app (new_errors validate_h1_title d)
             (List.app (new_errors validate_code_blocks d)
                (List.app (new_errors validate_links d)
                   (new_errors validate_empty_headings d))) in
  let W := List.app (new_warnings validate_table_of_contents d)
             (List.app (new_warnings validate_headings_hierarchy d)
                (List.app (new_warnings validate_code_blocks d)
                   (List.app (new_warnings validate_trailing_whitespace d)
                      (List.app (new_warnings validate_consecutive_blank_lines d)
                         (new_warnings validate_list_formatting d))))) in
  snd (validate fs self)
  = mkValidator (file_path self) text (split_lines text)
                (List.app (errors self) E) (List.app (warnings self) W)
  /\ (fst (validate fs self) = true <-> errors self = [] /\ E = []).
Proof.
  apply validate_on_text.
Qed.

Lemma X5_validate_composition_witness :
  (fun _ : Path => Returns ("#" ++ nls ++ "[a]()")) (file_path (init doc_path))
  = Returns ("#" ++ nls ++ "[a]()")
  /\ errors (snd (validate (fun _ => Returns ("#" ++ nls ++ "[a]()"))
                           (init doc_path)))
     = ["Line 1: File should start with H1 title (# Title)";
        "Line 2: Empty link URL"; "Line 1: Empty heading found"].
Proof.
  split; [reflexivity |].
  pose proof (X5_validate_composition
                (fun _ => Returns ("#" ++ nls ++ "[a]()")) (init doc_path)
                ("#" ++ nls ++ "[a]()") eq_refl) as H.
  cbv zeta in H. destruct H as [H _]. rewrite H. reflexivity.
Defined.

(** ** The title check, on every document *)

Lemma h1_title_new_errors (self : validator) :
  ((forall l, In l (lines self) -> is_blank l = true)
   /\ new_errors validate_h1_title self = [])
  \/ exists i line,
       first_nonblank_at (lines self) i line
       /\ new_errors validate_h1_title self
          = if negb (startswith "# " line) then
              ["Line " ++ lineno i ++ ": File should start with H1 title (# Title)"]
            else if String.eqb (strip line) "#" then
              ["Line " ++ lineno i ++ ": H1 title is empty"]
            else [].
Proof.
  destruct (h1_title_loop_cases (lines self) 0 self)
    as [[Hall E] | (i & line & Hf & E)].
  - left. split; [exact Hall |].
    unfold new_errors, validate_h1_title, enumerate. rewrite E.
    apply skipn_all.
  - right. exists i, line. split; [exact Hf |].
    apply new_errors_frame.
    exact (eq_trans (f_equal errors E) (h1_title_check_errors _ _ _)).
Qed.

Lemma title_check_silent (self : validator) :
  (new_errors validate_h1_title self = []
   <-> (forall l, In l (lines self) -> is_blank l = true)
       \/ exists i line,
            first_nonblank_at (lines self) i line
            /\ startswith "# " line = true /\ strip line <> "#")
  /\ List.length (new_errors validate_h1_title self) <= 1.
Proof.
  destruct (h1_title_new_errors self) as [[Hall E] | (i & line & Hf & E)].
  - rewrite E. split; [| simpl; lia]. split; [now left | reflexivity].
  - rewrite E. split.
    + split.
      * intros H. right. exists i, line. split; [exact Hf |].
        destruct (startswith "# " line); [| discriminate H].
        split; [reflexivity |].
        destruct (String.eqb_spec (strip line) "#"); [discriminate H | assumption].
      * intros [Hall | (j & l & Hf' & Hs & Hn)].
        -- destruct Hf as (Hn & Hb & _). apply nth_error_In in Hn.
           rewrite (Hall _ Hn) in Hb. discriminate.
        -- destruct (first_nonblank_unique _ _ _ _ _ Hf Hf') as [-> ->].
           rewrite Hs. simpl.
           destruct (String.eqb_spec (strip l) "#"); [contradiction | reflexivity].
    + destruct (negb (startswith "# " line)); [simpl; lia |].
      destruct (String.eqb (strip line) "#"); simpl; lia.
Qed.

(** X6: the title check appends no error exactly when the document has
    no line other than blank ones, or its first non-blank line starts with
    a hash and a space and is not, trimmed, the single hash; it appends one
    error at most. *)
Theorem X6_title_check_silent (self : validator) :
  (new_errors validate_h1_title self = []
   <-> (forall l, In l (lines self) -> is_blank l = true)
       \/ exists i line,
            first_nonblank_at (lines self) i line
            /\ startswith "# " line = true /\ strip line <> "#")
  /\ List.length (new_errors validate_h1_title self) <= 1.
Proof.
  apply title_check_silent.
Qed.

(** ** The table-of-contents check *)

Lemma lits_nocase_match (t s : string) :
  match re_match (lits_nocase t) s with
  | Some _ => true
  | None => false
  end = startswith_nocase t s.
Proof.
  revert s. induction t as [| c t IH]; intros s; [reflexivity |].
  unfold startswith_nocase in *. cbn [lits_nocase lit_nocase re_match].
  destruct s as [| a s]; [reflexivity |].
  cbn [lower_string startswith rep_max span].
  rewrite (Ascii.eqb_sym (lower c) (lower a)).
  destruct (Ascii.eqb (lower a) (lower c)); [| reflexivity].
  cbn [Nat.min backtrack Nat.ltb Nat.leb drop take]. rewrite <- IH.
  destruct (re_match (lits_nocase t) s) as [[caps rest] |]; reflexivity.
Qed.

Lemma In_firstn {A : Type} (n : nat) (l : list A) (x : A) :
  In x (firstn n l) <-> exists i, i < n /\ nth_error l i = Some x.
Proof.
  revert l. induction n as [| n IH]; intros l.
  - simpl. split; [intros [] | intros (i & Hi & _); lia].
  - destruct l as [| a l]; simpl.
    + split; [intros [] | intros (i & _ & H); destruct i; discriminate].
    + rewrite IH. split.
      * intros [-> | (i & Hi & H)]; [exists 0 | exists (S i)];
          (split; [lia | assumption || reflexivity]).
      * intros ([| i] & Hi & H); simpl in H.
        -- left. now injection H.
        -- right. exists i. split; [lia | exact H].
Qed.

Lemma toc_pattern_matches (line : string) :
  match pmatch toc_pattern line with
  | Some _ => true
  | None => false
  end = startswith_nocase "## Table of Contents" line.
Proof.
  rewrite <- lits_nocase_match. unfold pmatch. fold toc_pattern.
  now destruct (re_match toc_pattern line) as [[? ?] |].
Qed.

Lemma table_of_contents_found (ls : list string) :
  existsb (fun line => match pmatch toc_pattern line with
                       | Some _ => true
                       | None => false
                       end) (firstn 20 ls) = true
  <-> exists i line,
        i < 20 /\ nth_error ls i = Some line
        /\ startswith_nocase "## Table of Contents" line = true.
Proof.
  rewrite existsb_exists. split.
  - intros (line & Hin & Hm). apply In_firstn in Hin as (i & Hi & Hn).
    exists i, line. split; [exact Hi |]. split; [exact Hn |].
    now rewrite <- toc_pattern_matches.
  - intros (i & line & Hi & Hn & Hs). exists line.
    split; [apply In_firstn; now exists i |].
    now rewrite toc_pattern_matches.
Qed.

Lemma table_of_contents_warnings (self : validator) :
  new_warnings validate_table_of_contents self
  = if existsb (fun line => match pmatch toc_pattern line with
                            | Some _ => true
                            | None => false
                            end) (firstn 20 (lines self))
    then []
    else ["No 'Table of Contents' section found in first 20 lines"].
Proof.
  apply new_warnings_frame. unfold validate_table_of_contents.
  destruct (existsb _ _); cbn [negb];
    [now rewrite List.app_nil_r | reflexivity].
Qed.

(** X7: the table-of-contents check looks at the first 20 lines only.  It
    appends nothing when one of them starts with the text
    "## Table of Contents", letter case apart, and otherwise one warning
    that carries no line number; it never appends an error. *)
Theorem X7_table_of_contents (self : validator) :
  (new_warnings validate_table_of_contents self = []
   <-> exists i line,
         i < 20 /\ nth_error (lines self) i = Some line
         /\ startswith_nocase "## Table of Contents" line = true)
  /\ (new_warnings validate_table_of_contents self <> [] ->
      new_warnings validate_table_of_contents self
      = ["No 'Table of Contents' section found in first 20 lines"])
  /\ new_errors validate_table_of_contents self = [].
Proof.
  split; [| split].
  - rewrite table_of_contents_warnings, <- table_of_contents_found.
    destruct (existsb _ _); split; congruence.
  - rewrite table_of_contents_warnings. destruct (existsb _ _); congruence.
  - apply (line_check_at _ _ _ table_of_contents_line_check self self eq_refl).
Qed.

(** ** The empty-headings check, on every line *)

Lemma all_chars_span (cls : ascii -> bool) (s : string) :
  all_chars cls s = true -> span cls s = String.length s.
Proof.
  induction s as [| c s IH]; simpl; [reflexivity |].
  intros H. apply andb_prop in H as [Hc Hs]. rewrite Hc. now rewrite IH.
Qed.

Lemma drop_all (s : string) : drop (String.length s) s = "".
Proof.
  induction s as [| c s IH]; simpl; auto.
Qed.

Lemma empty_heading_matches (line : string) :
  empty_heading_line line -> pmatch empty_heading_pattern line <> None.
Proof.
  intros [Hk Hs] N. unfold pmatch, empty_heading_pattern in N.
  destruct (re_match _ line) as [[? ?] |] eqn:M; [discriminate |]. clear N.
  pose proof (re_match_rep_none _ _ _ _ _ M (span is_hash line)) as M1.
  assert (B1 : 1 <= span is_hash line <= rep_max is_hash (Some 6) line)
    by (unfold rep_max; lia).
  specialize (M1 B1).
  set (d := drop (span is_hash line) line) in *.
  pose proof (re_match_rep_none _ _ _ _ _ M1 (span isspace d)) as M2.
  assert (B2 : 0 <= span isspace d <= rep_max isspace None d)
    by (unfold rep_max; lia).
  specialize (M2 B2).
  rewrite (all_chars_span _ _ Hs), drop_all in M2. discriminate M2.
Qed.

(** X8: the empty-headings check reports the line of index [i] exactly
    when that line is one to six hashes followed by nothing but whitespace;
    a line of seven hashes or more is not reported. *)
Theorem X8_empty_heading_lines (self : validator) (i : nat) :
  In ("Line " ++ lineno i ++ ": Empty heading found")
     (new_errors validate_empty_headings self)
  <-> exists line,
        nth_error (lines self) i = Some line /\ empty_heading_line line.
Proof.
  split.
  - intros H.
    destruct (empty_heading_finding self i) as (line & caps & Hn & Hm).
    { now exists "Empty heading found". }
    exists line. split; [exact Hn |].
    destruct (empty_heading_shape _ _ Hm) as (Hk & _ & Hs). now split.
  - intros (line & Hn & Hl).
    rewrite validate_empty_headings_errors. apply in_flat_map.
    exists (i, line). split; [now apply enumerate_In |].
    unfold empty_headings_emitted. cbn [fst snd].
    pose proof (empty_heading_matches _ Hl) as Hm.
    destruct (pmatch empty_heading_pattern line); [now left | congruence].
Qed.

(** ** The trailing-whitespace check, on every line *)

Lemma rstrip_fixed (s : string) : rstrip s = s <-> ends_with_space s = false.
Proof.
  induction s as [| c s IH]; [now split |].
  destruct s as [| d s].
  - simpl. destruct (isspace c); split; congruence.
  - change (ends_with_space (String c (String d s)))
      with (ends_with_space (String d s)).
    rewrite <- IH. clear IH. remember (String d s) as t eqn:Et.
    change (rstrip (String c t))
      with (match rstrip t with
            | "" => if isspace c then "" else String c ""
            | String a r => String c (String a r)
            end).
    destruct (rstrip t) as [| e r] eqn:R.
    + subst t. destruct (isspace c); split; intros H; discriminate H.
    + split; [intros [= H]; exact H | intros ->; reflexivity].
Qed.

(** X9: the trailing-whitespace check warns about the line of index [i]
    exactly when the last character of that line is a whitespace
    character. *)
Theorem X9_trailing_whitespace_lines (self : validator) (i : nat) :
  In ("Line " ++ lineno i ++ ": Trailing whitespace detected")
     (new_warnings validate_trailing_whitespace self)
  <-> exists line,
        nth_error (lines self) i = Some line /\ ends_with_space line = true.
Proof.
  rewrite validate_trailing_whitespace_warnings, in_flat_map. split.
  - intros ([j line] & Hj & H). apply enumerate_In in Hj.
    unfold trailing_whitespace_emitted in H. cbn [fst snd] in H.
    destruct (String.eqb_spec line (rstrip line)) as [E | NE];
      cbn [negb In] in H; [destruct H |].
    destruct H as [H | []].
    apply (line_message_inj j i "Trailing whitespace detected"
             "Trailing whitespace detected") in H as [-> _].
    exists line. split; [exact Hj |].
    destruct (ends_with_space line) eqn:W; [reflexivity |].
    apply rstrip_fixed in W. congruence.
  - intros (line & Hn & Hw). exists (i, line).
    split; [now apply enumerate_In |].
    unfold trailing_whitespace_emitted. cbn [fst snd].
    destruct (String.eqb_spec line (rstrip line)) as [E | NE]; [| now left].
    symmetry in E. apply rstrip_fixed in E. congruence.
Qed.

(** ** The heading-hierarchy check *)

Lemma all_chars_drop (cls : ascii -> bool) (k : nat) (s : string) :
  all_chars cls s = true -> all_chars cls (drop k s) = true.
Proof.
  revert s. induction k as [| k IH]; intros [| c s] H; simpl in *; auto.
  apply andb_prop in H as [_ H]. auto.
Qed.

Lemma span_pos (cls : ascii -> bool) (s : string) :
  1 <= span cls s -> exists a s', s = String a s' /\ cls a = true.
Proof.
  destruct s as [| a s']; simpl; [lia |].
  destruct (cls a) eqn:E; [| lia]. intros _. now exists a, s'.
Qed.

(** What a match of the heading pattern says of the line. *)
Lemma heading_level_shape (line : string) (k : nat) :
  heading_level line = Some k ->
  k = span is_hash line /\ heading_line line.
Proof.
  unfold heading_level, pmatch, heading_pattern.
  destruct (re_match _ line) as [[caps rest] |] eqn:M; [| discriminate].
  apply re_match_rep in M as (k1 & c1 & Hk1 & M & ->).
  apply re_match_rep in M as (k2 & c2 & Hk2 & M & ->).
  apply re_match_rep in M as (k3 & c3 & Hk3 & _).
  unfold rep_max in Hk1, Hk2, Hk3.
  unfold node_text. cbn [Nat.pred nth]. intros [= <-].
  assert (E : k1 = span is_hash line).
  { destruct (Nat.eq_dec k1 (span is_hash line)) as [E | NE]; [exact E |].
    rewrite no_space_inside_hashes in Hk2 by lia. lia. }
  rewrite take_length by (rewrite E; apply span_le_length).
  split; [exact E |]. subst k1. split; [lia |].
  set (d := drop (span is_hash line) line) in *.
  destruct (span_pos isspace d) as (a & d' & Ed & Ha); [lia |].
  pose proof (span_le_length any_char (drop k2 d)) as L3.
  rewrite drop_length in L3.
  assert (Ld : String.length d = S (String.length d'))
    by (rewrite Ed; reflexivity).
  destruct d' as [| b rest']; [simpl in Ld; lia |].
  now exists a, b, rest'.
Qed.

Lemma heading_line_matches (line : string) :
  no_newline line = true -> heading_line line ->
  heading_level line = Some (span is_hash line).
Proof.
  intros Hnl (Hk & a & b & rest & Ed & Ha).
  destruct (heading_level line) as [k |] eqn:E.
  - now destruct (heading_level_shape _ _ E) as [-> _].
  - exfalso. unfold heading_level, pmatch, heading_pattern in E.
    destruct (re_match _ line) as [[? ?] |] eqn:M; [discriminate |]. clear E.
    assert (B1 : 1 <= span is_hash line <= rep_max is_hash (Some 6) line)
      by (unfold rep_max; lia).
    pose proof (re_match_rep_none _ _ _ _ _ M _ B1) as M1.
    assert (B2 : 1 <= 1 <= rep_max isspace None
                               (drop (span is_hash line) line)).
    { unfold rep_max. rewrite Ed. simpl. rewrite Ha. lia. }
    pose proof (re_match_rep_none _ _ _ _ _ M1 _ B2) as M2.
    rewrite Ed in M2. cbn [drop] in M2.
    assert (A : all_chars any_char (String b rest) = true).
    { pose proof (all_chars_drop any_char (span is_hash line) line Hnl) as A.
      rewrite Ed in A. simpl in A. now apply andb_prop in A as [_ A]. }
    assert (B3 : 1 <= span any_char (String b rest)
                 <= rep_max any_char None (String b rest)).
    { unfold rep_max. rewrite (all_chars_span _ _ A). simpl. lia. }
    pose proof (re_match_rep_none _ _ _ _ _ M2 _ B3) as M3.
    discriminate M3.
Qed.

(** X10: for a line without newline, as every line of a document is, the
    hierarchy check takes the line for a heading exactly when it is one to
    six hashes, a whitespace character and one character more at least;
    the level is the number of hashes the line starts with.  So a line of
    seven hashes, or one with text right after the hashes, is no
    heading. *)
Theorem X10_heading_lines (line : string) (k : nat) :
  no_newline line = true ->
  (heading_level line = Some k
   <-> k = span is_hash line /\ heading_line line).
Proof.
  intros Hnl. split.
  - apply heading_level_shape.
  - intros [-> H]. now apply heading_line_matches.
Qed.

Lemma X10_heading_lines_witness :
  no_newline "## Setup" = true
  /\ (heading_level "## Setup" = Some 2
      <-> 2 = span is_hash "## Setup" /\ heading_line "## Setup").
Proof.
  split; [reflexivity |].
  exact (X10_heading_lines "## Setup" 2 eq_refl).
Defined.

Lemma previous_heading_level_app (pre ls : list string) :
  previous_heading_level (pre ++ ls)%list (List.length pre)
  = previous_heading_level pre (List.length pre).
Proof.
  unfold previous_heading_level.
  rewrite <- (Nat.add_0_r (List.length pre)) at 1.
  rewrite firstn_app_2, firstn_all. simpl. now rewrite List.app_nil_r.
Qed.

Lemma previous_heading_level_snoc (pre : list string) (l : string) :
  previous_heading_level (pre ++ [l])%list (List.length (pre ++ [l])%list)
  = match heading_level l with
    | Some c => c
    | None => previous_heading_level pre (List.length pre)
    end.
Proof.
  unfold previous_heading_level. rewrite !firstn_all, rev_unit.
  cbn [find]. destruct (heading_level l) eqn:E; [now rewrite E | reflexivity].
Qed.

Lemma hierarchy_warning_middle (pre ls : list string) (l : string) :
  hierarchy_warning (pre ++ l :: ls)%list (List.length pre)
  = match heading_level l with
    | Some c =>
        let p := previous_heading_level pre (List.length pre) in
        if (p + 1 <? c)%nat && (0 <? p)%nat then
          ["Line " ++ lineno (List.length pre) ++ ": Heading level skipped (H"
           ++ str_int (Z.of_nat p) ++ " -> H" ++ str_int (Z.of_nat c) ++ ")"]
        else []
    | None => []
    end.
Proof.
  unfold hierarchy_warning.
  rewrite nth_error_app2, Nat.sub_diag by lia. simpl.
  now rewrite previous_heading_level_app.
Qed.

Lemma hierarchy_step_eq (n i : nat) (l : string) (self : validator) :
  hierarchy_step (n, self) (i, l)
  = match heading_level l with
    | Some c =>
        (c,
         if (n + 1 <? c)%nat && (0 <? n)%nat then
           append_warning
             ("Line " ++ lineno i ++ ": Heading level skipped (H"
              ++ str_int (Z.of_nat n) ++ " -> H" ++ str_int (Z.of_nat c) ++ ")")
             self
         else self)
    | None => (n, self)
    end.
Proof.
  unfold hierarchy_step, heading_level.
  destruct (pmatch heading_pattern l); reflexivity.
Qed.

(** The loop of [validate_headings_hierarchy], started after the lines
    [pre] with the level of the last heading among them. *)
Lemma hierarchy_fold (ls : list string) :
  forall (pre : list string) (self : validator),
    warnings (snd (fold_left hierarchy_step
                     (enumerate_from (List.length pre) ls)
                     (previous_heading_level pre (List.length pre), self)))
    = List.app (warnings self)
        (flat_map (hierarchy_warning (pre ++ ls)%list)
                  (seq (List.length pre) (List.length ls))).
Proof.
  induction ls as [| l ls IH]; intros pre self.
  - simpl. now rewrite List.app_nil_r.
  - cbn [enumerate_from fold_left List.length seq flat_map].
    rewrite hierarchy_step_eq, hierarchy_warning_middle.
    assert (EL : ((pre ++ [l]) ++ ls)%list = (pre ++ l :: ls)%list)
      by now rewrite <- List.app_assoc.
    assert (Ek : List.length (pre ++ [l])%list = S (List.length pre))
      by (rewrite List.length_app; simpl; lia).
    pose proof (previous_heading_level_snoc pre l) as P.
    pose proof (IH (pre ++ [l])%list) as IH'.
    rewrite EL, Ek in IH'. rewrite Ek in P.
    destruct (heading_level l) as [c |]; rewrite P in IH'.
    + cbv zeta.
      destruct ((previous_heading_level pre (List.length pre) + 1 <? c)%nat
                && (0 <? previous_heading_level pre (List.length pre))%nat).
      * rewrite IH'. cbn [warnings append_warning]. unfold list_append.
        now rewrite <- List.app_assoc.
      * now rewrite IH'.
    + now rewrite IH'.
Qed.

(** X11: the heading-hierarchy check warns about the line of index [i]
    exactly when that line is a heading of some level [c], a heading stands
    above it, and the nearest one above has a level [p] with [p + 1 < c];
    it appends these warnings in the order of the lines, one per line at
    most, and the first heading of a document never gets one. *)
Theorem X11_hierarchy_warnings (self : validator) :
  new_warnings validate_headings_hierarchy self
  = flat_map (hierarchy_warning (lines self))
             (seq 0 (List.length (lines self)))
  /\ forall i, previous_heading_level (lines self) i = 0 ->
               hierarchy_warning (lines self) i = [].
Proof.
  split.
  - apply new_warnings_frame. unfold validate_headings_hierarchy, enumerate.
    exact (hierarchy_fold (lines self) [] self).
  - intros i H. unfold hierarchy_warning. rewrite H.
    destruct (nth_error (lines self) i); [| reflexivity].
    destruct (heading_level s); [| reflexivity].
    cbv zeta. now rewrite andb_false_r.
Qed.

(** ** The warnings of the code-block check *)

Lemma count_fences_app (a b : list string) :
  count_fences (a ++ b)%list = count_fences a + count_fences b.
Proof.
  unfold count_fences. now rewrite filter_app, List.length_app.
Qed.

Lemma bare_opening_fence_middle (pre ls : list string) (l : string) :
  bare_opening_fence (pre ++ l :: ls)%list (List.length pre)
  = is_fence l && Nat.even (count_fences pre) && String.eqb (strip l) "```".
Proof.
  unfold bare_opening_fence.
  rewrite nth_error_app2, Nat.sub_diag by lia. cbn [nth_error].
  rewrite <- (Nat.add_0_r (List.length pre)) at 1.
  rewrite firstn_app_2. cbn [firstn]. now rewrite List.app_nil_r.
Qed.

Lemma code_blocks_warnings_fold (ls : list string) :
  forall (pre : list string) (st : fence_state),
    in_code_block st = Nat.odd (count_fences pre) ->
    warnings (fence_self (fold_left code_blocks_step
                            (enumerate_from (List.length pre) ls) st))
    = List.app (warnings (fence_self st))
        (map code_block_warning
           (filter (bare_opening_fence (pre ++ ls)%list)
                   (seq (List.length pre) (List.length ls)))).
Proof.
  induction ls as [| l ls IH]; intros pre st Hin.
  - simpl. now rewrite List.app_nil_r.
  - cbn [enumerate_from fold_left List.length seq filter].
    rewrite bare_opening_fence_middle.
    assert (EL : ((pre ++ [l]) ++ ls)%list = (pre ++ l :: ls)%list)
      by now rewrite <- List.app_assoc.
    assert (Ek : List.length (pre ++ [l])%list = S (List.length pre))
      by (rewrite List.length_app; simpl; lia).
    assert (Ec : count_fences (pre ++ [l])%list
                 = count_fences pre + if is_fence l then 1 else 0).
    { rewrite count_fences_app. f_equal. unfold count_fences. simpl.
      now destruct (is_fence l). }
    pose proof (IH (pre ++ [l])%list (code_blocks_step st (List.length pre, l)))
      as IH'.
    rewrite EL, Ek, Ec in IH'.
    destruct (is_fence l) eqn:F.
    + destruct (code_blocks_step_fence st (List.length pre) l F) as (S1 & _ & _).
      rewrite IH' by (rewrite S1, Hin, Nat.add_1_r, Nat.odd_succ,
                        <- Nat.negb_odd; reflexivity).
      unfold code_blocks_step. unfold is_fence in F. rewrite F, Hin.
      rewrite <- Nat.negb_odd. cbn [andb].
      destruct (Nat.odd (count_fences pre)); cbn [negb andb fence_self];
        [reflexivity |].
      destruct (String.eqb (strip l) "```"); [| reflexivity].
      cbn [warnings append_warning map]. unfold list_append.
      now rewrite <- List.app_assoc.
    + rewrite (code_blocks_step_other st _ l F) in IH' |- *.
      rewrite IH' by (rewrite Hin, Nat.add_0_r; reflexivity).
      reflexivity.
Qed.

(** X12: the code-block check warns "Code block without language
    identifier" about the lines that open a block and are, trimmed, the
    three backticks alone, once each, in the order of the lines; a fence
    that closes a block never gets the warning. *)
Theorem X12_code_block_warnings (self : validator) :
  new_warnings validate_code_blocks self
  = map code_block_warning
      (filter (bare_opening_fence (lines self))
              (seq 0 (List.length (lines self)))).
Proof.
  apply new_warnings_frame. unfold validate_code_blocks, enumerate.
  pose proof (code_blocks_warnings_fold (lines self) []
                (mkFence false (-1) self) eq_refl) as H.
  cbn [List.length List.app fence_self] in H.
  destruct (in_code_block _); [cbn [warnings append_error] |]; exact H.
Qed.

(** ** The list-formatting check *)

(** In a pattern that starts with any number of [\s] and goes on with a
    character that is no whitespace, the first node takes all the leading
    whitespace of the line. *)
Lemma leading_whitespace_node (cls : ascii -> bool) (lo : nat)
      (hi : option nat) (p : pattern) (s rest : string) (caps : list string) :
  1 <= lo ->
  (forall c, cls c = true -> isspace c = false) ->
  re_match (Rep isspace 0 None :: Rep cls lo hi :: p) s = Some (caps, rest) ->
  node_text 1 caps = take (span isspace s) s
  /\ exists m s', drop (span isspace s) s = String m s' /\ cls m = true.
Proof.
  intros Hlo Hcls M.
  apply re_match_rep in M as (k1 & c1 & Hk1 & M & ->).
  apply re_match_rep in M as (k2 & c2 & Hk2 & _).
  unfold rep_max in Hk1. pose proof (rep_max_le_span cls hi (drop k1 s)) as L.
  destruct (span_pos cls (drop k1 s)) as (m & s' & Ed & Hm); [lia |].
  assert (E : k1 = span isspace s).
  { destruct (Nat.eq_dec k1 (span isspace s)) as [E | NE]; [exact E |].
    exfalso. destruct (drop_below_span isspace k1 s) as (c & s'' & Ec & Hc);
      [lia |].
    rewrite Ec in Ed. injection Ed as -> _.
    rewrite (Hcls _ Hm) in Hc. discriminate. }
  subst k1. split; [reflexivity |]. now exists m, s'.
Qed.

Lemma marker_not_space (c : ascii) :
  (Ascii.eqb c "-" || Ascii.eqb c "*" || Ascii.eqb c "+")%char = true ->
  isspace c = false.
Proof.
  intros H. apply orb_prop in H as [H | H]; [apply orb_prop in H as [H | H] |];
    apply Ascii.eqb_eq in H; now subst c.
Qed.

Lemma marker_not_digit (c : ascii) :
  (Ascii.eqb c "-" || Ascii.eqb c "*" || Ascii.eqb c "+")%char = true ->
  is_digit c = false.
Proof.
  intros H. apply orb_prop in H as [H | H]; [apply orb_prop in H as [H | H] |];
    apply Ascii.eqb_eq in H; now subst c.
Qed.

Lemma digit_not_space (c : ascii) : is_digit c = true -> isspace c = false.
Proof.
  unfold is_digit, isspace. cbv zeta. intros H.
  apply andb_prop in H as [H1 H2]. apply Nat.leb_le in H1, H2.
  assert (A : (nat_of_ascii c <=? 13)%nat = false) by (apply Nat.leb_gt; lia).
  assert (B : (nat_of_ascii c <=? 32)%nat = false) by (apply Nat.leb_gt; lia).
  assert (C : (nat_of_ascii c =? 133)%nat = false) by (apply Nat.eqb_neq; lia).
  assert (D : (nat_of_ascii c =? 160)%nat = false) by (apply Nat.eqb_neq; lia).
  now rewrite A, B, C, D, !andb_false_r.
Qed.

(** No line matches both list patterns: after the leading whitespace
    stands a marker or a digit, not both. *)
Lemma list_patterns_disjoint (line : string) (c1 c2 : list string) :
  pmatch unordered_pattern line = Some c1 ->
  pmatch ordered_pattern line = Some c2 -> False.
Proof.
  unfold pmatch, unordered_pattern, ordered_pattern.
  destruct (re_match _ line) as [[a1 r1] |] eqn:M1; [| discriminate].
  destruct (re_match (_ :: Rep is_digit _ _ :: _) line) as [[a2 r2] |] eqn:M2;
    [| discriminate].
  intros _ _.
  apply leading_whitespace_node in M1 as (_ & m1 & s1 & E1 & H1);
    [| lia | apply marker_not_space].
  apply leading_whitespace_node in M2 as (_ & m2 & s2 & E2 & H2);
    [| lia | apply digit_not_space].
  rewrite E1 in E2. injection E2 as -> _.
  rewrite (marker_not_digit _ H1) in H2. discriminate.
Qed.

Lemma list_formatting_step_warnings (self : validator) (item : nat * string) :
  warnings (list_formatting_step self item)
  = List.app (warnings self) (list_formatting_emitted item).
Proof.
  destruct item as [i line].
  unfold list_formatting_step, list_formatting_emitted, is_list_item.
  cbn [fst snd].
  destruct (pmatch unordered_pattern line) as [c1 |] eqn:U,
      (pmatch ordered_pattern line) as [c2 |] eqn:O.
  - destruct (list_patterns_disjoint _ _ _ U O).
  - unfold pmatch, unordered_pattern in U.
    destruct (re_match _ line) as [[a r] |] eqn:M; [| discriminate].
    injection U as ->.
    apply leading_whitespace_node in M as (-> & _);
      [| lia | apply marker_not_space].
    rewrite take_length by apply span_le_length. cbn [andb].
    destruct (negb _); [reflexivity | now rewrite List.app_nil_r].
  - unfold pmatch, ordered_pattern in O.
    destruct (re_match _ line) as [[a r] |] eqn:M; [| discriminate].
    injection O as ->.
    apply leading_whitespace_node in M as (-> & _);
      [| lia | apply digit_not_space].
    rewrite take_length by apply span_le_length. cbn [andb].
    destruct (negb _); [reflexivity | now rewrite List.app_nil_r].
  - cbn [andb]. now rewrite List.app_nil_r.
Qed.

(** X13: the list-formatting check appends one warning at most per line:
    for a line that matches one of the two list patterns (no line matches
    both) and starts with an odd number of whitespace characters; the
    indentation it measures is all the whitespace the line starts with,
    a tab counting for one. *)
Theorem X13_list_formatting_warnings (self : validator) :
  new_warnings validate_list_formatting self
  = flat_map list_formatting_emitted (enumerate (lines self))
  /\ (forall line c1 c2,
        pmatch unordered_pattern line = Some c1 ->
        pmatch ordered_pattern line = Some c2 -> False)
  /\ (forall line caps,
        pmatch unordered_pattern line = Some caps
        \/ pmatch ordered_pattern line = Some caps ->
        node_text 1 caps = take (span isspace line) line).
Proof.
  split; [| split].
  - apply new_warnings_frame. unfold validate_list_formatting.
    apply fold_warnings. apply list_formatting_step_warnings.
  - apply list_patterns_disjoint.
  - intros line caps [H | H]; unfold pmatch in H;
      destruct (re_match _ line) as [[a r] |] eqn:M; try discriminate;
      injection H as ->.
    + now apply leading_whitespace_node in M as (-> & _);
        [| lia | apply marker_not_space].
    + now apply leading_whitespace_node in M as (-> & _);
        [| lia | apply digit_not_space].
Qed.

(** ** When a document passes *)

Lemma flat_map_nil_iff {A B : Type} (f : A -> list B) (l : list A) :
  flat_map f l = [] <-> forall x, In x l -> f x = [].
Proof.
  induction l as [| a l IH]; simpl.
  - split; [intros _ x [] | reflexivity].
  - split.
    + intros H. apply app_eq_nil in H as [Ha Hl].
      intros x [<- | Hx]; [exact Ha | now apply IH].
    + intros H. rewrite (H a) by now left. simpl. apply IH.
      intros x Hx. apply H. now right.
Qed.

Lemma In_enumerate_snd {A : Type} (l : list A) (x : A) :
  In x l <-> exists i, In (i, x) (enumerate l).
Proof.
  split.
  - intros H. apply In_nth_error in H as [i H]. exists i.
    now apply enumerate_In.
  - intros [i H]. apply enumerate_In in H. now apply nth_error_In in H.
Qed.

Lemma code_blocks_errors_nil_iff (self : validator) :
  new_errors validate_code_blocks self = []
  <-> Nat.even (count_fences (lines self)) = true.
Proof.
  pose proof (code_blocks_fold (lines self) 0 (mkFence false (-1) self))
    as (Hflag & Herr & _).
  cbv zeta in *. cbn [in_code_block fence_self] in *.
  rewrite xorb_false_l in Hflag.
  unfold new_errors, validate_code_blocks, enumerate.
  rewrite Hflag, <- Nat.negb_odd.
  destruct (Nat.odd (count_fences (lines self))).
  - cbn [errors append_error negb]. rewrite Herr. unfold list_append.
    rewrite skipn_length_app. split; discriminate.
  - rewrite Herr, skipn_all. now split.
Qed.

Lemma empty_headings_errors_nil_iff (self : validator) :
  new_errors validate_empty_headings self = []
  <-> no_empty_heading (lines self).
Proof.
  rewrite validate_empty_headings_errors, flat_map_nil_iff. split.
  - intros H line Hin Hl. apply In_enumerate_snd in Hin as [i Hi].
    specialize (H _ Hi). unfold empty_headings_emitted in H. cbn [snd] in H.
    pose proof (empty_heading_matches _ Hl) as M.
    destruct (pmatch empty_heading_pattern line); [discriminate | congruence].
  - intros H [i line] Hi. unfold empty_headings_emitted. cbn [fst snd].
    destruct (pmatch empty_heading_pattern line) as [caps |] eqn:M;
      [| reflexivity].
    exfalso. apply (H line); [apply In_enumerate_snd; now exists i |].
    destruct (empty_heading_shape _ _ M) as (Hk & _ & Hs). now split.
Qed.

Lemma links_errors_nil_iff (self : validator) :
  new_errors validate_links self = [] <-> no_empty_url (lines self).
Proof.
  rewrite validate_links_errors, flat_map_nil_iff. split.
  - intros H line caps Hin Hc E. apply In_enumerate_snd in Hin as [i Hi].
    specialize (H _ Hi). cbn [fst snd] in H.
    rewrite flat_map_nil_iff in H. specialize (H _ Hc).
    unfold links_emitted in H. rewrite E in H.
    apply app_eq_nil in H as [_ H]. discriminate H.
  - intros H [i line] Hi. cbn [fst snd]. apply flat_map_nil_iff.
    intros caps Hc. unfold links_emitted.
    pose proof Hc as Hc'. apply finditer_from_In in Hc' as (s' & rest & M).
    rewrite (link_text_not_empty _ _ _ M). cbn [negb List.app].
    assert (N : node_text 5 caps <> "").
    { apply (H line); [apply In_enumerate_snd; now exists i | exact Hc]. }
    destruct (node_text 5 caps); [congruence | reflexivity].
Qed.

Lemma pass_criterion (fs : filesystem) (self : validator) (text : string) :
  fs (file_path self) = Returns text ->
  errors self = [] ->
  (fst (validate fs self) = true
   <-> title_ok (split_lines text)
       /\ Nat.even (count_fences (split_lines text)) = true
       /\ no_empty_url (split_lines text)
       /\ no_empty_heading (split_lines text)).
Proof.
  intros H He.
  destruct (validate_on_text fs self text H) as [_ V]. cbv zeta in V.
  rewrite V, He.
  change (split_lines text) with (lines (loaded text)).
  rewrite <- (proj1 (title_check_silent (loaded text))).
  rewrite <- code_blocks_errors_nil_iff, <- links_errors_nil_iff,
    <- empty_headings_errors_nil_iff.
  split.
  - intros [_ E]. apply app_eq_nil in E as [E1 E].
    apply app_eq_nil in E as [E2 E]. apply app_eq_nil in E as [E3 E4].
    auto.
  - intros (-> & -> & -> & ->). split; reflexivity.
Qed.

(** X14: a file that reads, validated by a new validator (no error
    recorded yet), passes exactly when its title is accepted, the number of
    its fence lines is even, no link found on a line has an empty URL, and
    no line has the shape of an empty heading. *)
Theorem X14_pass_criterion (fs : filesystem) (self : validator) (text : string) :
  fs (file_path self) = Returns text ->
  errors self = [] ->
  (fst (validate fs self) = true
   <-> title_ok (split_lines text)
       /\ Nat.even (count_fences (split_lines text)) = true
       /\ no_empty_url (split_lines text)
       /\ no_empty_heading (split_lines text)).
Proof.
  apply pass_criterion.
Qed.

Lemma X14_pass_criterion_witness :
  (fun _ : Path => Returns ("# T" ++ nls ++ "```")) (file_path (init doc_path))
  = Returns ("# T" ++ nls ++ "```")
  /\ errors (init doc_path) = []
  /\ ~ (title_ok (split_lines ("# T" ++ nls ++ "```"))
        /\ Nat.even (count_fences (split_lines ("# T" ++ nls ++ "```"))) = true
        /\ no_empty_url (split_lines ("# T" ++ nls ++ "```"))
        /\ no_empty_heading (split_lines ("# T" ++ nls ++ "```"))).
Proof.
  split; [reflexivity |]. split; [reflexivity |].
  intros C.
  apply (X14_pass_criterion (fun _ => Returns ("# T" ++ nls ++ "```"))
           (init doc_path) ("# T" ++ nls ++ "```") eq_refl eq_refl) in C.
  vm_compute in C. discriminate C.
Defined.

(** ** Documents of blank lines *)

Lemma rstrip_nil_spaces (s : string) : rstrip s = "" -> all_chars isspace s = true.
Proof.
  induction s as [| c s IH]; simpl; [reflexivity |].
  destruct (rstrip s) as [| d r]; [| discriminate].
  destruct (isspace c); [| discriminate].
  intros _. now rewrite IH.
Qed.

Lemma lstrip_spaces_inv (s : string) :
  all_chars isspace (lstrip s) = true -> all_chars isspace s = true.
Proof.
  induction s as [| c s IH]; simpl; [reflexivity |].
  destruct (isspace c) eqn:E; simpl; [exact IH |].
  rewrite E. discriminate.
Qed.

Lemma blank_spaces (l : string) : is_blank l = true -> all_chars isspace l = true.
Proof.
  unfold is_blank, strip. intros H. apply lstrip_spaces_inv, rstrip_nil_spaces.
  now destruct (rstrip (lstrip l)).
Qed.

Lemma spaces_no_fence (l : string) : all_chars isspace l = true -> is_fence l = false.
Proof.
  destruct l as [| c l]; [reflexivity |]. intros H. simpl in H.
  apply andb_prop in H as [Hc _]. unfold is_fence. cbn [startswith].
  destruct (Ascii.eqb_spec "`"%char c) as [<- | N]; [discriminate Hc | reflexivity].
Qed.

Lemma spaces_no_link (s : string) (skip : nat) :
  all_chars isspace s = true -> finditer_from link_pattern s skip = [].
Proof.
  revert skip. induction s as [| c s IH]; intros skip H.
  - destruct skip; reflexivity.
  - simpl in H. apply andb_prop in H as [Hc Hs].
    cbn [finditer_from]. destruct skip as [| k]; [| now apply IH].
    assert (M : re_match link_pattern (String c s) = None).
    { unfold link_pattern, lit. cbn [re_match rep_max span].
      destruct (Ascii.eqb_spec "["%char c) as [<- | N]; [discriminate Hc |].
      reflexivity. }
    rewrite M. now apply IH.
Qed.

Lemma spaces_no_empty_heading (l : string) :
  all_chars isspace l = true -> ~ empty_heading_line l.
Proof.
  intros H [[Hk _] _]. destruct l as [| c l]; simpl in Hk; [lia |].
  simpl in H. apply andb_prop in H as [Hc _].
  destruct (is_hash c) eqn:E; [| lia].
  rewrite (is_hash_not_space _ E) in Hc. discriminate.
Qed.

Lemma blank_lines_count_fences (ls : list string) :
  (forall l, In l ls -> is_blank l = true) -> count_fences ls = 0.
Proof.
  induction ls as [| l ls IH]; intros H; [reflexivity |].
  rewrite count_fences_cons, spaces_no_fence.
  - apply IH. intros x Hx. apply H. now right.
  - apply blank_spaces, H. now left.
Qed.

(** X15: a file that reads and has no line other than blank ones, the
    empty file among them, passes validation: no title is asked of it. *)
Theorem X15_blank_document_passes (fs : filesystem) (self : validator)
        (text : string) :
  fs (file_path self) = Returns text ->
  errors self = [] ->
  (forall l, In l (split_lines text) -> is_blank l = true) ->
  fst (validate fs self) = true.
Proof.
  intros H He Hb. apply (pass_criterion fs self text H He).
  split; [now left |]. split; [| split].
  - now rewrite blank_lines_count_fences.
  - intros line caps Hin Hc. unfold finditer in Hc.
    rewrite spaces_no_link in Hc by (apply blank_spaces; auto). destruct Hc.
  - intros line Hin. apply spaces_no_empty_heading, blank_spaces. auto.
Qed.

Lemma X15_blank_document_passes_witness :
  (fun _ : Path => Returns (" " ++ nls)) (file_path (init doc_path))
  = Returns (" " ++ nls)
  /\ errors (init doc_path) = []
  /\ (forall l, In l (split_lines (" " ++ nls)) -> is_blank l = true)
  /\ fst (validate (fun _ => Returns (" " ++ nls)) (init doc_path)) = true.
Proof.
  assert (B : forall l, In l (split_lines (" " ++ nls)) -> is_blank l = true).
  { intros l [<- | [<- | []]]; reflexivity. }
  split; [reflexivity |]. split; [reflexivity |]. split; [exact B |].
  exact (X15_blank_document_passes (fun _ => Returns (" " ++ nls))
           (init doc_path) (" " ++ nls) eq_refl eq_refl B).
Defined.

(** ** The report of a validated document *)


(* ================================================================== *)
(** ** The command line *)

Lemma valid_iff_passes (fs : filesystem) (p : Path) :
  valid fs p = true <-> passes fs p.
Proof.
  unfold valid, passes. destruct (fs p) as [text | e] eqn:F.
  - rewrite (pass_criterion fs (init p) text F eq_refl). split.
    + intros H. exists text. split; [reflexivity | exact H].
    + intros (t & [= <-] & H). exact H.
  - split.
    + intros H. unfold validate in H.
      rewrite (read_file_failure fs (init p) e F) in H. discriminate H.
    + intros (t & Ht & _). discriminate Ht.
Qed.

Lemma validate_single_file_eq (fs : filesystem) (p : Path) (out : stdout) :
  validate_single_file fs p out
  = (valid fs p, List.app out [get_report (snd (validate fs (init p)))]).
Proof.
  unfold validate_single_file, valid, print, list_append.
  now destruct (validate fs (init p)).
Qed.

Lemma new_output_app {A : Type} (run : stdout -> A * stdout) (out : stdout)
      (l : list string) :
  snd (run out) = List.app out l -> new_output run out = l.
Proof.
  unfold new_output. intros ->. apply skipn_length_app.
Qed.

Lemma all_files_step_eq (fs : filesystem) (st : batch_state) (p : Path) :
  all_files_step fs st p
  = mkBatch (passed_files st + count_verdict fs true [p])
            (failed_files st + count_verdict fs false [p])
            (List.app (printed st) (file_output fs p)).
Proof.
  unfold all_files_step, count_verdict, file_output, valid, print, list_append.
  cbn [filter].
  destruct (validate fs (init p)) as [[|] v]; cbn [fst snd Bool.eqb List.length].
  - now rewrite Nat.add_0_r.
  - now rewrite Nat.add_0_r, <- List.app_assoc.
Qed.

Lemma count_verdict_cons (fs : filesystem) (b : bool) (p : Path)
      (l : list Path) :
  count_verdict fs b (p :: l) = count_verdict fs b [p] + count_verdict fs b l.
Proof.
  unfold count_verdict. cbn [filter].
  now destruct (Bool.eqb (valid fs p) b).
Qed.

Lemma all_files_fold (fs : filesystem) (l : list Path) (st : batch_state) :
  fold_left (all_files_step fs) l st
  = mkBatch (passed_files st + count_verdict fs true l)
            (failed_files st + count_verdict fs false l)
            (List.app (printed st) (flat_map (file_output fs) l)).
Proof.
  revert st. induction l as [| p l IH]; intros st.
  - cbn [fold_left flat_map]. unfold count_verdict. cbn [filter List.length].
    rewrite !Nat.add_0_r, List.app_nil_r. now destruct st.
  - cbn [fold_left flat_map]. rewrite IH, all_files_step_eq.
    cbn [passed_files failed_files printed].
    rewrite (count_verdict_cons fs true p l), (count_verdict_cons fs false p l).
    now rewrite !Nat.add_assoc, <- List.app_assoc.
Qed.

Lemma count_verdict_perm (fs : filesystem) (b : bool) (l l' : list Path) :
  Permutation l l' -> count_verdict fs b l = count_verdict fs b l'.
Proof.
  induction 1 as [| x l l' _ IH | x y l | l l' l'' _ IH1 _ IH2].
  - reflexivity.
  - now rewrite (count_verdict_cons fs b x l), (count_verdict_cons fs b x l'), IH.
  - rewrite (count_verdict_cons fs b y (x :: l)), (count_verdict_cons fs b x l),
      (count_verdict_cons fs b x (y :: l)), (count_verdict_cons fs b y l). lia.
  - congruence.
Qed.

Lemma count_verdict_total (fs : filesystem) (l : list Path) :
  count_verdict fs true l + count_verdict fs false l = List.length l.
Proof.
  induction l as [| p l IH]; [reflexivity |].
  rewrite (count_verdict_cons fs true p l), (count_verdict_cons fs false p l).
  cbn [List.length]. rewrite <- IH. unfold count_verdict at 1 3.
  cbn [filter]. destruct (valid fs p); cbn [Bool.eqb List.length]; lia.
Qed.

Lemma count_failed_zero (fs : filesystem) (l : list Path) :
  count_verdict fs false l = 0 <-> forall p, In p l -> valid fs p = true.
Proof.
  induction l as [| q l IH].
  - split; [intros _ p [] | reflexivity].
  - rewrite (count_verdict_cons fs false q l). split.
    + intros H p [<- | Hp].
      * unfold count_verdict in H. cbn [filter] in H.
        destruct (valid fs q); [reflexivity | cbn in H; lia].
      * apply IH; [lia | exact Hp].
    + intros H. rewrite (proj2 IH) by (intros p Hp; apply H; now right).
      unfold count_verdict. cbn [filter].
      rewrite (H q) by now left. reflexivity.
Qed.

(** What the batch run returns and prints, in closed form. *)
Lemma validate_all_files_eq (fs : filesystem) (env : environment)
      (dir : Path) (out : stdout) :
  validate_all_files fs env dir out
  = let files := glob_md env dir in
    let l := sorted env files in
    match files with
    | [] =>
        ((0, 0, 0),
         List.app out ["No markdown files found in " ++ path_str dir])
    | _ :: _ =>
        ((List.length files, count_verdict fs true l, count_verdict fs false l),
         List.app out
           ((nls ++ "Validating " ++ str_int (Z.of_nat (List.length files))
             ++ " markdown files..." ++ nls)
            :: List.app (flat_map (file_output fs) l)
                 (batch_summary (List.length files) (count_verdict fs true l)
                    (count_verdict fs false l))))
    end.
Proof.
  unfold validate_all_files. cbv zeta.
  destruct (glob_md env dir) as [| p files] eqn:G; [reflexivity |].
  rewrite all_files_fold. cbn [passed_files failed_files printed Nat.add].
  unfold print, list_append, batch_summary.
  f_equal. rewrite <- !List.app_assoc. reflexivity.
Qed.

Lemma validate_all_files_counts (fs : filesystem) (env : environment)
      (dir : Path) (out : stdout) :
  Permutation (sorted env (glob_md env dir)) (glob_md env dir) ->
  fst (validate_all_files fs env dir out)
  = (List.length (glob_md env dir),
     count_verdict fs true (glob_md env dir),
     count_verdict fs false (glob_md env dir)).
Proof.
  intros P. rewrite validate_all_files_eq. cbv zeta.
  rewrite !(count_verdict_perm fs _ _ _ P).
  now destruct (glob_md env dir).
Qed.

Lemma main_exit_status (fs : filesystem) (env : environment)
      (args : arguments) (out : stdout) :
  Permutation (sorted env (glob_md env (cheatsheets env)))
              (glob_md env (cheatsheets env)) ->
  (fst (main fs env args out) = 0%Z
   <-> (args_all args = true
        /\ path_exists env (cheatsheets env) = true
        /\ forall p, In p (glob_md env (cheatsheets env)) -> passes fs p)
       \/ (args_all args = false
           /\ exists p, file_argument env args p /\ passes fs p))
  /\ (fst (main fs env args out) = 0%Z \/ fst (main fs env args out) = 1%Z).
Proof.
  intros P. unfold main, file_argument.
  destruct (args_all args).
  - destruct (path_exists env (cheatsheets env)); cbn [negb fst].
    + pose proof (validate_all_files_counts fs env (cheatsheets env) out P) as C.
      destruct (validate_all_files fs env (cheatsheets env) out)
        as [[[total passed] failed] out'].
      cbn [fst] in C. injection C as _ _ ->. cbn [fst].
      pose proof (count_failed_zero fs (glob_md env (cheatsheets env))) as Z0.
      destruct (Nat.eqb_spec
                  (count_verdict fs false (glob_md env (cheatsheets env))) 0)
        as [E | E].
      * split; [| now left]. split; [| reflexivity].
        intros _. left. repeat split.
        intros p Hp. apply valid_iff_passes. now apply Z0.
      * split; [| now right]. split; [discriminate |].
        intros [(_ & _ & H) | (H & _)]; [| discriminate H].
        exfalso. apply E, Z0. intros p Hp. apply valid_iff_passes. auto.
    + split; [| now right]. split; [discriminate |].
      intros [(_ & H & _) | (H & _)]; discriminate H.
  - destruct (args_file args) as [file |].
    + destruct file as [| c file]; cbn [truthy].
      * cbn [fst]. split; [| now right]. split; [discriminate |].
        intros [(H & _) | (_ & p & (f & [= <-] & N & _) & _)];
          [discriminate H | congruence].
      * set (f := String c file).
        destruct (path_exists env (path_of env f)) eqn:X; cbn [negb].
        -- destruct (String.eqb_spec (path_suffix env (path_of env f)) ".md")
             as [S | S]; cbn [negb].
           ++ rewrite validate_single_file_eq. cbn [fst].
              pose proof (valid_iff_passes fs (path_of env f)) as V.
              destruct (valid fs (path_of env f)).
              ** split; [| now left]. split; [| reflexivity].
                 intros _. right. split; [reflexivity |].
                 exists (path_of env f). split; [| now apply V].
                 exists f. repeat split; auto. discriminate.
              ** split; [| now right]. split; [discriminate |].
                 intros [(H & _) | (_ & p & (f' & [= <-] & _ & -> & _) & Hp)];
                   [discriminate H |].
                 apply V in Hp. discriminate Hp.
           ++ cbn [fst]. split; [| now right]. split; [discriminate |].
              intros [(H & _) | (_ & p & (f' & [= <-] & _ & -> & _ & S') & _)];
                [discriminate H | congruence].
        -- cbn [fst]. split; [| now right]. split; [discriminate |].
           intros [(H & _) | (_ & p & (f' & [= <-] & _ & -> & X' & _) & _)];
             [discriminate H | congruence].
    + cbn [fst]. split; [| now right]. split; [discriminate |].
      intros [(H & _) | (_ & p & (f & H & _) & _)]; discriminate H.
Qed.

(** X18: [validate_single_file] prints one string, the report of the file,
    whatever the verdict, and returns [True] exactly when the file reads
    and its text meets the four conditions of a pass. *)
Theorem X18_single_file_verdict (fs : filesystem) (p : Path) (out : stdout) :
  (fst (validate_single_file fs p out) = true <-> passes fs p)
  /\ new_output (validate_single_file fs p) out
     = [get_report (snd (validate fs (init p)))].
Proof.
  rewrite validate_single_file_eq. cbn [fst]. split.
  - apply valid_iff_passes.
  - apply new_output_app. now rewrite validate_single_file_eq.
Qed.

(** X19: the tuple [validate_all_files] returns, when [sorted] hands back
    the files that [glob] listed in some order: the number of files listed,
    the number of them that a new validator accepts and the number it
    rejects; the last two add up to the first.  A directory without
    markdown files gives three zeros. *)
Theorem X19_batch_counts (fs : filesystem) (env : environment) (dir : Path)
        (out : stdout) :
  Permutation (sorted env (glob_md env dir)) (glob_md env dir) ->
  fst (validate_all_files fs env dir out)
  = (List.length (glob_md env dir),
     count_verdict fs true (glob_md env dir),
     count_verdict fs false (glob_md env dir))
  /\ count_verdict fs true (glob_md env dir)
     + count_verdict fs false (glob_md env dir)
     = List.length (glob_md env dir).
Proof.
  intros P. split.
  - now apply validate_all_files_counts.
  - apply count_verdict_total.
Qed.

Lemma X19_batch_counts_witness :
  Permutation (sorted example_env (glob_md example_env example_dir))
              (glob_md example_env example_dir)
  /\ fst (validate_all_files example_fs example_env example_dir []) = (2, 1, 1).
Proof.
  split.
  - vm_compute. apply perm_swap.
  - apply (X19_batch_counts example_fs example_env example_dir []).
    vm_compute. apply perm_swap.
Defined.

(** X20: the status [main] exits with.  It is 0 in two cases only: [--all]
    was given, the cheatsheets directory exists and every markdown file
    listed in it reads and meets the conditions of a pass (so also when
    none is listed); or [--all] was not given and the file argument is not
    empty, names an existing path with the suffix [.md], and that file
    reads and meets the conditions.  In every other case it is 1; with
    [--all] the file argument is not looked at. *)
Theorem X20_main_exit_status (fs : filesystem) (env : environment)
        (args : arguments) (out : stdout) :
  Permutation (sorted env (glob_md env (cheatsheets env)))
              (glob_md env (cheatsheets env)) ->
  (fst (main fs env args out) = 0%Z
   <-> (args_all args = true
        /\ path_exists env (cheatsheets env) = true
        /\ forall p, In p (glob_md env (cheatsheets env)) -> passes fs p)
       \/ (args_all args = false
           /\ exists p, file_argument env args p /\ passes fs p))
  /\ (fst (main fs env args out) = 0%Z \/ fst (main fs env args out) = 1%Z).
Proof.
  apply main_exit_status.
Qed.

Lemma X20_main_exit_status_witness :
  Permutation (sorted example_env (glob_md example_env (cheatsheets example_env)))
              (glob_md example_env (cheatsheets example_env))
  /\ fst (main example_fs example_env
            (mkArguments (Some "cheatsheets/a.md") false) []) = 0%Z
  /\ fst (main example_fs example_env
            (mkArguments (Some "cheatsheets/a.md") true) []) = 1%Z.
Proof.
  assert (P : Permutation
                (sorted example_env (glob_md example_env (cheatsheets example_env)))
                (glob_md example_env (cheatsheets example_env))).
  { vm_compute. apply perm_swap. }
  split; [exact P |].
  pose proof (X20_main_exit_status example_fs example_env
                (mkArguments (Some "cheatsheets/a.md") true) [] P) as [_ H].
  split; [vm_compute; reflexivity |].
  destruct H as [H | H]; [vm_compute in H; discriminate H | exact H].
Defined.

(** X21: what [validate_all_files] prints, when [sorted] hands back the
    files that [glob] listed in some order.  Without markdown files, one
    line that names the directory.  Otherwise the opening line with the
    number of files; for each file in sorted order a line with the check
    mark, or a line with the cross followed by the report of that file (no
    report is printed for a file that passes, so its warnings are not
    shown); then the summary, whose numbers are those of the returned
    tuple. *)
Theorem X21_batch_output (fs : filesystem) (env : environment) (dir : Path)
        (out : stdout) :
  Permutation (sorted env (glob_md env dir)) (glob_md env dir) ->
  new_output (validate_all_files fs env dir) out
  = match glob_md env dir with
    | [] => ["No markdown files found in " ++ path_str dir]
    | files =>
        (nls ++ "Validating " ++ str_int (Z.of_nat (List.length files))
         ++ " markdown files..." ++ nls)
        :: List.app (flat_map (file_output fs) (sorted env files))
             (batch_summary (List.length files)
                (count_verdict fs true files) (count_verdict fs false files))
    end.
Proof.
  intros P. apply new_output_app. rewrite validate_all_files_eq. cbv zeta.
  rewrite !(count_verdict_perm fs _ _ _ P).
  now destruct (glob_md env dir).
Qed.

Lemma X21_batch_output_witness :
  Permutation (sorted example_env (glob_md example_env example_dir))
              (glob_md example_env example_dir)
  /\ List.length (new_output (validate_all_files example_fs example_env example_dir) [])
     = 8.
Proof.
  split.
  - vm_compute. apply perm_swap.
  - rewrite (X21_batch_output example_fs example_env example_dir []).
    + reflexivity.
    + vm_compute. apply perm_swap.
Defined.


(* ================================================================== *)
(** ** Links without a URL *)

Lemma backtrack_first {A : Type} (try : nat -> option A) (lo n : nat) (r : A) :
  lo <= n -> try n = Some r -> backtrack try lo n = Some r.
Proof.
  intros L T. destruct n as [| n]; cbn [backtrack].
  - destruct (Nat.ltb_spec 0 lo); [lia | now rewrite T].
  - destruct (Nat.ltb_spec (S n) lo); [lia | now rewrite T].
Qed.

Lemma re_match_lit (c : ascii) (p : pattern) (s : string) :
  re_match (lit c :: p) (String c s)
  = match re_match p s with
    | Some (caps, rest) => Some (String c "" :: caps, rest)
    | None => None
    end.
Proof.
  unfold lit. cbn [re_match]. unfold rep_max. cbn [span].
  rewrite Ascii.eqb_refl. cbn [Nat.min backtrack Nat.ltb Nat.leb drop take].
  destruct (re_match p s) as [[caps rest] |]; reflexivity.
Qed.

Lemma re_match_lit_fail (c a : ascii) (p : pattern) (s : string) :
  Ascii.eqb c a = false -> re_match (lit c :: p) (String a s) = None.
Proof.
  intros H. unfold lit. cbn [re_match]. unfold rep_max. cbn [span].
  rewrite H. reflexivity.
Qed.

Lemma span_app (cls : ascii -> bool) (t rest : string) :
  all_chars cls t = true ->
  span cls (t ++ rest) = String.length t + span cls rest.
Proof.
  induction t as [| c t IH]; [reflexivity |].
  cbn [all_chars append span String.length]. intros H.
  apply andb_true_iff in H as [-> H]. now rewrite (IH H).
Qed.

Lemma take_app (t rest : string) : take (String.length t) (t ++ rest) = t.
Proof.
  induction t as [| c t IH]; cbn [String.length append take].
  - now destruct rest.
  - now rewrite IH.
Qed.

Lemma drop_app (t rest : string) : drop (String.length t) (t ++ rest) = rest.
Proof.
  induction t as [| c t IH]; cbn [String.length append drop].
  - now destruct rest.
  - exact IH.
Qed.

(** A greedy repetition followed by a character outside its class takes
    the whole run when the rest of the pattern matches after it. *)
Lemma re_match_greedy (cls : ascii -> bool) (lo : nat) (p : pattern)
      (t rest r : string) (caps : list string) :
  all_chars cls t = true ->
  span cls rest = 0 ->
  lo <= String.length t ->
  re_match p rest = Some (caps, r) ->
  re_match (Rep cls lo None :: p) (t ++ rest) = Some (t :: caps, r).
Proof.
  intros Ht Hr L M. cbn [re_match]. unfold rep_max.
  rewrite (span_app cls t rest Ht), Hr, Nat.add_0_r.
  apply backtrack_first; [exact L |].
  now rewrite drop_app, M, take_app.
Qed.

Lemma link_empty_url_match (t post : string) :
  t <> "" ->
  all_chars (fun c => negb (Ascii.eqb c "]"%char)) t = true ->
  re_match link_pattern ("[" ++ t ++ "]()" ++ post)
  = Some (["["; t; "]"; "("; ""; ")"], post).
Proof.
  intros N Ht. unfold link_pattern.
  change ("[" ++ t ++ "]()" ++ post) with (String "[" (t ++ "]()" ++ post)).
  rewrite re_match_lit.
  rewrite (re_match_greedy _ 1 _ t ("]()" ++ post) post ["]"; "("; ""; ")"]);
    [reflexivity | exact Ht | reflexivity | |].
  - destruct t; [congruence | cbn; lia].
  - change ("]()" ++ post) with (String "]" (String "(" (String ")" post))).
    rewrite !re_match_lit.
    change (String ")" post) with ("" ++ String ")" post).
    rewrite (re_match_greedy _ 0 _ "" (String ")" post) post [")"]);
      [reflexivity | reflexivity | reflexivity | cbn; lia |].
    now rewrite re_match_lit.
Qed.

Lemma finditer_link_prefix (pre s : string) :
  all_chars (fun c => negb (Ascii.eqb c "["%char)) pre = true ->
  finditer_from link_pattern (pre ++ s) 0 = finditer_from link_pattern s 0.
Proof.
  induction pre as [| a pre IH]; [reflexivity |].
  cbn [all_chars append]. intros H. apply andb_true_iff in H as [Ha H].
  cbn [finditer_from]. unfold link_pattern at 1.
  rewrite re_match_lit_fail.
  - exact (IH H).
  - apply negb_true_iff in Ha. now rewrite Ascii.eqb_sym.
Qed.

Lemma link_empty_url_found (pre t post : string) :
  all_chars (fun c => negb (Ascii.eqb c "["%char)) pre = true ->
  t <> "" ->
  all_chars (fun c => negb (Ascii.eqb c "]"%char)) t = true ->
  In ["["; t; "]"; "("; ""; ")"]
     (finditer link_pattern (pre ++ "[" ++ t ++ "]()" ++ post)).
Proof.
  intros Hp N Ht. unfold finditer. rewrite (finditer_link_prefix _ _ Hp).
  change ("[" ++ t ++ "]()" ++ post) with (String "[" (t ++ "]()" ++ post)).
  cbn [finditer_from].
  change (String "[" (t ++ "]()" ++ post)) with ("[" ++ t ++ "]()" ++ post).
  rewrite (link_empty_url_match t post N Ht). now left.
Qed.

Lemma empty_url_error (self : validator) (i : nat) (pre t post : string) :
  nth_error (lines self) i = Some (pre ++ "[" ++ t ++ "]()" ++ post) ->
  all_chars (fun c => negb (Ascii.eqb c "["%char)) pre = true ->
  t <> "" ->
  all_chars (fun c => negb (Ascii.eqb c "]"%char)) t = true ->
  In ("Line " ++ lineno i ++ ": Empty link URL")
     (new_errors validate_links self).
Proof.
  intros Hi Hp N Ht. rewrite validate_links_errors.
  apply in_flat_map. exists (i, pre ++ "[" ++ t ++ "]()" ++ post). split.
  - now apply enumerate_In.
  - cbn [fst snd]. apply in_flat_map.
    exists ["["; t; "]"; "("; ""; ")"]. split.
    + now apply link_empty_url_found.
    + unfold links_emitted, node_text. cbn [Nat.pred nth truthy negb].
      destruct t; [congruence |]. cbn [negb List.app]. now left.
Qed.

Lemma empty_url_fails (fs : filesystem) (self : validator) (text : string)
      (i : nat) (pre t post : string) :
  fs (file_path self) = Returns text ->
  nth_error (split_lines text) i = Some (pre ++ "[" ++ t ++ "]()" ++ post) ->
  all_chars (fun c => negb (Ascii.eqb c "["%char)) pre = true ->
  t <> "" ->
  all_chars (fun c => negb (Ascii.eqb c "]"%char)) t = true ->
  fst (validate fs self) = false
  /\ In ("Line " ++ lineno i ++ ": Empty link URL")
        (errors (snd (validate fs self))).
Proof.
  intros F Hi Hp N Ht.
  pose proof (empty_url_error (loaded text) i pre t post Hi Hp N Ht) as E.
  destruct (validate_on_text fs self text F) as [S V]. cbv zeta in S, V.
  split.
  - destruct (fst (validate fs self)); [| reflexivity].
    destruct (proj1 V eq_refl) as [_ V'].
    apply app_eq_nil in V' as [_ V']. apply app_eq_nil in V' as [_ V'].
    apply app_eq_nil in V' as [V' _]. rewrite V' in E. destruct E.
  - rewrite S. cbn [errors]. apply in_or_app. right.
    apply in_or_app. right. apply in_or_app. right.
    apply in_or_app. now left.
Qed.

(** X22: a link without a URL is reported.  In a file that reads, a line
    that holds an opening bracket, a text without closing bracket, a
    closing bracket and an empty pair of parentheses, with no opening
    bracket before on the line, makes the pass fail with the error
    "Empty link URL" at the number of that line. *)
Theorem X22_empty_url_reported (fs : filesystem) (self : validator)
        (text : string) (i : nat) (pre t post : string) :
  fs (file_path self) = Returns text ->
  nth_error (split_lines text) i = Some (pre ++ "[" ++ t ++ "]()" ++ post) ->
  all_chars (fun c => negb (Ascii.eqb c "["%char)) pre = true ->
  t <> "" ->
  all_chars (fun c => negb (Ascii.eqb c "]"%char)) t = true ->
  fst (validate fs self) = false
  /\ In ("Line " ++ lineno i ++ ": Empty link URL")
        (errors (snd (validate fs self))).
Proof.
  apply empty_url_fails.
Qed.

Lemma X22_empty_url_reported_witness :
  fst (validate (fun _ => Returns ("# T" ++ nls ++ "see [docs]() here"))
         (init doc_path)) = false
  /\ In "Line 2: Empty link URL"
        (errors (snd (validate (fun _ => Returns ("# T" ++ nls ++ "see [docs]() here"))
                        (init doc_path)))).
Proof.
  apply (X22_empty_url_reported
           (fun _ => Returns ("# T" ++ nls ++ "see [docs]() here"))
           (init doc_path) ("# T" ++ nls ++ "see [docs]() here") 1
           "see " "docs" " here").
  - reflexivity.
  - reflexivity.
  - reflexivity.
  - discriminate.
  - reflexivity.
Defined.
